(** * CommanderPlayCalculator: a shallow embedding of the ramp simulators

    The repository holds four revisions of one Monte Carlo simulator
    (CommanderRampV001.py .. CommanderRampV004.py).  Each revision that a
    property talks about is embedded in a module of its own, named after
    the file: [V001] (dictionary cards, colourless mana only), [V003]
    (the [Card]/[Game] classes with coloured mana and cost reducers) and
    [V004] (the class hierarchy [Land]/[ManaRock]/[ManaDork] and the
    function [simulate_game]).  V002 repeats V001's engine: its
    [run_simulation] and the percentages of its [show_results] are
    embedded in [V002] on the definitions of [V001].  The reports of
    V003 and V004 are in [V003_report] and [V004_report]; of a report
    the numbers it prints are embedded, not the plot or the window.

    Conventions of the embedding:
    - a Python [int] is a [Z]; a [dict] from colour names to amounts is a
      [gmap string Z]; a [list] is a [list];
    - [random.shuffle] is a parameter [shuffle] that threads an abstract
      generator state and returns a permutation of its argument;
    - a [while] loop is a fixpoint on a fuel counter; running out of fuel
      is the outcome [OutOfFuel], which the termination theorems show
      cannot happen once the fuel exceeds an explicit bound;
    - a Python exception is the outcome [Raise]. *)

From Stdlib Require Import ZArith QArith Lia.
From stdpp Require Import gmap strings list fin_maps sorting.

Open Scope Z_scope.

(** ** Outcomes of a Python computation *)

Inductive PyExn : Type :=
  | IndexError          (* pop from empty list *)
  | ZeroDivisionError.  (* division by zero *)

Inductive Outcome (A : Type) : Type :=
  | Ok (a : A)
  | Raise (e : PyExn)
  | OutOfFuel.
Arguments Ok {A} a.
Arguments Raise {A} e.
Arguments OutOfFuel {A}.

Definition obind {A B : Type} (m : Outcome A) (k : A → Outcome B) : Outcome B :=
  match m with
  | Ok a => k a
  | Raise e => Raise e
  | OutOfFuel => OutOfFuel
  end.

#[global] Instance Outcome_bind : MBind Outcome := λ A B k m, obind m k.
#[global] Instance Outcome_ret : MRet Outcome := λ A a, Ok a.

(** ** Python list and dict primitives shared by the revisions *)

Section Primitives.
Context {A : Type}.

(** [l.pop()]: removes and returns the last element; [None] stands for
    the IndexError on an empty list. *)
Definition list_pop (l : list A) : option (A * list A) :=
  match last l with
  | Some x => Some (x, removelast l)
  | None => None
  end.

(** [[l.pop() for _ in range(n)]]: the popped elements in popping
    order, and what is left of [l]. *)
Fixpoint pop_many (n : nat) (l : list A) : Outcome (list A * list A) :=
  match n with
  | O => Ok ([], l)
  | S n' =>
      match list_pop l with
      | None => Raise IndexError
      | Some (x, l') =>
          '(popped, rest) ← pop_many n' l';
          Ok (x :: popped, rest)
      end
  end.

(** [for card in list(l): if p(card): ...; l.remove(card); break]:
    the first element satisfying [p], and [l] without it.  In Python
    [l.remove(card)] deletes the first element equal to [card]; every
    element equal (or identical) to [card] satisfies [p] as well, so
    that element is the one the scan stopped at. *)
Fixpoint extract_first (p : A → bool) (l : list A) : option (A * list A) :=
  match l with
  | [] => None
  | x :: l' =>
      if p x then Some (x, l')
      else match extract_first p l' with
           | Some (y, r) => Some (y, x :: r)
           | None => None
           end
  end.
End Primitives.

(** [played = True; while played: played = False; for ...: if ...: ...;
    played = True; break]: [pass] is one run of the [for] loop, [Some]
    when it reached the [break] and [None] when it left [played] false. *)
Fixpoint while_played {S : Type} (pass : S → option S) (fuel : nat) (s : S) : Outcome S :=
  match fuel with
  | O => OutOfFuel
  | S fuel' =>
      match pass s with
      | Some s' => while_played pass fuel' s'
      | None => Ok s
      end
  end.

(** [for color, amount in d.items(): total[color] = total.get(color, 0) + amount] *)
Definition dict_add_into (total d : gmap string Z) : gmap string Z :=
  map_fold (λ color amount total, <[color := default 0 (total !! color) + amount]> total)
           total d.

(** [d.get(key, 0)] *)
Definition dict_get0 (d : gmap string Z) (key : string) : Z := default 0 (d !! key).

(** [sum(d.values())] *)
Definition sum_values (d : gmap string Z) : Z :=
  map_fold (λ _ amount acc, acc + amount) 0 d.

(** [sum(l)] for a list of integers *)
Definition sum_list (l : list Z) : Z := foldl Z.add 0 l.

(** [Counter(results)]: how often each value occurs. *)
Definition Counter (results : list Z) : gmap Z Z :=
  foldl (λ counts t, <[t := default 0 (counts !! t) + 1]> counts) ∅ results.

(** [counts[t]] on a Counter: a missing key counts 0. *)
Definition Counter_get (counts : gmap Z Z) (t : Z) : Z := default 0 (counts !! t).

(** Truth value of what [play_until_commander] returns ([if turn_cast:]):
    [None] and [0] are false, every other integer is true. *)
Definition truthy (turn_cast : option Z) : bool :=
  match turn_cast with
  | Some t => negb (t =? 0)
  | None => false
  end.

(** [sum(results) / len(results)], Python's true division: the exact
    quotient (Python rounds it to the nearest double), ZeroDivisionError
    on an empty list. *)
Definition mean (results : list Z) : Outcome Q :=
  match results with
  | [] => Raise ZeroDivisionError
  | _ => Ok (Qmake (sum_list results) (Pos.of_nat (length results)))
  end.

(** ** CommanderRampV003.py *)

Module V003.

(** [class Card], the attributes set by [__init__]. *)
Record Card : Type := mkCard {
  name : string;
  ctype : string;               (* "land", "rock", "dork", "reducer", "filler" *)
  cost : Z;
  mana : gmap string Z;         (* e.g. {"colorless": 1}, {"green": 1} *)
  enters_tapped : bool;
  tapped : bool;
  summoning_sick : bool;
  cost_reduction : gmap string Z
}.

(** [Card.__init__(name, ctype, cost=0, mana=None, enters_tapped=False,
    summoning_sick=False, cost_reduction=None)] *)
Definition Card_init (name ctype : string) (cost : Z) (mana : option (gmap string Z))
    (enters_tapped summoning_sick : bool) (cost_reduction : option (gmap string Z)) : Card :=
  {| name := name; ctype := ctype; cost := cost;
     mana := default ∅ mana;
     enters_tapped := enters_tapped;
     tapped := false;
     summoning_sick := summoning_sick;
     cost_reduction := default ∅ cost_reduction |}.

(** [Card.can_produce_mana(turn_played, current_turn)] *)
Definition can_produce_mana (self : Card) (turn_played current_turn : Z) : bool :=
  if String.eqb (ctype self) "land" then
    negb (enters_tapped self && (turn_played =? current_turn))
  else if String.eqb (ctype self) "rock" then
    true
  else if String.eqb (ctype self) "dork" then
    current_turn >? turn_played
  else false.

(** [Card.produce_mana()] *)
Definition produce_mana (self : Card) : gmap string Z := mana self.

(** [class Game] *)
Record Game : Type := mkGame {
  turn : Z;
  deck : list Card;
  hand : list Card;
  battlefield : list (Card * Z);   (* (Card, turn_played) *)
  lands_played : Z
}.

(** [Game.draw] *)
Definition draw (self : Game) : Game :=
  match list_pop (deck self) with
  | Some (card, rest) =>
      {| turn := turn self; deck := rest; hand := hand self ++ [card];
         battlefield := battlefield self; lands_played := lands_played self |}
  | None => self
  end.

(** [Game.play_land]: the returned flag and the game afterwards. *)
Definition play_land (self : Game) : bool * Game :=
  if lands_played self =? 0 then
    match extract_first (λ card, String.eqb (ctype card) "land") (hand self) with
    | Some (card, hand') =>
        (true,
         {| turn := turn self; deck := deck self; hand := hand';
            battlefield := battlefield self ++ [(card, turn self)];
            lands_played := 1 |})
    | None => (false, self)
    end
  else (false, self).

(** [Game.available_mana], on the battlefield and turn it reads. *)
Definition mana_pool (battlefield : list (Card * Z)) (turn : Z) : gmap string Z :=
  foldl (λ total entry,
           let '(card, played_turn) := entry in
           if can_produce_mana card played_turn turn
           then dict_add_into total (produce_mana card)
           else total)
        ∅ battlefield.

Definition available_mana (self : Game) : gmap string Z :=
  mana_pool (battlefield self) (turn self).

(** [Game.can_pay_cost] *)
Definition can_pay_cost (self : Game) (cost : Z) : bool :=
  sum_values (available_mana self) >=? cost.

(** [card.ctype in ["rock", "dork", "reducer"]] *)
Definition is_permanent (card : Card) : bool :=
  String.eqb (ctype card) "rock" || String.eqb (ctype card) "dork"
  || String.eqb (ctype card) "reducer".

(** One pass of the [for] loop of [Game.play_permanents]: [Some] when a
    card was played ([played = True; break]), [None] when the pass ends
    with [played] still [False]. *)
Definition play_permanents_pass (self : Game) : option Game :=
  match extract_first (λ card, is_permanent card && can_pay_cost self (cost card))
                      (hand self) with
  | Some (card, hand') =>
      Some {| turn := turn self; deck := deck self; hand := hand';
              battlefield := battlefield self ++ [(card, turn self)];
              lands_played := lands_played self |}
  | None => None
  end.

(** [Game.play_permanents]: the [while played] loop. *)
Definition play_permanents (fuel : nat) (self : Game) : Outcome Game :=
  while_played play_permanents_pass fuel self.

(** The three steps of [Game.can_cast_commander]. *)
Definition gather_reductions (battlefield : list (Card * Z)) : gmap string Z :=
  foldl (λ reductions entry, dict_add_into reductions (cost_reduction entry.1))
        ∅ battlefield.

Definition apply_reductions (commander_cost reductions : gmap string Z) : gmap string Z :=
  map_imap (λ color amount, Some (Z.max 0 (amount - dict_get0 reductions color)))
           commander_cost.

Definition colored_ok (effective_cost mana_pool : gmap string Z) : bool :=
  forallb (λ entry : string * Z,
             negb (negb (String.eqb entry.1 "colorless")
                   && (dict_get0 mana_pool entry.1 <? entry.2)))
          (map_to_list effective_cost).

(** [Game.can_cast_commander] *)
Definition can_cast_commander (self : Game) (commander_cost : gmap string Z) : bool :=
  let reductions := gather_reductions (battlefield self) in
  let effective_cost := apply_reductions commander_cost reductions in
  let mana_pool := available_mana self in
  if colored_ok effective_cost mana_pool then
    let total_available := sum_values mana_pool in
    let total_needed := sum_values effective_cost in
    total_available >=? total_needed
  else false.

(** The body of the [while] loop of [Game.play_until_commander] up to
    the castability test. *)
Definition begin_turn (self : Game) : Game :=
  {| turn := turn self + 1; deck := deck self; hand := hand self;
     battlefield := battlefield self; lands_played := 0 |}.

Definition take_turn (fuel : nat) (self : Game) : Outcome Game :=
  play_permanents fuel (play_land (draw (begin_turn self))).2.

(** [Game.play_until_commander(commander_cost, max_turns=20)]: the
    returned value ([None] or the turn) and the game afterwards. *)
Fixpoint play_until_commander (fuel : nat) (self : Game)
    (commander_cost : gmap string Z) (max_turns : Z) : Outcome (option Z * Game) :=
  if turn self <? max_turns then
    match fuel with
    | O => OutOfFuel
    | S fuel' =>
        self' ← take_turn fuel' self;
        if can_cast_commander self' commander_cost then Ok (Some (turn self'), self')
        else play_until_commander fuel' self' commander_cost max_turns
    end
  else Ok (None, self).

Section Harness.
(** The state of the [random] module and [random.shuffle]. *)
Context {RNG : Type} (shuffle : RNG → list Card → list Card * RNG).

(** [Game.__init__(deck)]: [deck[:]] copies the template, the copy is
    shuffled, and seven cards are popped from its end. *)
Definition Game_init (deck : list Card) (rng : RNG) : Outcome (Game * RNG) :=
  let '(shuffled, rng') := shuffle rng deck in
  '(hand, rest) ← pop_many 7 shuffled;
  Ok ({| turn := 0; deck := rest; hand := hand; battlefield := [];
         lands_played := 0 |}, rng').

(** The value [turn_cast] of each iteration of the loop of
    [run_simulation], before the [if turn_cast:] filter. *)
Fixpoint trial_outcomes (fuel : nat) (deck : list Card) (commander_cost : gmap string Z)
    (trials : nat) (rng : RNG) : Outcome (list (option Z)) :=
  match trials with
  | O => Ok []
  | S trials' =>
      '(game, rng') ← Game_init deck rng;
      '(turn_cast, _) ← play_until_commander fuel game commander_cost 20;
      rest ← trial_outcomes fuel deck commander_cost trials' rng';
      Ok (turn_cast :: rest)
  end.

(** The loop of [run_simulation]: the list [results]. *)
Fixpoint collect_results (fuel : nat) (deck : list Card) (commander_cost : gmap string Z)
    (trials : nat) (rng : RNG) (results : list Z) : Outcome (list Z) :=
  match trials with
  | O => Ok results
  | S trials' =>
      '(game, rng') ← Game_init deck rng;
      '(turn_cast, _) ← play_until_commander fuel game commander_cost 20;
      collect_results fuel deck commander_cost trials' rng'
        (match turn_cast with
         | Some t => if truthy turn_cast then results ++ [t] else results
         | None => results
         end)
  end.

(** [run_simulation(deck, commander_cost, trials)]:
    [(counts, avg_turn, len(results))]. *)
Definition run_simulation (fuel : nat) (deck : list Card) (commander_cost : gmap string Z)
    (trials : Z) (rng : RNG) : Outcome (gmap Z Z * option Q * Z) :=
  results ← collect_results fuel deck commander_cost (Z.to_nat trials) rng [];
  avg_turn ← match results with
             | [] => Ok None
             | _ => q ← mean results; Ok (Some q)
             end;
  Ok (Counter results, avg_turn, Z.of_nat (length results)).
End Harness.

End V003.

(** ** CommanderRampV001.py *)

Module V001.

(** A card is a dictionary with the keys "name", "type", "cost", "mana". *)
Record Card : Type := mkCard {
  name : string;
  type : string;
  cost : Z;
  mana : gmap string Z
}.

Definition land_card : Card :=
  {| name := "Land"; type := "land"; cost := 0; mana := {["colorless" := 1]} |}.
Definition rock_card : Card :=
  {| name := "Rock"; type := "rock"; cost := 2; mana := {["colorless" := 1]} |}.
Definition filler_card : Card :=
  {| name := "Filler"; type := "filler"; cost := 0; mana := ∅ |}.

(** [build_deck(lands=36, rocks=10, fillers=54)]: [range(n)] is empty
    for [n <= 0]. *)
Definition build_deck (lands rocks fillers : Z) : list Card :=
  replicate (Z.to_nat lands) land_card
  ++ replicate (Z.to_nat rocks) rock_card
  ++ replicate (Z.to_nat fillers) filler_card.

Record Game : Type := mkGame {
  turn : Z;
  deck : list Card;
  hand : list Card;
  battlefield : list Card;
  lands_played : Z
}.

(** [Game.draw] *)
Definition draw (self : Game) : Game :=
  match list_pop (deck self) with
  | Some (card, rest) =>
      {| turn := turn self; deck := rest; hand := hand self ++ [card];
         battlefield := battlefield self; lands_played := lands_played self |}
  | None => self
  end.

(** [Game.available_mana] *)
Definition available_mana (self : Game) : Z :=
  sum_list (map (λ card, dict_get0 (mana card) "colorless") (battlefield self)).

(** [Game.play_land] *)
Definition play_land (self : Game) : bool * Game :=
  if lands_played self =? 0 then
    match extract_first (λ card, String.eqb (type card) "land") (hand self) with
    | Some (card, hand') =>
        (true,
         {| turn := turn self; deck := deck self; hand := hand';
            battlefield := battlefield self ++ [card]; lands_played := 1 |})
    | None => (false, self)
    end
  else (false, self).

(** One pass of the [for] loop of [Game.play_rocks]. *)
Definition play_rocks_pass (self : Game) : option Game :=
  match extract_first
          (λ card, String.eqb (type card) "rock" && (available_mana self >=? cost card))
          (hand self) with
  | Some (card, hand') =>
      Some {| turn := turn self; deck := deck self; hand := hand';
              battlefield := battlefield self ++ [card];
              lands_played := lands_played self |}
  | None => None
  end.

(** [Game.play_rocks]: the [while played] loop. *)
Definition play_rocks (fuel : nat) (self : Game) : Outcome Game :=
  while_played play_rocks_pass fuel self.

Definition begin_turn (self : Game) : Game :=
  {| turn := turn self + 1; deck := deck self; hand := hand self;
     battlefield := battlefield self; lands_played := 0 |}.

Definition take_turn (fuel : nat) (self : Game) : Outcome Game :=
  play_rocks fuel (play_land (draw (begin_turn self))).2.

(** [Game.play_until_commander(commander_cost=6, max_turns=20)] *)
Fixpoint play_until_commander (fuel : nat) (self : Game)
    (commander_cost max_turns : Z) : Outcome (option Z * Game) :=
  if turn self <? max_turns then
    match fuel with
    | O => OutOfFuel
    | S fuel' =>
        self' ← take_turn fuel' self;
        if available_mana self' >=? commander_cost then Ok (Some (turn self'), self')
        else play_until_commander fuel' self' commander_cost max_turns
    end
  else Ok (None, self).

Section Harness.
Context {RNG : Type} (shuffle : RNG → list Card → list Card * RNG).

(** [Game.__init__(deck)] *)
Definition Game_init (deck : list Card) (rng : RNG) : Outcome (Game * RNG) :=
  let '(shuffled, rng') := shuffle rng deck in
  '(hand, rest) ← pop_many 7 shuffled;
  Ok ({| turn := 0; deck := rest; hand := hand; battlefield := [];
         lands_played := 0 |}, rng').

(** The value [turn_cast] of each iteration of the loop of
    [run_simulation], before the [if turn_cast:] filter. *)
Fixpoint trial_outcomes (fuel : nat) (deck : list Card) (trials : nat) (rng : RNG)
    : Outcome (list (option Z)) :=
  match trials with
  | O => Ok []
  | S trials' =>
      '(game, rng') ← Game_init deck rng;
      '(turn_cast, _) ← play_until_commander fuel game 6 20;
      rest ← trial_outcomes fuel deck trials' rng';
      Ok (turn_cast :: rest)
  end.

(** The loop of [run_simulation]: the list [results]. *)
Fixpoint collect_results (fuel : nat) (deck : list Card) (trials : nat) (rng : RNG)
    (results : list Z) : Outcome (list Z) :=
  match trials with
  | O => Ok results
  | S trials' =>
      '(game, rng') ← Game_init deck rng;
      '(turn_cast, _) ← play_until_commander fuel game 6 20;
      collect_results fuel deck trials' rng'
        (match turn_cast with
         | Some t => if truthy turn_cast then results ++ [t] else results
         | None => results
         end)
  end.

(** [run_simulation(trials=10000, lands=36, rocks=10, fillers=54)]:
    [(counts, avg_turn)]; the division is not guarded. *)
Definition run_simulation (fuel : nat) (trials lands rocks fillers : Z) (rng : RNG)
    : Outcome (gmap Z Z * Q) :=
  let deck := build_deck lands rocks fillers in
  results ← collect_results fuel deck (Z.to_nat trials) rng [];
  avg_turn ← mean results;
  Ok (Counter results, avg_turn).
End Harness.

End V001.

(** ** CommanderRampV004.py *)

Module V004.

(** The classes [Card], [Land], [ConditionalLand], [ManaRock], [ManaDork]. *)
Inductive Class : Type :=
  | ClsCard | ClsLand | ClsConditionalLand | ClsManaRock | ClsManaDork.

(** [isinstance(card, Land)]: [ConditionalLand] is a subclass of [Land]. *)
Definition isinstance_Land (c : Class) : bool :=
  match c with ClsLand | ClsConditionalLand => true | _ => false end.
Definition isinstance_ManaRock (c : Class) : bool :=
  match c with ClsManaRock => true | _ => false end.
Definition isinstance_ManaDork (c : Class) : bool :=
  match c with ClsManaDork => true | _ => false end.

(** What a [condition] callable can read of a card on the battlefield. *)
Record View : Type := mkView {
  v_class : Class;
  v_name : string;
  v_produces : list string
}.

(** A card object.  An attribute its class does not have is never read;
    [summoning_sick] is the one attribute that is assigned after
    construction. *)
Record Card : Type := mkCard {
  cls : Class;
  name : string;
  produces : list string;
  enters_tapped : bool;
  condition : option (list View → bool);
  cost : Z;
  summoning_sick : bool
}.

Definition view (card : Card) : View :=
  {| v_class := cls card; v_name := name card; v_produces := produces card |}.

Definition Card_init (name : string) : Card :=
  {| cls := ClsCard; name := name; produces := []; enters_tapped := false;
     condition := None; cost := 0; summoning_sick := false |}.
Definition Land_init (name : string) (produces : list string) (enters_tapped : bool) : Card :=
  {| cls := ClsLand; name := name; produces := produces; enters_tapped := enters_tapped;
     condition := None; cost := 0; summoning_sick := false |}.
Definition ConditionalLand_init (name : string) (produces : list string)
    (condition : option (list View → bool)) : Card :=
  {| cls := ClsConditionalLand; name := name; produces := produces; enters_tapped := false;
     condition := condition; cost := 0; summoning_sick := false |}.
Definition ManaRock_init (name : string) (cost : Z) (produces : list string) : Card :=
  {| cls := ClsManaRock; name := name; produces := produces; enters_tapped := false;
     condition := None; cost := cost; summoning_sick := false |}.
Definition ManaDork_init (name : string) (cost : Z) (produces : list string) : Card :=
  {| cls := ClsManaDork; name := name; produces := produces; enters_tapped := false;
     condition := None; cost := cost; summoning_sick := true |}.

Definition set_summoning_sick (b : bool) (card : Card) : Card :=
  {| cls := cls card; name := name card; produces := produces card;
     enters_tapped := enters_tapped card; condition := condition card;
     cost := cost card; summoning_sick := b |}.

(** [has_mountain(battlefield)] *)
Definition has_mountain (battlefield : list View) : bool :=
  existsb (λ card, isinstance_Land (v_class card)
                   && bool_decide ("R" ∈ v_produces card)) battlefield.

(** [Land.play] and its override [ConditionalLand.play]: [true] when
    the land enters tapped. *)
Definition play (self : Card) (battlefield : list View) (turn : Z) : bool :=
  match cls self with
  | ClsConditionalLand =>
      match condition self with
      | Some cond => if cond battlefield then false else true
      | None => true
      end
  | _ => enters_tapped self
  end.

(** [build_deck()]: the hundred card objects, in the order they are
    created; the deck list refers to them by position. *)
Definition build_deck_objects : list Card :=
  replicate 20 (Land_init "Mountain" ["R"] false)
  ++ replicate 10 (Land_init "Swamp" ["B"] false)
  ++ replicate 5 (ConditionalLand_init "MountainCheckLand" ["R"] (Some has_mountain))
  ++ replicate 10 (ManaRock_init "Signet" 2 ["R"; "B"])
  ++ replicate 1 (ManaDork_init "Lead Myr" 1 ["B"])
  ++ replicate 54 (Card_init "Other").

(** A reference that names no object reads as a plain [Card]. *)
#[global] Instance Card_inhabited : Inhabited Card := populate (Card_init "").

(** The local variables of [simulate_game].  The objects live in a heap
    (a list, addressed by position); the deck, hand, library and
    battlefield are lists of references, so that an assignment to a
    card's attribute is seen through every list that holds the card. *)
Record Trial : Type := mkTrial {
  heap : list Card;
  hand : list nat;
  library : list nat;
  battlefield : list nat;
  mana_sources : list nat;
  turn : Z
}.

Definition class_at (heap : list Card) (r : nat) : Class := cls (heap !!! r).

(** "Draw" and "Play a land if possible". *)
Definition draw (s : Trial) : Trial :=
  match library s with
  | card :: rest =>
      {| heap := heap s; hand := hand s ++ [card]; library := rest;
         battlefield := battlefield s; mana_sources := mana_sources s; turn := turn s |}
  | [] => s
  end.

Definition play_land (s : Trial) : Trial :=
  match extract_first (λ r, isinstance_Land (class_at (heap s) r)) (hand s) with
  | Some (card, hand') =>
      let tapped := play (heap s !!! card)
                         (map (λ r, view (heap s !!! r)) (battlefield s)) (turn s) in
      {| heap := heap s; hand := hand'; library := library s;
         battlefield := battlefield s ++ [card];
         mana_sources := if tapped then mana_sources s else mana_sources s ++ [card];
         turn := turn s |}
  | None => s
  end.

(** One pass of the [for] loop inside [while playable]: the first card
    of the hand that is an affordable ManaRock or ManaDork is cast. *)
Definition castable (heap : list Card) (mana_available : Z) (r : nat) : bool :=
  (isinstance_ManaRock (class_at heap r) && (mana_available >=? cost (heap !!! r)))
  || (isinstance_ManaDork (class_at heap r) && (mana_available >=? cost (heap !!! r))).

Definition cast_pass (state : Trial * Z) : option (Trial * Z) :=
  let '(s, mana_available) := state in
  match extract_first (castable (heap s) mana_available) (hand s) with
  | Some (card, hand') =>
      if isinstance_ManaRock (class_at (heap s) card) then
        Some ({| heap := heap s; hand := hand'; library := library s;
                 battlefield := battlefield s ++ [card];
                 mana_sources := mana_sources s ++ [card]; turn := turn s |},
              mana_available - cost (heap s !!! card))
      else
        Some ({| heap := alter (set_summoning_sick true) card (heap s);
                 hand := hand'; library := library s;
                 battlefield := battlefield s ++ [card];
                 mana_sources := mana_sources s; turn := turn s |},
              mana_available - cost (heap s !!! card))
  | None => None
  end.

(** "Cast mana rocks/dorks if possible": the [while playable] loop, on
    the trial and the local [mana_available]. *)
Definition cast_loop (fuel : nat) (s : Trial) (mana_available : Z) : Outcome Trial :=
  '(s', _) ← while_played cast_pass fuel (s, mana_available);
  Ok s'.

(** "Calculate total mana" *)
Definition total_mana (s : Trial) : Z :=
  Z.of_nat (length (filter (λ r, isinstance_Land (class_at (heap s) r) = true)
                           (battlefield s)))
  + Z.of_nat (length (filter (λ r, isinstance_ManaRock (class_at (heap s) r) = true)
                             (battlefield s)))
  + Z.of_nat (length (filter (λ r, isinstance_ManaDork (class_at (heap s) r)
                                   && negb (summoning_sick (heap s !!! r)) = true)
                             (battlefield s))).

(** "Remove summoning sickness" *)
Definition remove_summoning_sickness (s : Trial) : Trial :=
  {| heap := foldl (λ h r, if isinstance_ManaDork (class_at h r)
                           then alter (set_summoning_sick false) r h else h)
                   (heap s) (battlefield s);
     hand := hand s; library := library s; battlefield := battlefield s;
     mana_sources := mana_sources s; turn := turn s |}.

Definition begin_turn (s : Trial) : Trial :=
  {| heap := heap s; hand := hand s; library := library s;
     battlefield := battlefield s; mana_sources := mana_sources s;
     turn := turn s + 1 |}.

(** The [while turn < max_turns] loop of [simulate_game]; the mana
    counted on the turn that ends the loop is returned with the turn. *)
Fixpoint turn_loop (fuel : nat) (s : Trial) (commander_cost max_turns : Z)
    : Outcome (option Z * Trial) :=
  if turn s <? max_turns then
    match fuel with
    | O => OutOfFuel
    | S fuel' =>
        let s1 := play_land (draw (begin_turn s)) in
        s2 ← cast_loop fuel' s1 (Z.of_nat (length (mana_sources s1)));
        let total := total_mana s2 in
        let s3 := remove_summoning_sickness s2 in
        if total >=? commander_cost then Ok (Some (turn s3), s3)
        else turn_loop fuel' s3 commander_cost max_turns
    end
  else Ok (None, s).

Section Harness.
Context {RNG : Type} (shuffle : RNG → list nat → list nat * RNG).

(** [simulate_game(deck, commander_cost=6, max_turns=15)].  The
    argument [deck] is the caller's list object and [random.shuffle]
    permutes it in place, so the list and the heap as they are after
    the call are returned with the result. *)
Definition simulate_game (fuel : nat) (heap : list Card) (deck : list nat)
    (commander_cost max_turns : Z) (rng : RNG)
    : Outcome (option Z * list nat * list Card * RNG) :=
  let '(deck', rng') := shuffle rng deck in
  let s := {| heap := heap; hand := take 7 deck'; library := drop 7 deck';
              battlefield := []; mana_sources := []; turn := 0 |} in
  '(result, s') ← turn_loop fuel s commander_cost max_turns;
  Ok (result, deck', V004.heap s', rng').

(** The loop of [run_simulations] on the deck list it shares with
    every trial: the list [results], and the deck and heap after the
    last trial. *)
Fixpoint run_trials (fuel : nat) (heap : list Card) (deck : list nat) (trials : nat)
    (rng : RNG) (results : list Z) : Outcome (list Z * list nat * list Card) :=
  match trials with
  | O => Ok (results, deck, heap)
  | S trials' =>
      '(turn, deck', heap', rng') ← simulate_game fuel heap deck 6 15 rng;
      run_trials fuel heap' deck' trials' rng'
        (match turn with Some t => results ++ [t] | None => results end)
  end.

(** [run_simulations(trials)] up to the distribution it prints. *)
Definition run_simulations (fuel : nat) (trials : Z) (rng : RNG)
    : Outcome (gmap Z Z * list nat * list Card) :=
  let heap := build_deck_objects in
  let deck := seq 0 (length heap) in
  '(results, deck', heap') ← run_trials fuel heap deck (Z.to_nat trials) rng [];
  Ok (Counter results, deck', heap').
End Harness.

End V004.

(** ** Concrete shuffles, used to run the simulators on examples *)

(** The generator that leaves every list in order, and the one that
    reverses it: two of the permutations [random.shuffle] can produce. *)
Definition shuffle_id {A : Type} (rng : unit) (l : list A) : list A * unit := (l, rng).
Definition shuffle_rev {A : Type} (rng : unit) (l : list A) : list A * unit := (reverse l, rng).

(** ** Vocabulary of the specification

    The definitions of this module follow the words of the specification;
    the theorems compare them with the embedded code. *)

Module Spec.

(** [sum(f(x) for x in l)] *)
Definition total_of {A : Type} (f : A → Z) (l : list A) : Z :=
  foldr (λ x acc, f x + acc) 0 l.

(** Data model: "cost-reduction: mapping from color-symbol to amount,
    non-empty only for CostReducer". *)
Definition reducers_only (battlefield : list (V003.Card * Z)) : Prop :=
  Forall (λ entry, V003.ctype entry.1 ≠ "reducer" → V003.cost_reduction entry.1 = ∅)
         battlefield.

(** (a) the aggregate reduction of a colour: the sum of the
    cost-reduction mappings of the battlefield CostReducers. *)
Definition reduction (battlefield : list (V003.Card * Z)) (color : string) : Z :=
  total_of (λ entry, dict_get0 (V003.cost_reduction entry.1) color)
           (filter (λ entry, V003.ctype entry.1 = "reducer") battlefield).

(** (b) effective cost = for each color in commanderCost,
    max(0, commanderCost[color] − reduction[color]). *)
Definition effective_cost (commander_cost : gmap string Z)
    (battlefield : list (V003.Card * Z)) : gmap string Z :=
  map_imap (λ color amount, Some (Z.max 0 (amount - reduction battlefield color)))
           commander_cost.

(** (c) and (d). *)
Definition canCastCommander (self : V003.Game) (commander_cost : gmap string Z) : Prop :=
  let effective := effective_cost commander_cost (V003.battlefield self) in
  (∀ color need, effective !! color = Some need → color ≠ "colorless" →
                 need ≤ dict_get0 (V003.available_mana self) color)
  ∧ sum_values effective ≤ sum_values (V003.available_mana self).

(** The battlefield permanents for which canProduceMana is true on
    [turn]. *)
Definition producers (battlefield : list (V003.Card * Z)) (turn : Z) : list (V003.Card * Z) :=
  filter (λ entry, V003.can_produce_mana entry.1 entry.2 turn = true) battlefield.

(** Library ∪ Hand ∪ Battlefield of a trial. *)
Definition zones (self : V003.Game) : list V003.Card :=
  V003.deck self ++ V003.hand self ++ map fst (V003.battlefield self).

(** The states of a trial at its turn boundaries: the state the trial
    starts in, and the state after each completed turn. *)
Inductive turn_boundary (start : V003.Game) : V003.Game → Prop :=
  | boundary_start : turn_boundary start start
  | boundary_next (fuel : nat) (self self' : V003.Game) :
      turn_boundary start self →
      V003.take_turn fuel self = Ok self' →
      turn_boundary start self'.

(** Scenario A: a Land that produces 1 colorless and enters untapped. *)
Definition basic_land (card : V003.Card) : Prop :=
  V003.ctype card = "land"
  ∧ V003.mana card = {["colorless" := 1]}
  ∧ V003.enters_tapped card = false
  ∧ V003.cost_reduction card = ∅.

(** The successful trials: the turn numbers of the results that are not
    [None], in trial order. *)
Definition successes (outcomes : list (option Z)) : list Z := omap id outcomes.

(** What the harness's [if turn_cast:] keeps of the results. *)
Definition kept (outcomes : list (option Z)) : list Z :=
  omap (λ turn_cast, if truthy turn_cast then turn_cast else None) outcomes.

(** A trial result as the engine may return it under [max_turns]. *)
Definition in_range (max_turns : Z) (result : option Z) : Prop :=
  match result with
  | Some t => 1 ≤ t ≤ max_turns
  | None => True
  end.

(** Scenario A after [k] turns: every card is such a land, [k] of them
    are in play, and the hand still holds a land for each turn up to the
    seventh. *)
Definition lands_in_play (k : nat) (self : V003.Game) : Prop :=
  Forall basic_land (V003.deck self)
  ∧ Forall basic_land (V003.hand self)
  ∧ Forall (λ entry, basic_land entry.1) (V003.battlefield self)
  ∧ length (V003.battlefield self) = k
  ∧ V003.turn self = Z.of_nat k
  ∧ (7 ≤ k + length (V003.hand self))%nat.

(** Scenario B: every card is such a land and at most one has been
    played per turn. *)
Definition lands_only (self : V003.Game) : Prop :=
  Forall basic_land (V003.deck self)
  ∧ Forall basic_land (V003.hand self)
  ∧ Forall (λ entry, basic_land entry.1) (V003.battlefield self)
  ∧ Z.of_nat (length (V003.battlefield self)) ≤ V003.turn self.

(** A shuffle returns a permutation of its argument. *)
Definition permutes {RNG A : Type} (shuffle : RNG → list A → list A * RNG) : Prop :=
  ∀ rng l, (shuffle rng l).1 ≡ₚ l.

End Spec.

(** ** Example decks

    The cards of the example run at the end of CommanderRampV003.py, in a
    deck of twelve. *)

Module Example.

Definition swamp : V003.Card :=
  V003.Card_init "Swamp" "land" 0 (Some {["black" := 1]}) false false None.
Definition mountain : V003.Card :=
  V003.Card_init "Mountain" "land" 0 (Some {["red" := 1]}) false false None.
Definition temple : V003.Card :=
  V003.Card_init "Temple" "land" 0 (Some {["black" := 1]}) true false None.
Definition wastes : V003.Card :=
  V003.Card_init "Wastes" "land" 0 (Some {["colorless" := 1]}) false false None.
Definition mind_stone : V003.Card :=
  V003.Card_init "Mind Stone" "rock" 2 (Some {["colorless" := 1]}) false false None.
Definition llanowar_elves : V003.Card :=
  V003.Card_init "Llanowar Elves" "dork" 1 (Some {["green" := 1]}) false true None.
Definition jet_medallion : V003.Card :=
  V003.Card_init "Jet Medallion" "reducer" 2 None false false (Some {["black" := 1]}).
Definition filler : V003.Card :=
  V003.Card_init "Filler" "filler" 0 None false false None.

Definition commander_cost : gmap string Z :=
  {["colorless" := 4; "black" := 1; "red" := 1]}.

Definition deck : list V003.Card :=
  [filler; mind_stone; swamp; llanowar_elves; mountain; jet_medallion;
   temple; swamp; mountain; filler; mind_stone; mountain].

(** A game on its third turn: two lands, a reducer and a dork in play. *)
Definition midgame : V003.Game :=
  {| V003.turn := 3;
     V003.deck := [filler; mind_stone];
     V003.hand := [mountain; filler; mind_stone];
     V003.battlefield := [(swamp, 1); (mountain, 2); (jet_medallion, 2);
                          (temple, 3); (llanowar_elves, 3)];
     V003.lands_played := 1 |}.

(** The game [Game(deck)] builds when the shuffle reverses the deck: the
    hand is the first seven cards and the library is drawn in the order
    the deck lists them. *)
Definition opening : V003.Game :=
  {| V003.turn := 0;
     V003.deck := [mountain; mind_stone; filler; mountain; swamp];
     V003.hand := [filler; mind_stone; swamp; llanowar_elves; mountain; jet_medallion;
                   temple];
     V003.battlefield := [];
     V003.lands_played := 0 |}.

(** Scenario A: a hundred lands that tap for one colourless mana. *)
Definition lands100 : list V003.Card := replicate 100 wastes.

(** The same scenario in V001, before the first turn and on the turn of
    the cast. *)
Definition opening_V001 : V001.Game :=
  {| V001.turn := 0;
     V001.deck := replicate 93 V001.land_card;
     V001.hand := replicate 7 V001.land_card;
     V001.battlefield := [];
     V001.lands_played := 0 |}.
Definition turn6_V001 : V001.Game :=
  {| V001.turn := 6;
     V001.deck := replicate 87 V001.land_card;
     V001.hand := replicate 7 V001.land_card;
     V001.battlefield := replicate 6 V001.land_card;
     V001.lands_played := 1 |}.
Definition six_colorless : gmap string Z := {["colorless" := 6]}.

(** V004: a one-card deck whose land enters tapped, and a three-card
    deck with a land, a mana dork and a filler; the deck lists refer to
    the objects by position. *)
Definition temple_heap : list V004.Card := [V004.Land_init "Temple" ["B"] true].
Definition temple_deck : list nat := [0%nat].

Definition myr_heap : list V004.Card :=
  [V004.Land_init "Mountain" ["R"] false; V004.ManaDork_init "Lead Myr" 1 ["B"];
   V004.Card_init "Other"].
Definition myr_deck : list nat := [0; 1; 2]%nat.

(** The first turn of the one-card deck, after the land drop. *)
Definition temple_turn1 : V004.Trial :=
  V004.play_land (V004.draw (V004.begin_turn
    {| V004.heap := temple_heap; V004.hand := take 7 temple_deck;
       V004.library := drop 7 temple_deck; V004.battlefield := [];
       V004.mana_sources := []; V004.turn := 0 |})).

End Example.

(** ** Further code of the repository *)

(** [sum(distribution.values())] on a Counter. *)
Definition sum_counts (counts : gmap Z Z) : Z :=
  map_fold (λ _ count acc, acc + count) 0 counts.

(** [100 * count / total], Python's true division: the exact quotient
    (Python rounds it to the nearest double), ZeroDivisionError when
    [total] is 0. *)
Definition percent (count total : Z) : Outcome Q :=
  if total =? 0 then Raise ZeroDivisionError
  else Ok (inject_Z (100 * count) / inject_Z total)%Q.

(** [a <= b] on pairs of integers, Python's order on tuples. *)
Definition tuple_le (a b : Z * Z) : Prop := a.1 < b.1 ∨ (a.1 = b.1 ∧ a.2 ≤ b.2).

#[global] Instance tuple_le_dec (a b : Z * Z) : Decision (tuple_le a b) :=
  decide (a.1 < b.1 ∨ (a.1 = b.1 ∧ a.2 ≤ b.2)).

(** [sorted(distribution.items())]; the keys of a dictionary being
    distinct, these are also the turns of [sorted(counts.keys())], each
    with [counts[turn]]. *)
Definition sorted_items (distribution : gmap Z Z) : list (Z * Z) :=
  merge_sort tuple_le (map_to_list distribution).

(** [for turn, count in items: percent = 100 * count / total]; each
    line is the turn, its count and its percentage. *)
Fixpoint percentages (items : list (Z * Z)) (total : Z) : Outcome (list (Z * Z * Q)) :=
  match items with
  | [] => Ok []
  | (turn, count) :: rest =>
      pct ← percent count total;
      lines ← percentages rest total;
      Ok ((turn, count, pct) :: lines)
  end.

(** *** CommanderRampV002.py

    [build_deck] and the class [Game] of this file are those of
    CommanderRampV001.py line for line (comments apart);
    [run_simulation] has no default arguments and returns
    [len(results)] as a third component, which [show_results] divides
    by. *)

Module V002.

(** [show_results(counts, avg_turn, total_games)]: the lines it prints,
    which are also the bars ([values]) and the points ([percentages])
    of its plot.  [avg_turn] is only formatted. *)
Definition show_results (counts : gmap Z Z) (total_games : Z) : Outcome (list (Z * Z * Q)) :=
  percentages (sorted_items counts) total_games.

Section Harness.
Context {RNG : Type} (shuffle : RNG → list V001.Card → list V001.Card * RNG).

(** [run_simulation(trials, lands, rocks, fillers)]:
    [(counts, avg_turn, len(results))]. *)
Definition run_simulation (fuel : nat) (trials lands rocks fillers : Z) (rng : RNG)
    : Outcome (gmap Z Z * Q * Z) :=
  let deck := V001.build_deck lands rocks fillers in
  results ← V001.collect_results shuffle fuel deck (Z.to_nat trials) rng [];
  avg_turn ← mean results;
  Ok (Counter results, avg_turn, Z.of_nat (length results)).

End Harness.
End V002.

(** *** CommanderRampV003.py: [show_results] *)

Module V003_report.

(** What [show_results] can raise: the division by [total_games], and
    the format [{avg_turn:.2f}], which [None] does not support. *)
Inductive ShowError : Type :=
  | ShowZeroDivisionError
  | ShowTypeError.

(** [show_results(counts, avg_turn, total_games)]: the lines of the
    loop, then the average as it is formatted.  The lines are also the
    bars and the points of the plot. *)
Definition show_results (counts : gmap Z Z) (avg_turn : option Q) (total_games : Z)
    : ShowError + (list (Z * Z * Q) * Q) :=
  match percentages (sorted_items counts) total_games with
  | Ok lines =>
      match avg_turn with
      | Some avg => inr (lines, avg)
      | None => inl ShowTypeError
      end
  | Raise _ | OutOfFuel => inl ShowZeroDivisionError
  end.
End V003_report.

(** *** CommanderRampV004.py: what [run_simulations] prints *)

Module V004_report.
Section Harness.
Context {RNG : Type} (shuffle : RNG → list nat → list nat * RNG).

(** [run_simulations(trials)] from [total = sum(distribution.values())]
    on: the lines it prints, one for each turn of the distribution in
    increasing order with its count and its percentage of [total].  The
    lists [counts] and [percents] of the plot hold the same numbers. *)
Definition run_simulations (fuel : nat) (trials : Z) (rng : RNG)
    : Outcome (list (Z * Z * Q)) :=
  '(distribution, _, _) ← V004.run_simulations shuffle fuel trials rng;
  percentages (sorted_items distribution) (sum_counts distribution).
End Harness.
End V004_report.

(** *** What a trial keeps of the card objects and of the battlefield (V004) *)

(** The one difference a trial can make to a card object: the
    [summoning_sick] flag of a ManaDork. *)
Definition up_to_sickness (c c' : V004.Card) : Prop :=
  c' = c
  ∨ (V004.isinstance_ManaDork (V004.cls c) = true
     ∧ ∃ b, c' = V004.set_summoning_sick b c).

(** The battlefield of a trial, the classes read in the heap [h]: the
    mana sources are lands and rocks of the battlefield, in its order;
    no plain card is in play; the lands in play do not outnumber the
    turns. *)
Definition board_ok (h : list V004.Card) (s : V004.Trial) : Prop :=
  sublist (V004.mana_sources s) (V004.battlefield s)
  ∧ Forall (λ r, V004.isinstance_Land (V004.class_at h r)
                 || V004.isinstance_ManaRock (V004.class_at h r) = true)
           (V004.mana_sources s)
  ∧ Forall (λ r, V004.class_at h r ≠ V004.ClsCard) (V004.battlefield s)
  ∧ Z.of_nat (length (filter (λ r, V004.isinstance_Land (V004.class_at h r) = true)
                             (V004.battlefield s)))
    ≤ V004.turn s.

(** ** Facts about the Python primitives *)

Section PrimitiveFacts.
Context {A : Type}.
Implicit Types (l r : list A) (x : A) (p : A → bool).

Lemma list_pop_Some l x r : list_pop l = Some (x, r) → l = r ++ [x].
Proof.
  unfold list_pop. destruct (last l) as [y|] eqn:Hlast; [|discriminate].
  intros [= <- <-]. apply last_Some in Hlast as [l' ->].
  by rewrite removelast_last.
Qed.

Lemma list_pop_None l : list_pop l = None ↔ l = [].
Proof.
  unfold list_pop. destruct (last l) as [y|] eqn:Hlast.
  - split; [discriminate|]. intros ->. discriminate.
  - apply last_None in Hlast. by subst.
Qed.

Lemma list_pop_snoc l x : list_pop (l ++ [x]) = Some (x, l).
Proof. unfold list_pop. by rewrite last_snoc, removelast_last. Qed.

(** Popping [n] elements succeeds exactly on a list of at least [n]
    elements, and splits it. *)
Lemma pop_many_Ok n l popped rest :
  pop_many n l = Ok (popped, rest) →
  l = rest ++ reverse popped ∧ length popped = n.
Proof.
  revert l popped rest. induction n as [|n IH]; intros l popped rest; simpl.
  - intros [= <- <-]. by rewrite app_nil_r.
  - destruct (list_pop l) as [[x l']|] eqn:Hpop; [|discriminate].
    apply list_pop_Some in Hpop as ->.
    destruct (pop_many n l') as [[popped' rest']| |] eqn:Hrec; simpl; try discriminate.
    intros [= <- <-]. destruct (IH _ _ _ Hrec) as [-> <-].
    split; [|done]. by rewrite reverse_cons, app_assoc.
Qed.

Lemma pop_many_enough n l :
  (n ≤ length l)%nat → ∃ popped rest, pop_many n l = Ok (popped, rest).
Proof.
  revert l. induction n as [|n IH]; intros l Hlen; simpl; [by eauto|].
  destruct (list_pop l) as [[x l']|] eqn:Hpop.
  - apply list_pop_Some in Hpop as ->. rewrite length_app in Hlen. simpl in Hlen.
    destruct (IH l') as (popped & rest & ->); [lia|]. simpl. eauto.
  - apply list_pop_None in Hpop as ->. simpl in Hlen. lia.
Qed.

Lemma pop_many_S n l :
  pop_many (S n) l
  = match list_pop l with
    | None => Raise IndexError
    | Some (x, l') => '(popped, rest) ← pop_many n l'; Ok (x :: popped, rest)
    end.
Proof. reflexivity. Qed.

Lemma pop_many_short n l :
  (length l < n)%nat → pop_many n l = Raise IndexError.
Proof.
  revert l. induction n as [|n IH]; intros l Hlen; simpl; [lia|].
  destruct (list_pop l) as [[x l']|] eqn:Hpop; [|done].
  apply list_pop_Some in Hpop as ->. rewrite length_app in Hlen. simpl in Hlen.
  rewrite IH; [done|lia].
Qed.

Lemma extract_first_Some p l x r :
  extract_first p l = Some (x, r) →
  p x = true ∧ l ≡ₚ x :: r ∧ length l = S (length r).
Proof.
  revert x r. induction l as [|y l IH]; intros x r; simpl; [discriminate|].
  destruct (p y) eqn:Hp.
  - intros [= <- <-]. done.
  - destruct (extract_first p l) as [[z r']|]; [|discriminate].
    intros [= <- <-]. destruct (IH _ _ eq_refl) as (Hpz & Hperm & Hlen).
    split_and!; [done| |simpl; lia].
    rewrite Hperm. apply Permutation_swap.
Qed.

Lemma extract_first_None p l :
  extract_first p l = None ↔ Forall (λ x, p x = false) l.
Proof.
  induction l as [|y l IH]; simpl; [by split|].
  destruct (p y) eqn:Hp.
  - split; [discriminate|]. intros Hall. apply Forall_cons in Hall as [Hy _]. congruence.
  - destruct (extract_first p l) as [[z r']|].
    + split; [discriminate|]. intros Hall. apply Forall_cons in Hall as [_ Hl].
      apply IH in Hl. discriminate.
    + split; [|done]. intros _. constructor; [done|]. by apply IH.
Qed.

(** The scan stops at the first element that satisfies [p]. *)
Lemma extract_first_is_first p l x r :
  extract_first p l = Some (x, r) →
  ∃ l1 l2, l = l1 ++ x :: l2 ∧ r = l1 ++ l2 ∧ Forall (λ y, p y = false) l1.
Proof.
  revert x r. induction l as [|y l IH]; intros x r; simpl; [discriminate|].
  destruct (p y) eqn:Hp.
  - intros [= <- <-]. by exists [], l.
  - destruct (extract_first p l) as [[z r']|]; [|discriminate].
    intros [= <- <-]. destruct (IH _ _ eq_refl) as (l1 & l2 & -> & -> & Hall).
    exists (y :: l1), l2. split_and!; [done|done|by constructor].
Qed.
End PrimitiveFacts.

Arguments pop_many {A} n l : simpl never.

Lemma dict_add_into_lookup (total d : gmap string Z) (color : string) :
  dict_add_into total d !! color =
    match d !! color with
    | Some amount => Some (dict_get0 total color + amount)
    | None => total !! color
    end.
Proof.
  unfold dict_add_into.
  apply (map_fold_weak_ind
           (λ acc (m : gmap string Z),
              acc !! color = match m !! color with
                             | Some amount => Some (dict_get0 total color + amount)
                             | None => total !! color
                             end)).
  - by rewrite lookup_empty.
  - intros k v m acc Hfresh IH. destruct (decide (k = color)) as [->|Hne].
    + rewrite !lookup_insert_eq. rewrite Hfresh in IH.
      unfold dict_get0. by rewrite IH.
    + by rewrite !lookup_insert_ne.
Qed.

Lemma dict_add_into_get0 (total d : gmap string Z) (color : string) :
  dict_get0 (dict_add_into total d) color = dict_get0 total color + dict_get0 d color.
Proof.
  unfold dict_get0 at 1. rewrite dict_add_into_lookup. unfold dict_get0.
  destruct (d !! color); simpl; lia.
Qed.

Lemma dict_add_into_empty (total : gmap string Z) : dict_add_into total ∅ = total.
Proof. unfold dict_add_into. by rewrite map_fold_empty. Qed.

Lemma sum_values_empty : sum_values ∅ = 0.
Proof. unfold sum_values. by rewrite map_fold_empty. Qed.

Lemma sum_values_insert (d : gmap string Z) (color : string) (amount : Z) :
  d !! color = None → sum_values (<[color := amount]> d) = sum_values d + amount.
Proof.
  intros Hfresh. unfold sum_values.
  rewrite map_fold_insert_L; [done| |done]. intros. lia.
Qed.

Lemma sum_values_singleton (color : string) (amount : Z) :
  sum_values {[color := amount]} = amount.
Proof.
  rewrite <- insert_empty, sum_values_insert, sum_values_empty; [lia|apply lookup_empty].
Qed.

Lemma sum_list_from (acc : Z) (l : list Z) : foldl Z.add acc l = acc + sum_list l.
Proof.
  unfold sum_list. revert acc. induction l as [|x l IH]; intros acc; simpl; [lia|].
  rewrite (IH (acc + x)), (IH (0 + x)). lia.
Qed.

Lemma sum_list_cons (x : Z) (l : list Z) : sum_list (x :: l) = x + sum_list l.
Proof. unfold sum_list at 1. simpl. by rewrite sum_list_from. Qed.

Lemma sum_list_app (l1 l2 : list Z) : sum_list (l1 ++ l2) = sum_list l1 + sum_list l2.
Proof.
  induction l1 as [|x l1 IH]; simpl; [done|]. rewrite !sum_list_cons, IH. lia.
Qed.

Lemma total_of_zero {A : Type} (f : A → Z) (l : list A) :
  Forall (λ x, f x = 0) l → Spec.total_of f l = 0.
Proof.
  induction 1 as [|x l Hx _ IH]; [done|]. unfold Spec.total_of in *. simpl. lia.
Qed.

Lemma total_of_app {A : Type} (f : A → Z) (l1 l2 : list A) :
  Spec.total_of f (l1 ++ l2) = Spec.total_of f l1 + Spec.total_of f l2.
Proof.
  induction l1 as [|x l1 IH]; [done|]. unfold Spec.total_of in *. simpl. rewrite IH. lia.
Qed.

(** [Counter] counts occurrences. *)
Lemma Counter_get_from (counts : gmap Z Z) (results : list Z) (t : Z) :
  Counter_get (foldl (λ counts t, <[t := default 0 (counts !! t) + 1]> counts)
                     counts results) t
  = Counter_get counts t + Z.of_nat (length (filter (λ u, u = t) results)).
Proof.
  revert counts. induction results as [|u results IH]; intros counts; simpl; [lia|].
  rewrite IH. unfold Counter_get at 1. rewrite filter_cons.
  destruct (decide (u = t)) as [->|Hne].
  - rewrite lookup_insert_eq. unfold Counter_get. simpl. lia.
  - rewrite lookup_insert_ne by done. unfold Counter_get. lia.
Qed.

Lemma Counter_get_count (results : list Z) (t : Z) :
  Counter_get (Counter results) t = Z.of_nat (length (filter (λ u, u = t) results)).
Proof. unfold Counter. rewrite Counter_get_from. unfold Counter_get. by rewrite lookup_empty. Qed.

Lemma Counter_get_replicate (n : nat) (u t : Z) :
  Counter_get (Counter (replicate n u)) t = if decide (t = u) then Z.of_nat n else 0.
Proof.
  rewrite Counter_get_count. induction n as [|n IH]; simpl.
  - by destruct (decide (t = u)).
  - rewrite filter_cons. destruct (decide (u = t)) as [->|Hne].
    + rewrite decide_True in * by done. simpl. lia.
    + rewrite decide_False in * by done. done.
Qed.

(** ** The permanent model of V003 *)

Section V003_mana.
Import V003.

Lemma mana_pool_from (acc : gmap string Z) (bf : list (Card * Z)) (now : Z) (color : string) :
  dict_get0
    (foldl (λ total entry,
              let '(card, played_turn) := entry in
              if can_produce_mana card played_turn now
              then dict_add_into total (produce_mana card) else total) acc bf) color
  = dict_get0 acc color
    + Spec.total_of (λ entry, dict_get0 (produce_mana entry.1) color) (Spec.producers bf now).
Proof.
  revert acc. induction bf as [|[card played] bf IH]; intros acc; simpl.
  - unfold Spec.total_of. simpl. lia.
  - rewrite IH. unfold Spec.producers. rewrite filter_cons. simpl.
    destruct (can_produce_mana card played now) eqn:Hcan.
    + rewrite decide_True by done. rewrite dict_add_into_get0.
      unfold Spec.total_of. simpl. lia.
    + rewrite decide_False by (by intros ?). done.
Qed.

(** [available_mana] holds, for every colour, the sum of what the
    producing permanents produce of it. *)
Lemma mana_pool_get0 (bf : list (Card * Z)) (now : Z) (color : string) :
  dict_get0 (mana_pool bf now) color
  = Spec.total_of (λ entry, dict_get0 (produce_mana entry.1) color) (Spec.producers bf now).
Proof.
  unfold mana_pool. rewrite mana_pool_from. unfold dict_get0 at 1.
  by rewrite lookup_empty.
Qed.

(** A permanent that cannot produce mana this turn leaves the pool as
    it is without it. *)
Lemma mana_pool_app (bf1 bf2 : list (Card * Z)) (now : Z) :
  mana_pool (bf1 ++ bf2) now
  = foldl (λ total entry,
             let '(card, played_turn) := entry in
             if can_produce_mana card played_turn now
             then dict_add_into total (produce_mana card) else total)
          (mana_pool bf1 now) bf2.
Proof. unfold mana_pool. by rewrite foldl_app. Qed.

Lemma mana_pool_skip (bf1 bf2 : list (Card * Z)) (card : Card) (played now : Z) :
  can_produce_mana card played now = false →
  mana_pool (bf1 ++ (card, played) :: bf2) now = mana_pool (bf1 ++ bf2) now.
Proof. intros Hcan. rewrite !mana_pool_app. simpl. by rewrite Hcan. Qed.

Lemma mana_pool_snoc (bf : list (Card * Z)) (card : Card) (played now : Z) :
  mana_pool (bf ++ [(card, played)]) now
  = if can_produce_mana card played now
    then dict_add_into (mana_pool bf now) (produce_mana card)
    else mana_pool bf now.
Proof. by rewrite mana_pool_app. Qed.
End V003_mana.

(** C2: [can_produce_mana] is false for a land exactly when it enters
    tapped and was played this turn, true for a rock whatever the turns,
    true for a dork exactly when the current turn is later than the turn
    it was played, and false for reducers and fillers. *)
Theorem C2_can_produce_mana (card : V003.Card) (turn_played current_turn : Z) :
  (V003.ctype card = "land" →
     (V003.can_produce_mana card turn_played current_turn = false
      ↔ V003.enters_tapped card = true ∧ turn_played = current_turn))
  ∧ (V003.ctype card = "rock" →
     V003.can_produce_mana card turn_played current_turn = true)
  ∧ (V003.ctype card = "dork" →
     (V003.can_produce_mana card turn_played current_turn = true
      ↔ current_turn > turn_played))
  ∧ (V003.ctype card = "reducer" ∨ V003.ctype card = "filler" →
     V003.can_produce_mana card turn_played current_turn = false).
Proof.
  unfold V003.can_produce_mana. split_and!.
  - intros ->. simpl. rewrite negb_false_iff, andb_true_iff, Z.eqb_eq. done.
  - intros ->. reflexivity.
  - intros ->. simpl. rewrite Z.gtb_gt. done.
  - intros [-> | ->]; reflexivity.
Qed.

(** ** The affordability evaluator of V003 *)

Section V003_affordability.
Import V003.

Lemma gather_reductions_from (acc : gmap string Z) (bf : list (Card * Z)) (color : string) :
  dict_get0 (foldl (λ reductions entry, dict_add_into reductions (cost_reduction entry.1))
                   acc bf) color
  = dict_get0 acc color
    + Spec.total_of (λ entry, dict_get0 (cost_reduction entry.1) color) bf.
Proof.
  revert acc. induction bf as [|entry bf IH]; intros acc; simpl.
  - unfold Spec.total_of. simpl. lia.
  - rewrite IH, dict_add_into_get0. unfold Spec.total_of. simpl. lia.
Qed.

(** The code adds up the [cost_reduction] of every battlefield card. *)
Lemma gather_reductions_get0 (bf : list (Card * Z)) (color : string) :
  dict_get0 (gather_reductions bf) color
  = Spec.total_of (λ entry, dict_get0 (cost_reduction entry.1) color) bf.
Proof.
  unfold gather_reductions. rewrite gather_reductions_from.
  unfold dict_get0 at 1. by rewrite lookup_empty.
Qed.

(** On a battlefield of the data model only the reducers count. *)
Lemma gather_reductions_reducers (bf : list (Card * Z)) (color : string) :
  Spec.reducers_only bf →
  dict_get0 (gather_reductions bf) color = Spec.reduction bf color.
Proof.
  intros Hwf. rewrite gather_reductions_get0. unfold Spec.reduction.
  induction Hwf as [|entry bf Hentry _ IH]; [done|].
  rewrite filter_cons. destruct (decide (ctype entry.1 = "reducer")) as [Hred|Hne].
  - unfold Spec.total_of in *. simpl. by rewrite IH.
  - unfold Spec.total_of in *. simpl. rewrite IH, (Hentry Hne).
    unfold dict_get0. by rewrite lookup_empty.
Qed.

Lemma apply_reductions_lookup (commander_cost reductions : gmap string Z) (color : string) :
  apply_reductions commander_cost reductions !! color
  = (λ amount, Z.max 0 (amount - dict_get0 reductions color)) <$> commander_cost !! color.
Proof.
  unfold apply_reductions. rewrite map_lookup_imap.
  by destruct (commander_cost !! color).
Qed.

Lemma effective_cost_lookup (commander_cost : gmap string Z) (bf : list (Card * Z))
    (color : string) :
  Spec.effective_cost commander_cost bf !! color
  = (λ amount, Z.max 0 (amount - Spec.reduction bf color)) <$> commander_cost !! color.
Proof.
  unfold Spec.effective_cost. rewrite map_lookup_imap.
  by destruct (commander_cost !! color).
Qed.

Lemma apply_reductions_spec (commander_cost : gmap string Z) (bf : list (Card * Z)) :
  Spec.reducers_only bf →
  apply_reductions commander_cost (gather_reductions bf)
  = Spec.effective_cost commander_cost bf.
Proof.
  intros Hwf. apply map_eq. intros color.
  rewrite apply_reductions_lookup, effective_cost_lookup.
  by rewrite gather_reductions_reducers.
Qed.

Lemma colored_ok_true (effective pool : gmap string Z) :
  colored_ok effective pool = true
  ↔ ∀ color need, effective !! color = Some need → color ≠ "colorless" →
                  need ≤ dict_get0 pool color.
Proof.
  unfold colored_ok. rewrite forallb_forall. split.
  - intros Hall color need Hlook Hcolor.
    specialize (Hall (color, need)). simpl in Hall.
    assert (Hin : In (color, need) (map_to_list effective)).
    { apply list_elem_of_In. by apply elem_of_map_to_list. }
    apply Hall in Hin. apply negb_true_iff, andb_false_iff in Hin as [Hc|Hlt].
    + apply negb_false_iff, String.eqb_eq in Hc. done.
    + apply Z.ltb_ge in Hlt. done.
  - intros Hall [color need] Hin. simpl.
    apply list_elem_of_In, elem_of_map_to_list in Hin.
    apply negb_true_iff, andb_false_iff.
    destruct (String.eqb_spec color "colorless") as [Heq|Hne]; [by left|].
    right. apply Z.ltb_ge. by apply Hall.
Qed.

Lemma can_cast_commander_true (self : Game) (commander_cost : gmap string Z) :
  Spec.reducers_only (battlefield self) →
  can_cast_commander self commander_cost = true
  ↔ Spec.canCastCommander self commander_cost.
Proof.
  intros Hwf. unfold can_cast_commander, Spec.canCastCommander.
  rewrite (apply_reductions_spec _ _ Hwf).
  destruct (colored_ok _ _) eqn:Hcol.
  - pose proof (proj1 (colored_ok_true _ _) Hcol) as Hc. rewrite Z.geb_le.
    split; [by intros Hle|by intros [_ Hle]].
  - split; [discriminate|]. intros [Hc _].
    pose proof (proj2 (colored_ok_true _ _) Hc). congruence.
Qed.
End V003_affordability.

(** C1: on a battlefield of the data model (only CostReducers carry a
    cost reduction), the effective cost computed by [can_cast_commander]
    is the commander cost minus the summed reductions of the battlefield
    CostReducers, colour by colour and clamped at zero: no entry is
    negative, and a colour that no battlefield card reduces keeps its
    requirement.  [can_cast_commander] returns true exactly when (c)
    every colour of the effective cost other than "colorless" is covered
    by the available mana of that colour and (d) the sum of the available
    mana covers the sum of the effective cost. *)
Theorem C1_can_cast_commander (self : V003.Game) (commander_cost : gmap string Z)
    (Hmodel : Spec.reducers_only (V003.battlefield self)) :
  let reductions := V003.gather_reductions (V003.battlefield self) in
  let effective := V003.apply_reductions commander_cost reductions in
  (∀ color, dict_get0 reductions color = Spec.reduction (V003.battlefield self) color)
  ∧ (∀ color, effective !! color
              = (λ amount, Z.max 0 (amount - Spec.reduction (V003.battlefield self) color))
                  <$> commander_cost !! color)
  ∧ (∀ color need, effective !! color = Some need → 0 ≤ need)
  ∧ (∀ color amount,
       commander_cost !! color = Some amount → 0 ≤ amount →
       Forall (λ entry, V003.cost_reduction entry.1 !! color = None) (V003.battlefield self) →
       effective !! color = Some amount)
  ∧ (∀ color card played,
       V003.cost_reduction card !! color = None →
       V003.apply_reductions commander_cost
         (V003.gather_reductions (V003.battlefield self ++ [(card, played)])) !! color
       = effective !! color)
  ∧ (V003.can_cast_commander self commander_cost = true
     ↔ (∀ color need, effective !! color = Some need → color ≠ "colorless" →
                      need ≤ dict_get0 (V003.available_mana self) color)
       ∧ sum_values effective ≤ sum_values (V003.available_mana self)).
Proof.
  intros reductions effective. subst reductions effective. split_and!.
  - intros color. by apply gather_reductions_reducers.
  - intros color. rewrite apply_reductions_lookup. by rewrite gather_reductions_reducers.
  - intros color need. rewrite apply_reductions_lookup.
    destruct (commander_cost !! color); simpl; [|discriminate]. intros [= <-]. lia.
  - intros color amount Hcost Hpos Hnone. rewrite apply_reductions_lookup, Hcost. simpl.
    rewrite gather_reductions_get0.
    replace (Spec.total_of _ _) with 0; [f_equal; lia|].
    symmetry. apply total_of_zero. eapply Forall_impl; [exact Hnone|].
    intros entry Hentry. simpl in Hentry. unfold dict_get0. by rewrite Hentry.
  - intros color card played Hnone. rewrite !apply_reductions_lookup.
    rewrite !gather_reductions_get0, total_of_app. unfold Spec.total_of at 2. simpl.
    unfold dict_get0 at 2. rewrite Hnone. simpl.
    by rewrite !Z.add_0_r.
  - rewrite (can_cast_commander_true _ _ Hmodel). unfold Spec.canCastCommander.
    by rewrite (apply_reductions_spec _ _ Hmodel).
Qed.

(** ** The [while played] loop *)

Section WhilePlayed.
Context {S : Type} (pass : S → option S).

(** The loop stops when a pass plays nothing. *)
Lemma while_played_fixpoint (fuel : nat) (s s' : S) :
  while_played pass fuel s = Ok s' → pass s' = None.
Proof.
  revert s. induction fuel as [|fuel IH]; intros s; simpl; [discriminate|].
  destruct (pass s) as [s1|] eqn:Hpass; [apply IH|]. by intros [= <-].
Qed.

Lemma while_played_invariant (P : S → Prop) :
  (∀ s s', P s → pass s = Some s' → P s') →
  ∀ fuel s s', while_played pass fuel s = Ok s' → P s → P s'.
Proof.
  intros Hstep fuel. induction fuel as [|fuel IH]; intros s s'; simpl; [discriminate|].
  destruct (pass s) as [s1|] eqn:Hpass.
  - intros Hrun Hs. eapply IH; [exact Hrun|]. by eapply Hstep.
  - by intros [= <-].
Qed.

Lemma while_played_never_raises (fuel : nat) (s : S) (e : PyExn) :
  while_played pass fuel s ≠ Raise e.
Proof.
  revert s. induction fuel as [|fuel IH]; intros s; simpl; [discriminate|].
  destruct (pass s); [apply IH|discriminate].
Qed.

(** Each productive pass lowers [size]; a fuel above the size is enough,
    and the size drops by the number of productive passes. *)
Lemma while_played_terminates (size : S → nat) :
  (∀ s s', pass s = Some s' → (size s' < size s)%nat) →
  ∀ fuel s, (size s < fuel)%nat → ∃ s', while_played pass fuel s = Ok s'.
Proof.
  intros Hdec fuel. induction fuel as [|fuel IH]; intros s Hfuel; simpl; [lia|].
  destruct (pass s) as [s1|] eqn:Hpass; [|by eauto].
  apply IH. apply Hdec in Hpass. lia.
Qed.

Lemma while_played_more_fuel (fuel fuel' : nat) (s s' : S) :
  while_played pass fuel s = Ok s' → (fuel ≤ fuel')%nat →
  while_played pass fuel' s = Ok s'.
Proof.
  revert fuel' s. induction fuel as [|fuel IH]; intros fuel' s; simpl; [discriminate|].
  intros Hrun Hle. destruct fuel' as [|fuel']; [lia|]. simpl.
  destruct (pass s) as [s1|]; [|done]. apply IH; [done|lia].
Qed.
End WhilePlayed.

(** ** The turn engine of V003 *)

Section V003_engine.
Import V003.

Lemma draw_zones (self : Game) : Spec.zones (draw self) ≡ₚ Spec.zones self.
Proof.
  unfold draw, Spec.zones. destruct (list_pop (deck self)) as [[card rest]|] eqn:Hpop; [|done].
  apply list_pop_Some in Hpop. rewrite Hpop. simpl.
  rewrite <- !app_assoc. apply Permutation_app_head. simpl.
  symmetry. apply Permutation_middle.
Qed.

Lemma draw_frame (self : Game) :
  turn (draw self) = turn self
  ∧ battlefield (draw self) = battlefield self
  ∧ lands_played (draw self) = lands_played self
  ∧ (length (hand (draw self)) + length (deck (draw self))
     = length (hand self) + length (deck self))%nat
  ∧ (length (hand self) ≤ length (hand (draw self)))%nat.
Proof.
  unfold draw. destruct (list_pop (deck self)) as [[card rest]|] eqn:Hpop; [|by split_and!].
  apply list_pop_Some in Hpop. rewrite Hpop. simpl.
  rewrite !length_app. simpl. split_and!; try done; lia.
Qed.

Lemma play_land_zones (self : Game) : Spec.zones (play_land self).2 ≡ₚ Spec.zones self.
Proof.
  unfold play_land. destruct (lands_played self =? 0); [|done].
  destruct (extract_first _ (hand self)) as [[card hand']|] eqn:Hland; [|done].
  apply extract_first_Some in Hland as (_ & Hperm & _).
  unfold Spec.zones. simpl. rewrite map_app. simpl. rewrite Hperm.
  apply Permutation_app_head. simpl.
  rewrite (Permutation_app_comm (map fst (battlefield self)) [card]). simpl.
  symmetry. apply Permutation_middle.
Qed.

Lemma play_land_frame (self : Game) :
  turn (play_land self).2 = turn self
  ∧ deck (play_land self).2 = deck self
  ∧ (length (hand (play_land self).2) ≤ length (hand self))%nat.
Proof.
  unfold play_land. destruct (lands_played self =? 0); [|by split_and!].
  destruct (extract_first _ (hand self)) as [[card hand']|] eqn:Hland; [|by split_and!].
  apply extract_first_Some in Hland as (_ & _ & Hlen). simpl. split_and!; try done; lia.
Qed.

Lemma play_permanents_pass_Some (self self' : Game) :
  play_permanents_pass self = Some self' →
  turn self' = turn self
  ∧ deck self' = deck self
  ∧ lands_played self' = lands_played self
  ∧ length (hand self) = Datatypes.S (length (hand self'))
  ∧ length (battlefield self') = Datatypes.S (length (battlefield self))
  ∧ Spec.zones self' ≡ₚ Spec.zones self.
Proof.
  unfold play_permanents_pass.
  destruct (extract_first _ (hand self)) as [[card hand']|] eqn:Hcard; [|discriminate].
  intros [= <-]. apply extract_first_Some in Hcard as (_ & Hperm & Hlen). simpl.
  split_and!; try done.
  - rewrite length_app. simpl. lia.
  - unfold Spec.zones. simpl. rewrite map_app. simpl. rewrite Hperm.
    apply Permutation_app_head. simpl.
    rewrite (Permutation_app_comm (map fst (battlefield self)) [card]). simpl.
    symmetry. apply Permutation_middle.
Qed.

(** The greedy loop ends within [length hand] productive passes. *)
Lemma play_permanents_terminates (fuel : nat) (self : Game) :
  (length (hand self) < fuel)%nat → ∃ self', play_permanents fuel self = Ok self'.
Proof.
  apply (while_played_terminates play_permanents_pass (λ g, length (hand g))).
  intros s s' Hpass. apply play_permanents_pass_Some in Hpass. lia.
Qed.

Lemma play_permanents_frame (fuel : nat) (self self' : Game) :
  play_permanents fuel self = Ok self' →
  turn self' = turn self
  ∧ deck self' = deck self
  ∧ lands_played self' = lands_played self
  ∧ (length (hand self') + length (battlefield self')
     = length (hand self) + length (battlefield self))%nat
  ∧ (length (hand self') ≤ length (hand self))%nat
  ∧ Spec.zones self' ≡ₚ Spec.zones self.
Proof.
  intros Hrun.
  apply (while_played_invariant play_permanents_pass
           (λ g, turn g = turn self ∧ deck g = deck self
                 ∧ lands_played g = lands_played self
                 ∧ (length (hand g) + length (battlefield g)
                    = length (hand self) + length (battlefield self))%nat
                 ∧ (length (hand g) ≤ length (hand self))%nat
                 ∧ Spec.zones g ≡ₚ Spec.zones self)) with (fuel := fuel) (s := self);
    [|done|by split_and!].
  intros s s' (Ht & Hd & Hl & Hlen & Hle & Hz) Hpass.
  apply play_permanents_pass_Some in Hpass as (Ht' & Hd' & Hl' & Hh & Hb & Hz').
  split_and!; try congruence; [lia|lia|by rewrite Hz'].
Qed.

Lemma take_turn_frame (fuel : nat) (self self' : Game) :
  take_turn fuel self = Ok self' →
  turn self' = turn self + 1
  ∧ Spec.zones self' ≡ₚ Spec.zones self
  ∧ (length (hand self') + length (deck self')
     ≤ length (hand self) + length (deck self))%nat.
Proof.
  unfold take_turn. intros Hrun.
  pose proof (play_permanents_frame _ _ _ Hrun) as (Ht & Hd & _ & _ & Hlen & Hz).
  pose proof (play_land_frame (draw (begin_turn self))) as (Ht1 & Hd1 & Hh1).
  pose proof (draw_frame (begin_turn self)) as (Ht2 & _ & _ & Hlen2 & _).
  split_and!.
  - rewrite Ht, Ht1, Ht2. done.
  - rewrite Hz, play_land_zones, draw_zones. done.
  - rewrite Hd, Hd1. simpl in Hlen2. lia.
Qed.

Lemma take_turn_terminates (fuel : nat) (self : Game) :
  (length (hand self) + length (deck self) < fuel)%nat →
  ∃ self', take_turn fuel self = Ok self'.
Proof.
  intros Hfuel. unfold take_turn. apply play_permanents_terminates.
  pose proof (play_land_frame (draw (begin_turn self))) as (_ & _ & Hh1).
  pose proof (draw_frame (begin_turn self)) as (_ & _ & _ & Hlen2 & _).
  simpl in Hlen2. lia.
Qed.

Lemma take_turn_more_fuel (fuel fuel' : nat) (self self' : Game) :
  take_turn fuel self = Ok self' → (fuel ≤ fuel')%nat → take_turn fuel' self = Ok self'.
Proof. unfold take_turn, play_permanents. apply while_played_more_fuel. Qed.

Lemma take_turn_never_raises (fuel : nat) (self : Game) (e : PyExn) :
  take_turn fuel self ≠ Raise e.
Proof. unfold take_turn, play_permanents. apply while_played_never_raises. Qed.
End V003_engine.

Section V003_turn_loop.
Import V003.

Lemma play_until_commander_terminates (fuel : nat) (self : Game)
    (commander_cost : gmap string Z) (max_turns : Z) :
  (Z.to_nat (max_turns - turn self) + length (hand self) + length (deck self) < fuel)%nat →
  ∃ result self', play_until_commander fuel self commander_cost max_turns = Ok (result, self').
Proof.
  revert self. induction fuel as [|fuel IH]; intros self Hfuel; [lia|].
  simpl. destruct (Z.ltb_spec (turn self) max_turns) as [Hlt|Hge]; [|by eauto].
  destruct (take_turn_terminates fuel self) as [self1 Hturn]; [lia|].
  rewrite Hturn. simpl.
  destruct (can_cast_commander self1 commander_cost); [by eauto|].
  apply take_turn_frame in Hturn as (Ht & _ & Hlen). apply IH. rewrite Ht. lia.
Qed.

Lemma play_until_commander_result (fuel : nat) (self self' : Game)
    (commander_cost : gmap string Z) (max_turns : Z) (result : option Z) :
  play_until_commander fuel self commander_cost max_turns = Ok (result, self') →
  Spec.turn_boundary self self'
  ∧ match result with
    | Some t => t = turn self' ∧ turn self < t ≤ max_turns
                ∧ can_cast_commander self' commander_cost = true
    | None => turn self' = Z.max (turn self) max_turns
    end.
Proof.
  revert self. induction fuel as [|fuel IH]; intros self; simpl.
  - destruct (Z.ltb_spec (turn self) max_turns) as [Hlt|Hge]; [discriminate|].
    intros [= <- <-]. split; [constructor|lia].
  - destruct (Z.ltb_spec (turn self) max_turns) as [Hlt|Hge].
    + destruct (take_turn fuel self) as [self1| |] eqn:Hturn; simpl; try discriminate.
      pose proof (take_turn_frame _ _ _ Hturn) as (Ht & _ & _).
      assert (Hb1 : Spec.turn_boundary self self1).
      { eapply Spec.boundary_next; [constructor|exact Hturn]. }
      destruct (can_cast_commander self1 commander_cost) eqn:Hcast.
      * intros [= <- <-]. split; [done|]. split_and!; [done|lia|lia|done].
      * intros Hrun. destruct (IH _ Hrun) as [Hb Hres]. split.
        -- clear -Hb Hturn. induction Hb as [|fuel2 s s' _ IHb Hs].
           ++ eapply Spec.boundary_next; [constructor|exact Hturn].
           ++ eapply Spec.boundary_next; [exact IHb|exact Hs].
        -- destruct result as [t|]; [|lia]. destruct Hres as (-> & Hrange & Hc).
           split_and!; [done|lia|lia|done].
    + intros [= <- <-]. split; [constructor|lia].
Qed.

Lemma play_until_commander_never_raises (fuel : nat) (self : Game)
    (commander_cost : gmap string Z) (max_turns : Z) (e : PyExn) :
  play_until_commander fuel self commander_cost max_turns ≠ Raise e.
Proof.
  revert self. induction fuel as [|fuel IH]; intros self; simpl.
  - by destruct (turn self <? max_turns).
  - destruct (turn self <? max_turns); [|done].
    destruct (take_turn fuel self) as [self1|e'|] eqn:Hturn; simpl; [|by apply take_turn_never_raises in Hturn|done].
    destruct (can_cast_commander self1 commander_cost); [done|apply IH].
Qed.

(** More fuel does not change the outcome of a run that ended. *)
Lemma play_until_commander_more_fuel (fuel fuel' : nat) (self : Game)
    (commander_cost : gmap string Z) (max_turns : Z) (out : option Z * Game) :
  play_until_commander fuel self commander_cost max_turns = Ok out →
  (fuel ≤ fuel')%nat →
  play_until_commander fuel' self commander_cost max_turns = Ok out.
Proof.
  revert fuel' self. induction fuel as [|fuel IH]; intros fuel' self; simpl.
  - destruct fuel'; simpl; by destruct (turn self <? max_turns).
  - intros Hrun Hle. destruct fuel' as [|fuel']; [lia|]. simpl.
    destruct (turn self <? max_turns); [|done].
    destruct (take_turn fuel self) as [self1| |] eqn:Hturn; simpl in *; try discriminate.
    rewrite (take_turn_more_fuel fuel fuel' _ _ Hturn) by lia. simpl.
    destruct (can_cast_commander self1 commander_cost); [done|]. apply IH; [done|lia].
Qed.

(** A cast found within [max_turns] is found, on the same turn, within
    any larger limit. *)
Lemma play_until_commander_more_turns (fuel : nat) (self self' : Game)
    (commander_cost : gmap string Z) (max_turns max_turns' t : Z) :
  play_until_commander fuel self commander_cost max_turns = Ok (Some t, self') →
  max_turns ≤ max_turns' →
  play_until_commander fuel self commander_cost max_turns' = Ok (Some t, self').
Proof.
  revert self. induction fuel as [|fuel IH]; intros self; simpl.
  - by destruct (turn self <? max_turns).
  - intros Hrun Hle. destruct (Z.ltb_spec (turn self) max_turns) as [Hlt|Hge]; [|done].
    destruct (Z.ltb_spec (turn self) max_turns') as [_|Hge']; [|lia].
    destruct (take_turn fuel self) as [self1| |]; simpl in *; try discriminate.
    destruct (can_cast_commander self1 commander_cost); [done|]. by apply IH.
Qed.

(** The zones of every turn boundary hold the cards the trial started
    with. *)
Lemma turn_boundary_zones (start self : Game) :
  Spec.turn_boundary start self → Spec.zones self ≡ₚ Spec.zones start.
Proof.
  induction 1 as [|fuel self self' _ IH Hturn]; [done|].
  apply take_turn_frame in Hturn as (_ & Hz & _). by rewrite Hz.
Qed.

Lemma turn_boundary_turn (start self : Game) :
  Spec.turn_boundary start self → turn start ≤ turn self.
Proof.
  induction 1 as [|fuel self self' _ IH Hturn]; [done|].
  apply take_turn_frame in Hturn as (Ht & _ & _). lia.
Qed.

Context {RNG : Type} (shuffle : RNG → list Card → list Card * RNG).

Lemma Game_init_Ok (template : list Card) (rng rng' : RNG) (game : Game) :
  Game_init shuffle template rng = Ok (game, rng') →
  turn game = 0 ∧ battlefield game = [] ∧ lands_played game = 0
  ∧ length (hand game) = 7%nat
  ∧ deck game ++ reverse (hand game) = (shuffle rng template).1
  ∧ rng' = (shuffle rng template).2.
Proof.
  unfold Game_init. destruct (shuffle rng template) as [shuffled rng1]. simpl.
  destruct (pop_many 7 shuffled) as [[popped rest]|e|] eqn:Hpop; simpl; try discriminate.
  intros [= <- <-]. simpl. apply pop_many_Ok in Hpop as [-> Hlen]. done.
Qed.

Lemma Game_init_zones (template : list Card) (rng rng' : RNG) (game : Game) :
  Spec.permutes shuffle →
  Game_init shuffle template rng = Ok (game, rng') →
  Spec.zones game ≡ₚ template.
Proof.
  intros Hperm Hinit. apply Game_init_Ok in Hinit as (_ & Hbf & _ & _ & Hdeck & _).
  unfold Spec.zones. rewrite Hbf. simpl. rewrite app_nil_r.
  rewrite <- (Hperm rng template), <- Hdeck.
  apply Permutation_app_head. symmetry. apply reverse_Permutation.
Qed.

Lemma Game_init_enough (template : list Card) (rng : RNG) :
  Spec.permutes shuffle → (7 ≤ length template)%nat →
  ∃ game rng', Game_init shuffle template rng = Ok (game, rng').
Proof.
  intros Hperm Hlen. unfold Game_init. specialize (Hperm rng template).
  destruct (shuffle rng template) as [shuffled rng1]. simpl in *.
  destruct (pop_many_enough 7 shuffled) as (popped & rest & ->); [|simpl; eauto].
  by rewrite (Permutation_length Hperm).
Qed.

Lemma Game_init_short (template : list Card) (rng : RNG) :
  Spec.permutes shuffle → (length template < 7)%nat →
  Game_init shuffle template rng = Raise IndexError.
Proof.
  intros Hperm Hlen. unfold Game_init. specialize (Hperm rng template).
  destruct (shuffle rng template) as [shuffled rng1]. simpl in *.
  rewrite pop_many_short; [done|]. by rewrite (Permutation_length Hperm).
Qed.
End V003_turn_loop.

(** ** The turn engine of V001 *)

Section V001_engine.
Import V001.

Lemma play_rocks_pass_Some (self self' : Game) :
  play_rocks_pass self = Some self' →
  turn self' = turn self ∧ deck self' = deck self
  ∧ length (hand self) = Datatypes.S (length (hand self')).
Proof.
  unfold play_rocks_pass.
  destruct (extract_first _ (hand self)) as [[card hand']|] eqn:Hcard; [|discriminate].
  intros [= <-]. apply extract_first_Some in Hcard as (_ & _ & Hlen). done.
Qed.

Lemma take_turn_frame_V001 (fuel : nat) (self self' : Game) :
  take_turn fuel self = Ok self' →
  turn self' = turn self + 1
  ∧ (length (hand self') + length (deck self')
     ≤ length (hand self) + length (deck self))%nat.
Proof.
  unfold take_turn, play_rocks. intros Hrun.
  apply (while_played_invariant play_rocks_pass
           (λ g, turn g = turn self + 1
                 ∧ (length (hand g) + length (deck g)
                    ≤ length (hand self) + length (deck self))%nat))
    with (fuel := fuel) (s := (play_land (draw (begin_turn self))).2); [|done|].
  - intros s s' [Ht Hlen] Hpass.
    apply play_rocks_pass_Some in Hpass as (Ht' & Hd' & Hh). split; [congruence|].
    rewrite Hd'. lia.
  - unfold play_land, draw, begin_turn. simpl.
    destruct (list_pop (deck self)) as [[card rest]|] eqn:Hpop; simpl.
    + apply list_pop_Some in Hpop. rewrite Hpop.
      destruct (extract_first _ (hand self ++ [card])) as [[c hand']|] eqn:Hland; simpl.
      * apply extract_first_Some in Hland as (_ & _ & Hlen).
        rewrite !length_app in *. simpl in *. split; [done|lia].
      * rewrite !length_app. simpl. split; [done|lia].
    + destruct (extract_first _ (hand self)) as [[c hand']|] eqn:Hland; simpl.
      * apply extract_first_Some in Hland as (_ & _ & Hlen). split; [done|lia].
      * done.
Qed.

Lemma take_turn_terminates_V001 (fuel : nat) (self : Game) :
  (length (hand self) + length (deck self) < fuel)%nat →
  ∃ self', take_turn fuel self = Ok self'.
Proof.
  intros Hfuel. unfold take_turn, play_rocks.
  apply (while_played_terminates play_rocks_pass (λ g, length (hand g))).
  { intros s s' Hpass. apply play_rocks_pass_Some in Hpass. lia. }
  unfold play_land, draw, begin_turn. simpl.
  destruct (list_pop (deck self)) as [[card rest]|] eqn:Hpop; simpl.
  - apply list_pop_Some in Hpop. rewrite Hpop in Hfuel.
    destruct (extract_first _ (hand self ++ [card])) as [[c hand']|] eqn:Hland; simpl.
    + apply extract_first_Some in Hland as (_ & _ & Hlen).
      rewrite !length_app in *. simpl in *. lia.
    + rewrite !length_app in *. simpl in *. lia.
  - destruct (extract_first _ (hand self)) as [[c hand']|] eqn:Hland; simpl.
    + apply extract_first_Some in Hland as (_ & _ & Hlen). lia.
    + lia.
Qed.

Lemma play_until_commander_terminates_V001 (fuel : nat) (self : Game)
    (commander_cost max_turns : Z) :
  (Z.to_nat (max_turns - turn self) + length (hand self) + length (deck self) < fuel)%nat →
  ∃ result self', play_until_commander fuel self commander_cost max_turns = Ok (result, self').
Proof.
  revert self. induction fuel as [|fuel IH]; intros self Hfuel; [lia|].
  simpl. destruct (Z.ltb_spec (turn self) max_turns) as [Hlt|Hge]; [|by eauto].
  destruct (take_turn_terminates_V001 fuel self) as [self1 Hturn]; [lia|].
  rewrite Hturn. simpl.
  destruct (available_mana self1 >=? commander_cost); [by eauto|].
  apply take_turn_frame_V001 in Hturn as (Ht & Hlen). apply IH. rewrite Ht. lia.
Qed.

Lemma play_until_commander_result_V001 (fuel : nat) (self self' : Game)
    (commander_cost max_turns : Z) (result : option Z) :
  play_until_commander fuel self commander_cost max_turns = Ok (result, self') →
  match result with
  | Some t => t = turn self' ∧ turn self < t ≤ max_turns
              ∧ commander_cost ≤ available_mana self'
  | None => turn self' = Z.max (turn self) max_turns
  end.
Proof.
  revert self. induction fuel as [|fuel IH]; intros self; simpl.
  - destruct (Z.ltb_spec (turn self) max_turns) as [Hlt|Hge]; [discriminate|].
    intros [= <- <-]. lia.
  - destruct (Z.ltb_spec (turn self) max_turns) as [Hlt|Hge].
    + destruct (take_turn fuel self) as [self1| |] eqn:Hturn; simpl; try discriminate.
      pose proof (take_turn_frame_V001 _ _ _ Hturn) as (Ht & _).
      destruct (Z.geb_spec (available_mana self1) commander_cost) as [Hcast|Hno].
      * intros [= <- <-]. split_and!; [done|lia|lia|lia].
      * intros Hrun. specialize (IH _ Hrun).
        destruct result as [t|]; [|lia]. destruct IH as (-> & Hrange & Hc).
        split_and!; [done|lia|lia|done].
    + intros [= <- <-]. lia.
Qed.

Lemma play_until_commander_more_fuel_V001 (fuel fuel' : nat) (self : Game)
    (commander_cost max_turns : Z) (out : option Z * Game) :
  play_until_commander fuel self commander_cost max_turns = Ok out →
  (fuel ≤ fuel')%nat →
  play_until_commander fuel' self commander_cost max_turns = Ok out.
Proof.
  revert fuel' self. induction fuel as [|fuel IH]; intros fuel' self; simpl.
  - destruct fuel'; simpl; by destruct (turn self <? max_turns).
  - intros Hrun Hle. destruct fuel' as [|fuel']; [lia|]. simpl.
    destruct (turn self <? max_turns); [|done].
    destruct (take_turn fuel self) as [self1| |] eqn:Hturn; simpl in *; try discriminate.
    unfold take_turn, play_rocks in *.
    rewrite (while_played_more_fuel _ fuel fuel' _ _ Hturn) by lia. simpl.
    destruct (available_mana self1 >=? commander_cost); [done|]. apply IH; [done|lia].
Qed.

Lemma play_until_commander_more_turns_V001 (fuel : nat) (self self' : Game)
    (commander_cost max_turns max_turns' t : Z) :
  play_until_commander fuel self commander_cost max_turns = Ok (Some t, self') →
  max_turns ≤ max_turns' →
  play_until_commander fuel self commander_cost max_turns' = Ok (Some t, self').
Proof.
  revert self. induction fuel as [|fuel IH]; intros self; simpl.
  - by destruct (turn self <? max_turns).
  - intros Hrun Hle. destruct (Z.ltb_spec (turn self) max_turns) as [Hlt|Hge]; [|done].
    destruct (Z.ltb_spec (turn self) max_turns') as [_|Hge']; [|lia].
    destruct (take_turn fuel self) as [self1| |]; simpl in *; try discriminate.
    destruct (available_mana self1 >=? commander_cost); [done|]. by apply IH.
Qed.

Context {RNG : Type} (shuffle : RNG → list Card → list Card * RNG).

Lemma Game_init_Ok_V001 (template : list Card) (rng rng' : RNG) (game : Game) :
  Game_init shuffle template rng = Ok (game, rng') →
  turn game = 0 ∧ battlefield game = []
  ∧ length (hand game) = 7%nat
  ∧ deck game ++ reverse (hand game) = (shuffle rng template).1.
Proof.
  unfold Game_init. destruct (shuffle rng template) as [shuffled rng1]. simpl.
  destruct (pop_many 7 shuffled) as [[popped rest]|e|] eqn:Hpop; simpl; try discriminate.
  intros [= <- <-]. simpl. apply pop_many_Ok in Hpop as [-> Hlen]. done.
Qed.

Lemma Game_init_enough_V001 (template : list Card) (rng : RNG) :
  Spec.permutes shuffle → (7 ≤ length template)%nat →
  ∃ game rng', Game_init shuffle template rng = Ok (game, rng').
Proof.
  intros Hperm Hlen. unfold Game_init. specialize (Hperm rng template).
  destruct (shuffle rng template) as [shuffled rng1]. simpl in *.
  destruct (pop_many_enough 7 shuffled) as (popped & rest & ->); [|simpl; eauto].
  by rewrite (Permutation_length Hperm).
Qed.
End V001_engine.

(** ** The Monte Carlo harness *)

Lemma kept_in_range (max_turns : Z) (outcomes : list (option Z)) :
  Forall (Spec.in_range max_turns) outcomes → Spec.kept outcomes = Spec.successes outcomes.
Proof.
  unfold Spec.kept, Spec.successes.
  induction 1 as [|[t|] outcomes Hr _ IH]; simpl; [done| |done].
  simpl in Hr. destruct (Z.eqb_spec t 0) as [->|_]; [lia|]. simpl. by f_equal.
Qed.

Lemma successes_length (outcomes : list (option Z)) :
  length (Spec.successes outcomes) = length (filter (λ r, r ≠ None) outcomes).
Proof.
  unfold Spec.successes. induction outcomes as [|[t|] outcomes IH]; [done| |].
  - rewrite filter_cons, decide_True by done. simpl. f_equal. exact IH.
  - rewrite filter_cons, decide_False by (by intros ?). exact IH.
Qed.

Section V003_harness.
Import V003.
Context {RNG : Type} (shuffle : RNG → list Card → list Card * RNG).

(** The loop of [run_simulation] appends to [results] what the filter
    keeps of the trial results. *)
Lemma collect_results_outcomes (fuel : nat) (template : list Card)
    (commander_cost : gmap string Z) (trials : nat) (rng : RNG) (results : list Z) :
  collect_results shuffle fuel template commander_cost trials rng results
  = obind (trial_outcomes shuffle fuel template commander_cost trials rng)
          (λ outcomes, Ok (results ++ Spec.kept outcomes)).
Proof.
  revert rng results. induction trials as [|trials IH]; intros rng results; simpl.
  - by rewrite app_nil_r.
  - destruct (Game_init shuffle template rng) as [[game rng1]|e|]; simpl; try done.
    destruct (play_until_commander fuel game commander_cost 20) as [[turn_cast game']|e|];
      simpl; try done.
    rewrite IH.
    destruct (trial_outcomes shuffle fuel template commander_cost trials rng1)
      as [outcomes|e|]; simpl; try done.
    unfold Spec.kept. simpl. destruct turn_cast as [t|]; simpl; [|done].
    destruct (negb (t =? 0)); simpl; [|done]. by rewrite <- app_assoc.
Qed.

Lemma trial_outcomes_in_range (fuel : nat) (template : list Card)
    (commander_cost : gmap string Z) (trials : nat) (rng : RNG)
    (outcomes : list (option Z)) :
  trial_outcomes shuffle fuel template commander_cost trials rng = Ok outcomes →
  length outcomes = trials ∧ Forall (Spec.in_range 20) outcomes.
Proof.
  revert rng outcomes. induction trials as [|trials IH]; intros rng outcomes; simpl.
  - by intros [= <-].
  - destruct (Game_init shuffle template rng) as [[game rng1]|e|] eqn:Hinit;
      simpl; try discriminate.
    destruct (play_until_commander fuel game commander_cost 20) as [[turn_cast game']|e|]
      eqn:Hplay; simpl; try discriminate.
    destruct (trial_outcomes shuffle fuel template commander_cost trials rng1)
      as [rest|e|] eqn:Hrest; simpl; try discriminate.
    intros [= <-]. destruct (IH _ _ Hrest) as [Hlen Hall]. split; [simpl; lia|].
    constructor; [|done].
    apply Game_init_Ok in Hinit as (Ht0 & _).
    apply play_until_commander_result in Hplay as [_ Hres].
    destruct turn_cast as [t|]; simpl; [|done]. lia.
Qed.

(** With enough fuel every trial of a deck of seven cards or more ends. *)
Lemma trial_outcomes_terminates (fuel : nat) (template : list Card)
    (commander_cost : gmap string Z) (trials : nat) (rng : RNG) :
  Spec.permutes shuffle → (7 ≤ length template)%nat → (20 + length template < fuel)%nat →
  ∃ outcomes, trial_outcomes shuffle fuel template commander_cost trials rng = Ok outcomes.
Proof.
  intros Hperm Hlen Hfuel. revert rng. induction trials as [|trials IH]; intros rng; simpl.
  - by eauto.
  - destruct (Game_init_enough shuffle template rng Hperm Hlen) as (game & rng1 & Hinit).
    rewrite Hinit. simpl.
    pose proof (Game_init_zones shuffle _ _ _ _ Hperm Hinit) as Hz.
    apply Permutation_length in Hz. unfold Spec.zones in Hz. rewrite !length_app in Hz.
    apply Game_init_Ok in Hinit as (Ht0 & _).
    destruct (play_until_commander_terminates fuel game commander_cost 20)
      as (result & game' & ->); [rewrite Ht0; lia|].
    simpl. destruct (IH rng1) as [rest ->]. simpl. eauto.
Qed.
End V003_harness.

Section V001_harness.
Import V001.
Context {RNG : Type} (shuffle : RNG → list Card → list Card * RNG).

Lemma collect_results_outcomes_V001 (fuel : nat) (template : list Card)
    (trials : nat) (rng : RNG) (results : list Z) :
  collect_results shuffle fuel template trials rng results
  = obind (trial_outcomes shuffle fuel template trials rng)
          (λ outcomes, Ok (results ++ Spec.kept outcomes)).
Proof.
  revert rng results. induction trials as [|trials IH]; intros rng results; simpl.
  - by rewrite app_nil_r.
  - destruct (Game_init shuffle template rng) as [[game rng1]|e|]; simpl; try done.
    destruct (play_until_commander fuel game 6 20) as [[turn_cast game']|e|];
      simpl; try done.
    rewrite IH.
    destruct (trial_outcomes shuffle fuel template trials rng1)
      as [outcomes|e|]; simpl; try done.
    unfold Spec.kept. simpl. destruct turn_cast as [t|]; simpl; [|done].
    destruct (negb (t =? 0)); simpl; [|done]. by rewrite <- app_assoc.
Qed.

Lemma trial_outcomes_in_range_V001 (fuel : nat) (template : list Card)
    (trials : nat) (rng : RNG) (outcomes : list (option Z)) :
  trial_outcomes shuffle fuel template trials rng = Ok outcomes →
  length outcomes = trials ∧ Forall (Spec.in_range 20) outcomes.
Proof.
  revert rng outcomes. induction trials as [|trials IH]; intros rng outcomes; simpl.
  - by intros [= <-].
  - destruct (Game_init shuffle template rng) as [[game rng1]|e|] eqn:Hinit;
      simpl; try discriminate.
    destruct (play_until_commander fuel game 6 20) as [[turn_cast game']|e|]
      eqn:Hplay; simpl; try discriminate.
    destruct (trial_outcomes shuffle fuel template trials rng1)
      as [rest|e|] eqn:Hrest; simpl; try discriminate.
    intros [= <-]. destruct (IH _ _ Hrest) as [Hlen Hall]. split; [simpl; lia|].
    constructor; [|done].
    apply Game_init_Ok_V001 in Hinit as (Ht0 & _).
    apply play_until_commander_result_V001 in Hplay.
    destruct turn_cast as [t|]; simpl; [|done]. lia.
Qed.
End V001_harness.

(** ** Termination, conservation and the range of a trial's result *)

(** C6: a trial ends whatever the deck and the turn limit.  From any
    state the turn loop returns once the fuel exceeds the turns left plus
    the cards in hand and library; it runs at most [max_turns - turn]
    iterations (the turn counter counts them) and returns [None] only
    with the counter at the limit.  The greedy loop of a turn returns
    once the fuel exceeds the hand size, at a state where no further
    deployment is affordable, and every productive pass takes one card
    out of the hand. *)
Theorem C6_trial_terminates (self : V003.Game) (commander_cost : gmap string Z)
    (max_turns : Z) (fuel : nat)
    (Hfuel : (Z.to_nat (max_turns - V003.turn self) + length (V003.hand self)
              + length (V003.deck self) < fuel)%nat) :
  (∃ result self',
      V003.play_until_commander fuel self commander_cost max_turns = Ok (result, self')
      ∧ V003.turn self' - V003.turn self ≤ Z.max 0 (max_turns - V003.turn self)
      ∧ (result = None → V003.turn self' = Z.max (V003.turn self) max_turns))
  ∧ (∀ inner_fuel, (length (V003.hand self) < inner_fuel)%nat →
      ∃ self', V003.play_permanents inner_fuel self = Ok self'
               ∧ V003.play_permanents_pass self' = None
               ∧ (length (V003.hand self') ≤ length (V003.hand self))%nat)
  ∧ (∀ self', V003.play_permanents_pass self = Some self' →
              length (V003.hand self) = S (length (V003.hand self'))).
Proof.
  split_and!.
  - destruct (play_until_commander_terminates fuel self commander_cost max_turns Hfuel)
      as (result & self' & Hrun).
    exists result, self'. split; [done|].
    apply play_until_commander_result in Hrun as [_ Hres].
    destruct result as [t|]; [|split; [lia|done]].
    destruct Hres as (-> & Hrange & _). split; [lia|discriminate].
  - intros inner_fuel Hinner.
    destruct (play_permanents_terminates inner_fuel self Hinner) as [self' Hrun].
    exists self'. split_and!; [done| |].
    + by apply while_played_fixpoint in Hrun.
    + by apply play_permanents_frame in Hrun as (_ & _ & _ & _ & Hle & _).
  - intros self' Hpass. by apply play_permanents_pass_Some in Hpass as (_ & _ & _ & Hlen & _).
Qed.

(** C7: at every turn boundary of a trial the cards of library, hand and
    battlefield together are a permutation of the deck template, so the
    three zones hold as many cards as the template; the state in which
    [play_until_commander] returns is such a boundary.  Drawing, the land
    drop and the greedy deployment each leave the cards of the three
    zones the same up to order. *)
Theorem C7_zone_conservation {RNG : Type}
    (shuffle : RNG → list V003.Card → list V003.Card * RNG)
    (template : list V003.Card) (rng rng' : RNG) (game : V003.Game)
    (Hshuffle : Spec.permutes shuffle)
    (Hinit : V003.Game_init shuffle template rng = Ok (game, rng')) :
  (∀ self, Spec.turn_boundary game self →
      V003.deck self ++ V003.hand self ++ map fst (V003.battlefield self) ≡ₚ template
      ∧ (length (V003.deck self) + length (V003.hand self)
         + length (V003.battlefield self) = length template)%nat)
  ∧ (∀ fuel commander_cost max_turns result self',
      V003.play_until_commander fuel game commander_cost max_turns = Ok (result, self') →
      Spec.turn_boundary game self')
  ∧ (∀ self, Spec.zones (V003.draw self) ≡ₚ Spec.zones self
             ∧ Spec.zones (V003.play_land self).2 ≡ₚ Spec.zones self
             ∧ ∀ fuel self', V003.play_permanents fuel self = Ok self' →
                             Spec.zones self' ≡ₚ Spec.zones self).
Proof.
  split_and!.
  - intros self Hb. assert (Hz : Spec.zones self ≡ₚ template).
    { rewrite (turn_boundary_zones _ _ Hb). by eapply Game_init_zones. }
    split; [exact Hz|]. apply Permutation_length in Hz. unfold Spec.zones in Hz.
    rewrite !length_app, length_map in Hz. lia.
  - intros fuel commander_cost max_turns result self' Hrun.
    by apply play_until_commander_result in Hrun as [Hb _].
  - intros self. split_and!; [apply draw_zones|apply play_land_zones|].
    intros fuel self' Hrun.
    by apply play_permanents_frame in Hrun as (_ & _ & _ & _ & _ & Hz).
Qed.

(** C10: the engine, started on a fresh game, returns with enough fuel,
    and what it returns is [None] or a turn between 1 and [max_turns],
    never 0, so the truth value the harness tests is true exactly for the
    results that are not [None].  The distribution of [run_simulation] is
    the [Counter] of the successful trials and the count it reports is
    the number of trial results that are not [None].  The engine and the
    filter of V001 behave the same way. *)
Theorem C10_result_range {RNG : Type}
    (shuffle : RNG → list V003.Card → list V003.Card * RNG)
    (template : list V003.Card) (commander_cost : gmap string Z)
    (rng rng' : RNG) (game : V003.Game)
    (Hinit : V003.Game_init shuffle template rng = Ok (game, rng')) :
  (∀ fuel max_turns,
      (Z.to_nat max_turns + length (V003.hand game) + length (V003.deck game) < fuel)%nat →
      ∃ result game',
        V003.play_until_commander fuel game commander_cost max_turns = Ok (result, game'))
  ∧ (∀ fuel max_turns result game',
      V003.play_until_commander fuel game commander_cost max_turns = Ok (result, game') →
      Spec.in_range max_turns result ∧ result ≠ Some 0
      ∧ truthy result = bool_decide (result ≠ None))
  ∧ (∀ fuel trials rng0 counts avg_turn n,
      V003.run_simulation shuffle fuel template commander_cost trials rng0
        = Ok (counts, avg_turn, n) →
      ∃ outcomes,
        V003.trial_outcomes shuffle fuel template commander_cost (Z.to_nat trials) rng0
          = Ok outcomes
        ∧ counts = Counter (Spec.successes outcomes)
        ∧ n = Z.of_nat (length (filter (λ r, r ≠ None) outcomes)))
  ∧ (∀ (shuffle1 : RNG → list V001.Card → list V001.Card * RNG) template1 rng1 rng1' game1
       fuel cost1 max_turns result game1',
      V001.Game_init shuffle1 template1 rng1 = Ok (game1, rng1') →
      ((Z.to_nat max_turns + length (V001.hand game1) + length (V001.deck game1)
        < fuel)%nat →
       ∃ result' game2,
         V001.play_until_commander fuel game1 cost1 max_turns = Ok (result', game2))
      ∧ (V001.play_until_commander fuel game1 cost1 max_turns = Ok (result, game1') →
         Spec.in_range max_turns result ∧ result ≠ Some 0
         ∧ truthy result = bool_decide (result ≠ None)))
  ∧ (∀ (shuffle1 : RNG → list V001.Card → list V001.Card * RNG) fuel trials lands rocks
       fillers rng1 counts avg_turn,
      V001.run_simulation shuffle1 fuel trials lands rocks fillers rng1
        = Ok (counts, avg_turn) →
      ∃ outcomes,
        V001.trial_outcomes shuffle1 fuel (V001.build_deck lands rocks fillers)
                            (Z.to_nat trials) rng1 = Ok outcomes
        ∧ counts = Counter (Spec.successes outcomes)).
Proof.
  pose proof (Game_init_Ok shuffle _ _ _ _ Hinit) as (Ht0 & _).
  split_and!.
  - intros fuel max_turns Hfuel. apply play_until_commander_terminates.
    rewrite Ht0, Z.sub_0_r. exact Hfuel.
  - intros fuel max_turns result game' Hrun.
    apply play_until_commander_result in Hrun as [_ Hres].
    destruct result as [t|]; simpl.
    + destruct Hres as (_ & Hrange & _).
      destruct (Z.eqb_spec t 0) as [->|Hne]; [lia|].
      split_and!; [lia|lia|intros [= Heq]; lia|done].
    + done.
  - intros fuel trials rng0 counts avg_turn n. unfold V003.run_simulation.
    rewrite collect_results_outcomes.
    destruct (V003.trial_outcomes shuffle fuel template commander_cost (Z.to_nat trials) rng0)
      as [outcomes|e|] eqn:Hout; simpl; try discriminate.
    apply trial_outcomes_in_range in Hout as [_ Hall].
    rewrite (kept_in_range _ _ Hall).
    destruct (Spec.successes outcomes) as [|t results] eqn:Hres; simpl.
    + intros [= <- <- <-]. exists outcomes. rewrite Hres.
      split_and!; [done|done|]. by rewrite <- successes_length, Hres.
    + intros [= <- <- <-]. exists outcomes. rewrite Hres.
      split_and!; [done|done|]. by rewrite <- successes_length, Hres.
  - intros shuffle1 template1 rng1 rng1' game1 fuel cost1 max_turns result game1' Hinit1.
    apply Game_init_Ok_V001 in Hinit1 as (Ht1 & _). split.
    + intros Hfuel. apply play_until_commander_terminates_V001.
      rewrite Ht1, Z.sub_0_r. exact Hfuel.
    + intros Hrun. apply play_until_commander_result_V001 in Hrun.
      destruct result as [t|]; simpl; [|done].
      destruct Hrun as (_ & Hrange & _).
      destruct (Z.eqb_spec t 0) as [->|Hne]; [lia|].
      split_and!; [lia|lia|intros [= Heq]; lia|done].
  - intros shuffle1 fuel trials lands rocks fillers rng1 counts avg_turn.
    unfold V001.run_simulation. rewrite collect_results_outcomes_V001.
    destruct (V001.trial_outcomes shuffle1 fuel _ (Z.to_nat trials) rng1)
      as [outcomes|e|] eqn:Hout; simpl; try discriminate.
    apply trial_outcomes_in_range_V001 in Hout as [_ Hall].
    rewrite (kept_in_range _ _ Hall).
    destruct (Spec.successes outcomes) as [|t results] eqn:Hres; simpl; [discriminate|].
    intros [= <- <-]. exists outcomes. by rewrite Hres.
Qed.

(** ** Scenario A: a deck of lands *)

Lemma dict_add_into_singleton (total : gmap string Z) (color : string) (amount : Z) :
  dict_add_into total {[color := amount]} = <[color := dict_get0 total color + amount]> total.
Proof.
  apply map_eq. intros c. rewrite dict_add_into_lookup.
  destruct (decide (color = c)) as [->|Hne].
  - by rewrite lookup_singleton_eq, lookup_insert_eq.
  - by rewrite lookup_singleton_ne, lookup_insert_ne.
Qed.

Section ScenarioA.
Import V003.

Lemma basic_land_produces (card : Card) (played now : Z) :
  Spec.basic_land card → can_produce_mana card played now = true.
Proof.
  intros (Hland & _ & Huntapped & _). unfold can_produce_mana.
  by rewrite Hland, Huntapped.
Qed.

Lemma basic_land_not_permanent (card : Card) :
  Spec.basic_land card → is_permanent card = false.
Proof. intros (Hland & _). unfold is_permanent. by rewrite Hland. Qed.

(** A battlefield of [n] such lands gives [n] colourless mana. *)
Lemma mana_pool_lands (bf : list (Card * Z)) (now : Z) :
  Forall (λ entry, Spec.basic_land entry.1) bf →
  mana_pool bf now
  = match bf with
    | [] => ∅
    | _ => {["colorless" := Z.of_nat (length bf)]}
    end.
Proof.
  induction bf as [|[card played] bf IH] using rev_ind; intros Hall; [done|].
  apply Forall_app in Hall as [Hbf Hcard]. rewrite Forall_singleton in Hcard. simpl in Hcard.
  rewrite mana_pool_snoc, (basic_land_produces _ _ _ Hcard).
  destruct Hcard as (_ & Hmana & _). unfold produce_mana. rewrite Hmana.
  rewrite dict_add_into_singleton, (IH Hbf), length_app. simpl.
  destruct bf as [|entry bf]; simpl.
  - by rewrite insert_empty.
  - unfold dict_get0. rewrite lookup_singleton_eq, insert_singleton_eq. simpl.
    f_equal. lia.
Qed.

Lemma sum_values_lands (bf : list (Card * Z)) (now : Z) :
  Forall (λ entry, Spec.basic_land entry.1) bf →
  sum_values (mana_pool bf now) = Z.of_nat (length bf).
Proof.
  intros Hall. rewrite (mana_pool_lands _ _ Hall). destruct bf; [apply sum_values_empty|].
  apply sum_values_singleton.
Qed.

Lemma gather_reductions_lands (bf : list (Card * Z)) :
  Forall (λ entry, Spec.basic_land entry.1) bf → gather_reductions bf = ∅.
Proof.
  induction bf as [|[card played] bf IH] using rev_ind; intros Hall; [done|].
  apply Forall_app in Hall as [Hbf Hcard]. rewrite Forall_singleton in Hcard.
  destruct Hcard as (_ & _ & _ & Hred). simpl in Hred.
  unfold gather_reductions in *. rewrite foldl_app. simpl.
  by rewrite (IH Hbf), Hred, dict_add_into_empty.
Qed.

(** Against {colorless: n} such a battlefield casts exactly when it
    holds [n] lands or more. *)
Lemma can_cast_commander_lands (self : Game) (n : Z) :
  Forall (λ entry, Spec.basic_land entry.1) (battlefield self) →
  can_cast_commander self {["colorless" := n]}
  = (Z.of_nat (length (battlefield self)) >=? Z.max 0 n).
Proof.
  intros Hall. unfold can_cast_commander.
  rewrite (gather_reductions_lands _ Hall).
  assert (Heff : apply_reductions {["colorless" := n]} ∅ = {["colorless" := Z.max 0 n]}).
  { apply map_eq. intros c. rewrite apply_reductions_lookup.
    destruct (decide ("colorless" = c)) as [<-|Hne].
    - rewrite !lookup_singleton_eq. simpl. unfold dict_get0. rewrite lookup_empty. simpl.
      f_equal. lia.
    - by rewrite !lookup_singleton_ne. }
  rewrite Heff.
  assert (Hcol : colored_ok {["colorless" := Z.max 0 n]} (available_mana self) = true).
  { apply colored_ok_true. intros color need Hlook Hne.
    apply lookup_singleton_Some in Hlook as [Hc _]. congruence. }
  rewrite Hcol, sum_values_singleton. unfold available_mana.
  by rewrite (sum_values_lands _ _ Hall).
Qed.

(** One turn of Scenario A: a land is played and nothing else happens. *)
Lemma take_turn_lands (fuel k : nat) (self : Game) :
  Spec.lands_in_play k self → (k < 7)%nat → (1 ≤ fuel)%nat →
  ∃ self', take_turn fuel self = Ok self' ∧ Spec.lands_in_play (S k) self'.
Proof.
  intros (Hdeck & Hhand & Hbf & Hk & Hturn & Hlen) Hlt Hfuel.
  unfold take_turn.
  set (drawn := draw (begin_turn self)).
  assert (Hdrawn : Forall Spec.basic_land (deck drawn) ∧ Forall Spec.basic_land (hand drawn)
                   ∧ battlefield drawn = battlefield self ∧ turn drawn = turn self + 1
                   ∧ lands_played drawn = 0
                   ∧ (length (hand self) ≤ length (hand drawn))%nat).
  { subst drawn. unfold draw, begin_turn. simpl.
    destruct (list_pop (deck self)) as [[card rest]|] eqn:Hpop; simpl.
    - apply list_pop_Some in Hpop. rewrite Hpop in Hdeck.
      apply Forall_app in Hdeck as [Hrest Hcard].
      split_and!; try done; [by apply Forall_app|rewrite length_app; lia].
    - split_and!; done. }
  destruct Hdrawn as (Hdeck1 & Hhand1 & Hbf1 & Hturn1 & Hlp1 & Hlen1).
  unfold play_land. rewrite Hlp1. simpl.
  destruct (extract_first _ (hand drawn)) as [[card hand']|] eqn:Hland.
  - apply extract_first_is_first in Hland as (l1 & l2 & Hsplit & -> & _).
    rewrite Hsplit in Hhand1, Hlen1.
    apply Forall_app in Hhand1 as [Hl1 Hcard]. apply Forall_cons in Hcard as [Hcard Hl2].
    simpl. destruct fuel as [|fuel]; [lia|]. unfold play_permanents. simpl.
    unfold play_permanents_pass. simpl.
    assert (Hnone : extract_first
                      (λ card0, is_permanent card0
                                && can_pay_cost
                                     {| turn := turn drawn; deck := deck drawn;
                                        hand := l1 ++ l2;
                                        battlefield := battlefield drawn ++ [(card, turn drawn)];
                                        lands_played := 1 |} (cost card0))
                      (l1 ++ l2) = None).
    { apply extract_first_None. apply Forall_app. split.
      - eapply Forall_impl; [exact Hl1|]. intros c Hc. simpl.
        by rewrite (basic_land_not_permanent _ Hc).
      - eapply Forall_impl; [exact Hl2|]. intros c Hc. simpl.
        by rewrite (basic_land_not_permanent _ Hc). }
    rewrite Hnone. eexists. split; [reflexivity|].
    unfold Spec.lands_in_play. simpl. rewrite Hbf1, Hturn1, Hturn.
    rewrite !length_app in *. simpl in *.
    split_and!; try done.
    + by apply Forall_app.
    + apply Forall_app. split; [done|]. by apply Forall_singleton.
    + lia.
    + lia.
    + lia.
  - apply extract_first_None in Hland.
    destruct (hand drawn) as [|card hand1] eqn:Hh; [simpl in *; lia|].
    apply Forall_cons in Hland as [Hno _]. apply Forall_cons in Hhand1 as [(Hc & _) _].
    rewrite Hc in Hno. discriminate.
Qed.

(** The cast comes on turn 6. *)
Lemma play_until_commander_lands (fuel k : nat) (self : Game) (max_turns : Z) :
  Spec.lands_in_play k self → (k < 6)%nat → 6 ≤ max_turns → (7 - k ≤ fuel)%nat →
  ∃ self', play_until_commander fuel self {["colorless" := 6]} max_turns
           = Ok (Some 6, self').
Proof.
  revert k self. induction fuel as [|fuel IH]; intros k self Hinv Hk Hmax Hfuel; [lia|].
  simpl. pose proof Hinv as (_ & _ & _ & _ & Hturn & _).
  destruct (Z.ltb_spec (turn self) max_turns) as [_|Hge]; [|lia].
  destruct (take_turn_lands fuel k self Hinv) as (self1 & -> & Hinv1); [lia|lia|].
  simpl. pose proof Hinv1 as (_ & _ & Hbf1 & Hlen1 & Hturn1 & _).
  rewrite (can_cast_commander_lands _ _ Hbf1), Hlen1, Hturn1.
  destruct (Z.geb_spec (Z.of_nat (S k)) (Z.max 0 6)) as [Hcast|Hnot].
  - exists self1. do 2 f_equal. f_equal. lia.
  - apply (IH (S k)); [done|lia|done|lia].
Qed.

Context {RNG : Type} (shuffle : RNG → list Card → list Card * RNG).

Lemma Game_init_lands (template : list Card) (rng rng' : RNG) (game : Game) :
  Spec.permutes shuffle → Forall Spec.basic_land template →
  Game_init shuffle template rng = Ok (game, rng') →
  Spec.lands_in_play 0 game.
Proof.
  intros Hperm Hall Hinit.
  pose proof (Game_init_zones shuffle _ _ _ _ Hperm Hinit) as Hz.
  apply Game_init_Ok in Hinit as (Ht0 & Hbf & _ & Hlen & _).
  rewrite <- Hz in Hall. unfold Spec.zones in Hall.
  apply Forall_app in Hall as [Hdeck Hrest]. apply Forall_app in Hrest as [Hhand _].
  unfold Spec.lands_in_play. rewrite Hbf, Ht0, Hlen. simpl. split_and!; try done; lia.
Qed.

(** Every trial of Scenario A returns 6. *)
Lemma trial_outcomes_lands (fuel : nat) (template : list Card) (trials : nat) (rng : RNG) :
  Spec.permutes shuffle → Forall Spec.basic_land template → (7 ≤ length template)%nat →
  (7 ≤ fuel)%nat →
  trial_outcomes shuffle fuel template {["colorless" := 6]} trials rng
  = Ok (replicate trials (Some 6)).
Proof.
  intros Hperm Hall Hlen Hfuel. revert rng.
  induction trials as [|trials IH]; intros rng; simpl; [done|].
  destruct (Game_init_enough shuffle template rng Hperm Hlen) as (game & rng1 & Hinit).
  rewrite Hinit. simpl.
  pose proof (Game_init_lands _ _ _ _ Hperm Hall Hinit) as Hinv.
  destruct (play_until_commander_lands fuel 0 game 20 Hinv) as [game' ->]; [lia|lia|lia|].
  simpl. by rewrite IH.
Qed.
End ScenarioA.

Lemma shuffle_rev_permutes {A : Type} : Spec.permutes (@shuffle_rev A).
Proof. intros rng l. simpl. apply reverse_Permutation. Qed.

Lemma shuffle_id_permutes {A : Type} : Spec.permutes (@shuffle_id A).
Proof. intros rng l. done. Qed.

Section ScenarioA_V001.
Import V001.
Context {RNG : Type} (shuffle : RNG → list Card → list Card * RNG).

Lemma Game_init_lands_V001 (rng : RNG) :
  Spec.permutes shuffle →
  Game_init shuffle (build_deck 100 0 0) rng
  = Ok (Example.opening_V001, (shuffle rng (build_deck 100 0 0)).2).
Proof.
  intros Hperm. unfold Game_init. specialize (Hperm rng (build_deck 100 0 0)).
  destruct (shuffle rng (build_deck 100 0 0)) as [shuffled rng1]. simpl in Hperm.
  assert (Hdeck : build_deck 100 0 0 = replicate 100 land_card) by reflexivity.
  rewrite Hdeck in Hperm. symmetry in Hperm. apply replicate_Permutation in Hperm as <-.
  reflexivity.
Qed.

Lemma play_until_commander_lands_V001 (fuel : nat) (max_turns : Z) :
  (7 ≤ fuel)%nat → 6 ≤ max_turns →
  play_until_commander fuel Example.opening_V001 6 max_turns
  = Ok (Some 6, Example.turn6_V001).
Proof.
  intros Hfuel Hmax.
  apply (play_until_commander_more_fuel_V001 7); [|done].
  apply (play_until_commander_more_turns_V001 _ _ _ _ 6); [|done].
  vm_compute. reflexivity.
Qed.

Lemma trial_outcomes_lands_V001 (fuel : nat) (trials : nat) (rng : RNG) :
  Spec.permutes shuffle → (7 ≤ fuel)%nat →
  trial_outcomes shuffle fuel (build_deck 100 0 0) trials rng
  = Ok (replicate trials (Some 6)).
Proof.
  intros Hperm Hfuel. revert rng. induction trials as [|trials IH]; intros rng; [done|].
  cbn [trial_outcomes]. rewrite (Game_init_lands_V001 rng Hperm).
  cbn [mbind Outcome_bind obind].
  rewrite (play_until_commander_lands_V001 fuel 20 Hfuel) by lia.
  cbn [mbind Outcome_bind obind]. rewrite IH. reflexivity.
Qed.
End ScenarioA_V001.

Lemma kept_replicate (n : nat) (t : Z) :
  t ≠ 0 → Spec.kept (replicate n (Some t)) = replicate n t.
Proof.
  intros Hne. unfold Spec.kept. induction n as [|n IH]; [done|].
  cbn [replicate omap list_omap truthy]. destruct (Z.eqb_spec t 0) as [?|_]; [done|].
  cbn [negb]. by rewrite IH.
Qed.

(** C4: on a deck of a hundred lands that each produce one colourless
    mana and enter untapped, against the commander cost {colorless: 6} and
    for every turn limit of 6 or more, every trial casts on turn 6,
    whatever the shuffle; [run_simulation] then returns a distribution
    that counts every trial on turn 6 and nothing on any other turn.  The
    engine of V001 returns 6 on the deck [build_deck(100, 0, 0)] as
    well. *)
Theorem C4_lands_cast_on_turn_6 {RNG : Type}
    (shuffle : RNG → list V003.Card → list V003.Card * RNG)
    (shuffle1 : RNG → list V001.Card → list V001.Card * RNG)
    (template : list V003.Card)
    (Hshuffle : Spec.permutes shuffle) (Hshuffle1 : Spec.permutes shuffle1)
    (Hsize : length template = 100%nat) (Hlands : Forall Spec.basic_land template) :
  (∀ rng fuel max_turns, (7 ≤ fuel)%nat → 6 ≤ max_turns →
      ∃ game rng' game',
        V003.Game_init shuffle template rng = Ok (game, rng')
        ∧ V003.play_until_commander fuel game {["colorless" := 6]} max_turns
          = Ok (Some 6, game'))
  ∧ (∀ rng fuel trials, (7 ≤ fuel)%nat → 0 ≤ trials →
      ∃ counts avg_turn,
        V003.run_simulation shuffle fuel template {["colorless" := 6]} trials rng
          = Ok (counts, avg_turn, trials)
        ∧ ∀ t, Counter_get counts t = if decide (t = 6) then trials else 0)
  ∧ (∀ rng fuel max_turns, (7 ≤ fuel)%nat → 6 ≤ max_turns →
      ∃ game rng' game',
        V001.Game_init shuffle1 (V001.build_deck 100 0 0) rng = Ok (game, rng')
        ∧ V001.play_until_commander fuel game 6 max_turns = Ok (Some 6, game'))
  ∧ (∀ rng fuel trials, (7 ≤ fuel)%nat → 1 ≤ trials →
      ∃ counts avg_turn,
        V001.run_simulation shuffle1 fuel trials 100 0 0 rng = Ok (counts, avg_turn)
        ∧ ∀ t, Counter_get counts t = if decide (t = 6) then trials else 0).
Proof.
  assert (Hlen : (7 ≤ length template)%nat) by lia.
  split_and!.
  - intros rng fuel max_turns Hfuel Hmax.
    destruct (Game_init_enough shuffle template rng Hshuffle Hlen) as (game & rng' & Hinit).
    pose proof (Game_init_lands _ _ _ _ _ Hshuffle Hlands Hinit) as Hinv.
    destruct (play_until_commander_lands fuel 0 game max_turns Hinv) as [game' Hrun];
      [lia|done|lia|].
    by exists game, rng', game'.
  - intros rng fuel trials Hfuel Htrials. unfold V003.run_simulation.
    rewrite collect_results_outcomes.
    rewrite (trial_outcomes_lands shuffle fuel template _ rng Hshuffle Hlands Hlen Hfuel).
    cbn [obind mbind Outcome_bind app]. rewrite kept_replicate by lia.
    exists (Counter (replicate (Z.to_nat trials) 6)).
    destruct (replicate (Z.to_nat trials) 6) as [|t results] eqn:Hres.
    + exists None. split.
      * cbn [mbind Outcome_bind obind]. do 2 f_equal.
        apply (f_equal length) in Hres. rewrite length_replicate in Hres. simpl in *. lia.
      * intros t. rewrite <- Hres, Counter_get_replicate.
        apply (f_equal length) in Hres. rewrite length_replicate in Hres. simpl in Hres.
        destruct (decide (t = 6)); lia.
    + exists (Some (Qmake (sum_list (t :: results)) (Pos.of_nat (length (t :: results))))).
      split.
      * cbn [mbind Outcome_bind obind mean]. do 2 f_equal.
        apply (f_equal length) in Hres. rewrite length_replicate in Hres. lia.
      * intros u. rewrite <- Hres, Counter_get_replicate.
        destruct (decide (u = 6)); lia.
  - intros rng fuel max_turns Hfuel Hmax.
    exists Example.opening_V001, (shuffle1 rng (V001.build_deck 100 0 0)).2, Example.turn6_V001.
    split; [by apply Game_init_lands_V001|by apply play_until_commander_lands_V001].
  - intros rng fuel trials Hfuel Htrials. unfold V001.run_simulation.
    rewrite collect_results_outcomes_V001.
    rewrite (trial_outcomes_lands_V001 shuffle1 fuel _ rng Hshuffle1 Hfuel).
    cbn [obind mbind Outcome_bind app]. rewrite kept_replicate by lia.
    destruct (replicate (Z.to_nat trials) 6) as [|t results] eqn:Hres.
    + apply (f_equal length) in Hres. rewrite length_replicate in Hres. simpl in Hres. lia.
    + cbn [mean mbind Outcome_bind obind]. eexists _, _. split; [reflexivity|].
      intros u. rewrite <- Hres, Counter_get_replicate. destruct (decide (u = 6)); lia.
Qed.

(** ** What [available_mana] counts (V003) *)

Lemma mana_pool_producers (bf : list (V003.Card * Z)) (now : Z) :
  V003.mana_pool bf now
  = foldl (λ total entry, dict_add_into total (V003.produce_mana entry.1))
          ∅ (Spec.producers bf now).
Proof.
  unfold V003.mana_pool. generalize (∅ : gmap string Z) as acc.
  induction bf as [|[card played] bf IH]; intros acc; [done|].
  unfold Spec.producers. rewrite filter_cons. cbn [foldl fst snd].
  destruct (V003.can_produce_mana card played now) eqn:Hcan.
  - rewrite decide_True by done. cbn [foldl fst]. apply IH.
  - rewrite decide_False by (by intros ?). apply IH.
Qed.

(** [available_mana] is computed from the battlefield and the current
    turn alone; it adds up [produce_mana] over exactly the permanents
    that can produce mana this turn, so that a land that enters tapped
    and a dork contribute nothing on the turn they are played. *)
Theorem available_mana_sums_producers (self : V003.Game) :
  V003.available_mana self
    = foldl (λ total entry, dict_add_into total (V003.produce_mana entry.1))
            ∅ (Spec.producers (V003.battlefield self) (V003.turn self))
  ∧ (∀ color, dict_get0 (V003.available_mana self) color
              = Spec.total_of (λ entry, dict_get0 (V003.produce_mana entry.1) color)
                              (Spec.producers (V003.battlefield self) (V003.turn self)))
  ∧ (∀ bf1 bf2 card now,
       (V003.ctype card = "land" ∧ V003.enters_tapped card = true)
       ∨ V003.ctype card = "dork" →
       V003.mana_pool (bf1 ++ (card, now) :: bf2) now = V003.mana_pool (bf1 ++ bf2) now).
Proof.
  split_and!.
  - apply mana_pool_producers.
  - intros color. apply mana_pool_get0.
  - intros bf1 bf2 card now Hcard. apply mana_pool_skip. unfold V003.can_produce_mana.
    destruct Hcard as [[-> ->]| ->]; simpl.
    + by rewrite Z.eqb_refl.
    + rewrite Z.gtb_ltb. apply Z.ltb_irrefl.
Qed.

(** ** V004: the mana count and the shared deck *)

Section V004_facts.
Import V004.
Context {RNG : Type} (shuffle : RNG → list nat → list nat * RNG).

(** After [simulate_game] the caller's deck list is in the order the
    shuffle produced. *)
Lemma simulate_game_deck (fuel : nat) (heap heap' : list Card) (deck deck' : list nat)
    (commander_cost max_turns : Z) (rng rng' : RNG) (result : option Z) :
  simulate_game shuffle fuel heap deck commander_cost max_turns rng
    = Ok (result, deck', heap', rng') →
  deck' = (shuffle rng deck).1.
Proof.
  unfold simulate_game. destruct (shuffle rng deck) as [shuffled rng1].
  destruct (turn_loop fuel _ commander_cost max_turns) as [[r s']|e|];
    cbn [mbind Outcome_bind obind fst]; [|discriminate|discriminate].
  by intros [= _ <- _ _].
Qed.
End V004_facts.

(** C3 (V004): the land of the one-card deck enters tapped on turn 1 and
    is left out of [mana_sources], yet "Calculate total mana" counts it
    on that very turn, and the trial casts a commander of cost 1 on
    turn 1. *)
Theorem C3_V004_counts_tapped_land :
  V004.play (Example.temple_heap !!! 0%nat) [] 1 = true
  ∧ V004.battlefield Example.temple_turn1 = [0%nat]
  ∧ V004.mana_sources Example.temple_turn1 = []
  ∧ V004.total_mana Example.temple_turn1 = 1
  ∧ V004.simulate_game shuffle_id 10 Example.temple_heap Example.temple_deck 1 15 tt
    = Ok (Some 1, Example.temple_deck, Example.temple_heap, tt).
Proof. vm_compute. split_and!; reflexivity. Qed.

(** C8 (V004): [simulate_game] shuffles the list it is given, so the
    deck that [run_simulations] shares between the trials comes back in
    the shuffled order; and a mana dork that was cast comes back with
    [summoning_sick] cleared.  With the shuffle that reverses, the deck
    [0; 1; 2] is [2; 1; 0] after one trial and the Lead Myr object has
    changed, and one trial of [run_simulations] leaves the deck of
    [build_deck()] reversed. *)
Theorem C8_V004_mutates_template :
  (∀ (RNG : Type) (shuffle : RNG → list nat → list nat * RNG) fuel heap deck
     commander_cost max_turns rng result deck' heap' rng',
      V004.simulate_game shuffle fuel heap deck commander_cost max_turns rng
        = Ok (result, deck', heap', rng') →
      deck' = (shuffle rng deck).1)
  ∧ V004.simulate_game shuffle_rev 10 Example.myr_heap Example.myr_deck 6 2 tt
    = Ok (None, [2; 1; 0]%nat,
          alter (V004.set_summoning_sick false) 1%nat Example.myr_heap, tt)
  ∧ V004.summoning_sick (Example.myr_heap !!! 1%nat) = true
  ∧ V004.summoning_sick
      (alter (V004.set_summoning_sick false) 1%nat Example.myr_heap !!! 1%nat) = false
  ∧ match V004.run_simulations shuffle_rev 200 1 tt with
    | Ok (_, deck', _) => deck'
    | _ => []
    end = reverse (seq 0 100).
Proof.
  split; [intros; by eapply simulate_game_deck|].
  vm_compute. split_and!; reflexivity.
Qed.

(** ** The average over no successful trial *)

Section V003_no_data.
Import V003.
Context {RNG : Type} (shuffle : RNG → list Card → list Card * RNG).

Lemma Game_init_raises (template : list Card) (rng : RNG) (e : PyExn) :
  Game_init shuffle template rng = Raise e → e = IndexError.
Proof.
  unfold Game_init. destruct (shuffle rng template) as [shuffled rng1].
  generalize 7%nat as n. intros n.
  assert (Hpop : ∀ e', pop_many n shuffled = Raise e' → e' = IndexError).
  { revert shuffled. induction n as [|n IH]; intros l e'; [discriminate|].
    rewrite pop_many_S.
    destruct (list_pop l) as [[x l']|]; [|intros Heq; congruence].
    destruct (pop_many n l') as [[popped rest]|e2|] eqn:Hrec;
      cbn [mbind Outcome_bind obind]; try discriminate.
    intros Heq. assert (e2 = e') as -> by congruence. by eapply IH. }
  destruct (pop_many n shuffled) as [[popped rest]|e2|] eqn:Hrec;
    cbn [mbind Outcome_bind obind]; try discriminate.
  intros Heq. assert (e2 = e) as -> by congruence. by eapply Hpop.
Qed.

Lemma collect_results_raises (fuel : nat) (template : list Card)
    (commander_cost : gmap string Z) (trials : nat) (rng : RNG) (results : list Z)
    (e : PyExn) :
  collect_results shuffle fuel template commander_cost trials rng results = Raise e →
  e = IndexError.
Proof.
  revert rng results. induction trials as [|trials IH]; intros rng results;
    cbn [collect_results]; [discriminate|].
  destruct (Game_init shuffle template rng) as [[game rng1]|e1|] eqn:Hinit;
    cbn [mbind Outcome_bind obind]; try discriminate.
  - destruct (play_until_commander fuel game commander_cost 20) as [[turn_cast game']|e2|]
      eqn:Hplay; cbn [mbind Outcome_bind obind]; try discriminate.
    + apply IH.
    + by apply play_until_commander_never_raises in Hplay.
  - intros Heq. assert (e1 = e) as -> by congruence. by eapply Game_init_raises.
Qed.

(** [run_simulation] never divides by zero: without a successful trial
    the average is [None], the count 0 and the distribution empty. *)
Lemma run_simulation_no_data (fuel : nat) (template : list Card)
    (commander_cost : gmap string Z) (trials : Z) (rng : RNG) :
  run_simulation shuffle fuel template commander_cost trials rng ≠ Raise ZeroDivisionError
  ∧ ∀ counts avg_turn n,
      run_simulation shuffle fuel template commander_cost trials rng
        = Ok (counts, avg_turn, n) →
      (n = 0 ↔ avg_turn = None) ∧ (n = 0 → counts = ∅).
Proof.
  unfold run_simulation.
  destruct (collect_results shuffle fuel template commander_cost (Z.to_nat trials) rng [])
    as [results|e|] eqn:Hres; cbn [mbind Outcome_bind obind].
  - destruct results as [|t results]; cbn [mean mbind Outcome_bind obind].
    + split; [discriminate|]. intros counts avg_turn n [= <- <- <-]. done.
    + split; [discriminate|]. intros counts avg_turn n [= <- <- <-].
      split; [|simpl; lia]. split; [simpl; lia|discriminate].
  - apply collect_results_raises in Hres as ->. split; [discriminate|]. discriminate.
  - split; discriminate.
Qed.
End V003_no_data.

Lemma kept_replicate_None (n : nat) : Spec.kept (replicate n None) = [].
Proof. unfold Spec.kept. induction n as [|n IH]; [done|exact IH]. Qed.

(** *** Scenario B: an unreachable cost *)

Section ScenarioB.
Import V003.

Lemma take_turn_lands_only (fuel : nat) (self : Game) :
  Spec.lands_only self → (1 ≤ fuel)%nat →
  ∃ self', take_turn fuel self = Ok self' ∧ Spec.lands_only self'
           ∧ turn self' = turn self + 1.
Proof.
  intros (Hdeck & Hhand & Hbf & Hlen) Hfuel.
  unfold take_turn.
  set (drawn := draw (begin_turn self)).
  assert (Hdrawn : Forall Spec.basic_land (deck drawn) ∧ Forall Spec.basic_land (hand drawn)
                   ∧ battlefield drawn = battlefield self ∧ turn drawn = turn self + 1).
  { subst drawn. unfold draw, begin_turn. simpl.
    destruct (list_pop (deck self)) as [[card rest]|] eqn:Hpop; simpl.
    - apply list_pop_Some in Hpop. rewrite Hpop in Hdeck.
      apply Forall_app in Hdeck as [Hrest Hcard].
      split_and!; try done. by apply Forall_app.
    - split_and!; done. }
  destruct Hdrawn as (Hdeck1 & Hhand1 & Hbf1 & Hturn1).
  set (landed := (play_land drawn).2).
  assert (Hlanded : Spec.lands_only landed ∧ turn landed = turn self + 1).
  { subst landed. unfold play_land. destruct (lands_played drawn =? 0).
    - destruct (extract_first _ (hand drawn)) as [[card hand']|] eqn:Hland.
      + apply extract_first_is_first in Hland as (l1 & l2 & Hsplit & -> & _).
        rewrite Hsplit in Hhand1.
        apply Forall_app in Hhand1 as [Hl1 Hcard]. apply Forall_cons in Hcard as [Hcard Hl2].
        unfold Spec.lands_only. simpl. rewrite Hbf1, Hturn1, length_app. simpl.
        split_and!; try done.
        * by apply Forall_app.
        * apply Forall_app. split; [done|]. by rewrite Forall_singleton.
        * lia.
      + unfold Spec.lands_only. simpl. rewrite Hbf1, Hturn1. split_and!; try done. lia.
    - unfold Spec.lands_only. simpl. rewrite Hbf1, Hturn1. split_and!; try done. lia. }
  destruct Hlanded as [(Hdeck2 & Hhand2 & Hbf2 & Hlen2) Hturn2].
  destruct fuel as [|fuel]; [lia|]. unfold play_permanents. cbn [while_played].
  assert (Hnone : play_permanents_pass landed = None).
  { unfold play_permanents_pass.
    assert (Hno : extract_first
                    (λ card, is_permanent card && can_pay_cost landed (cost card))
                    (hand landed) = None).
    { apply extract_first_None. eapply Forall_impl; [exact Hhand2|].
      intros c Hc. simpl. by rewrite (basic_land_not_permanent _ Hc). }
    by rewrite Hno. }
  rewrite Hnone. exists landed. split_and!; [done| |done]. by split_and!.
Qed.

(** A cost of more colourless mana than the turn limit is never met. *)
Lemma play_until_commander_unreachable (fuel : nat) (self : Game) (n max_turns : Z) :
  Spec.lands_only self → max_turns < n →
  (Z.to_nat (max_turns - turn self) < fuel)%nat →
  ∃ self', play_until_commander fuel self {["colorless" := n]} max_turns = Ok (None, self').
Proof.
  revert self. induction fuel as [|fuel IH]; intros self Hinv Hn Hfuel; [lia|].
  simpl. destruct (Z.ltb_spec (turn self) max_turns) as [Hlt|Hge]; [|by eauto].
  destruct (take_turn_lands_only fuel self Hinv) as (self1 & -> & Hinv1 & Hturn1); [lia|].
  simpl. pose proof Hinv1 as (_ & _ & Hbf1 & Hlen1).
  rewrite (can_cast_commander_lands _ _ Hbf1).
  destruct (Z.geb_spec (Z.of_nat (length (battlefield self1))) (Z.max 0 n)) as [Hcast|_];
    [lia|].
  apply IH; [done|done|lia].
Qed.

Context {RNG : Type} (shuffle : RNG → list Card → list Card * RNG).

Lemma trial_outcomes_unreachable (fuel : nat) (template : list Card) (n : Z)
    (trials : nat) (rng : RNG) :
  Spec.permutes shuffle → Forall Spec.basic_land template → (7 ≤ length template)%nat →
  20 < n → (20 < fuel)%nat →
  trial_outcomes shuffle fuel template {["colorless" := n]} trials rng
  = Ok (replicate trials None).
Proof.
  intros Hperm Hall Hlen Hn Hfuel. revert rng.
  induction trials as [|trials IH]; intros rng; simpl; [done|].
  destruct (Game_init_enough shuffle template rng Hperm Hlen) as (game & rng1 & Hinit).
  rewrite Hinit. simpl.
  pose proof (Game_init_lands _ _ _ _ _ Hperm Hall Hinit) as (Hd & Hh & Hb & Hl & Ht & _).
  destruct (play_until_commander_unreachable fuel game n 20) as [game' ->];
    [split_and!; try done; lia|done|rewrite Ht; simpl; lia|].
  simpl. by rewrite IH.
Qed.

(** Scenario B in V003: every trial times out and [run_simulation]
    returns the empty distribution, no average and the count 0. *)
Theorem run_simulation_unreachable (fuel : nat) (template : list Card) (trials : Z)
    (rng : RNG) :
  Spec.permutes shuffle → Forall Spec.basic_land template → length template = 100%nat →
  (20 < fuel)%nat →
  trial_outcomes shuffle fuel template {["colorless" := 101]} (Z.to_nat trials) rng
    = Ok (replicate (Z.to_nat trials) None)
  ∧ run_simulation shuffle fuel template {["colorless" := 101]} trials rng
    = Ok (∅, None, 0).
Proof.
  intros Hperm Hall Hlen Hfuel.
  assert (Hout : trial_outcomes shuffle fuel template {["colorless" := 101]}
                   (Z.to_nat trials) rng = Ok (replicate (Z.to_nat trials) None)).
  { apply trial_outcomes_unreachable; try done; lia. }
  split; [exact Hout|]. unfold run_simulation.
  rewrite collect_results_outcomes, Hout. cbn [obind app].
  rewrite kept_replicate_None. reflexivity.
Qed.
End ScenarioB.

(** C5 (V001): [run_simulation] divides [sum(results)] by [len(results)]
    without a guard.  With no trial at all, and with two trials of a deck
    of a hundred fillers (no land, so both trials time out), the list of
    successful turns is empty and the call raises ZeroDivisionError. *)
Theorem C5_V001_average_divides_by_zero :
  (∀ (RNG : Type) (shuffle : RNG → list V001.Card → list V001.Card * RNG)
     fuel lands rocks fillers rng,
      V001.run_simulation shuffle fuel 0 lands rocks fillers rng = Raise ZeroDivisionError)
  ∧ V001.trial_outcomes shuffle_id 30 (V001.build_deck 0 0 100) 2 tt = Ok [None; None]
  ∧ V001.run_simulation shuffle_id 30 2 0 0 100 tt = Raise ZeroDivisionError.
Proof.
  split; [reflexivity|]. vm_compute. split; reflexivity.
Qed.

(** ** Malformed configurations *)

Lemma play_until_commander_past_limit (fuel : nat) (self : V003.Game)
    (commander_cost : gmap string Z) (max_turns : Z) :
  max_turns ≤ V003.turn self →
  V003.play_until_commander fuel self commander_cost max_turns = Ok (None, self).
Proof.
  intros Hle. destruct fuel; simpl;
    by destruct (Z.ltb_spec (V003.turn self) max_turns) as [?|_]; [lia|].
Qed.

(** C9, as the code has it: no configuration is rejected at
    construction.  [build_deck] reads a negative count as zero; with a
    trial count of zero or less [run_simulation] runs no trial and
    returns the empty distribution, no average and the count 0; with a
    turn limit of zero or less the engine returns [None] at once; and a
    deck of fewer than seven cards, the empty deck included, raises
    IndexError when the first trial is constructed. *)
Theorem C9_malformed_configuration {RNG : Type}
    (shuffle : RNG → list V003.Card → list V003.Card * RNG) :
  (∀ lands rocks fillers,
      V001.build_deck lands rocks fillers
        = V001.build_deck (Z.max 0 lands) (Z.max 0 rocks) (Z.max 0 fillers))
  ∧ (∀ fuel template commander_cost trials rng, trials ≤ 0 →
      V003.run_simulation shuffle fuel template commander_cost trials rng = Ok (∅, None, 0))
  ∧ (∀ fuel template commander_cost max_turns rng game rng',
      V003.Game_init shuffle template rng = Ok (game, rng') → max_turns ≤ 0 →
      V003.play_until_commander fuel game commander_cost max_turns = Ok (None, game))
  ∧ (∀ fuel template commander_cost trials rng,
      Spec.permutes shuffle → (length template < 7)%nat → 1 ≤ trials →
      V003.run_simulation shuffle fuel template commander_cost trials rng
        = Raise IndexError).
Proof.
  split_and!.
  - intros lands rocks fillers. unfold V001.build_deck.
    by rewrite !Z2Nat.inj_max, !Nat.max_0_l.
  - intros fuel template commander_cost trials rng Htrials. unfold V003.run_simulation.
    replace (Z.to_nat trials) with 0%nat by lia. reflexivity.
  - intros fuel template commander_cost max_turns rng game rng' Hinit Hmax.
    apply play_until_commander_past_limit.
    apply Game_init_Ok in Hinit as (-> & _). done.
  - intros fuel template commander_cost trials rng Hperm Hlen Htrials.
    unfold V003.run_simulation.
    destruct (Z.to_nat trials) as [|n] eqn:Hn; [lia|].
    cbn [V003.collect_results]. by rewrite (Game_init_short shuffle _ _ Hperm Hlen).
Qed.

(** C9 does not hold as the specification words it: with a trial count of -1 the
    harness returns normally, with a turn limit of 0 the engine returns
    [None], with a count of -3 lands the deck is built without them, and
    the empty deck fails with an IndexError of the first trial, not with
    a configuration error. *)
Lemma C9_counterexample :
  V003.run_simulation shuffle_rev 40 Example.deck Example.commander_cost (-1) tt
    = Ok (∅, None, 0)
  ∧ V003.play_until_commander 40 Example.opening Example.commander_cost 0
    = Ok (None, Example.opening)
  ∧ V001.build_deck (-3) 0 7 = replicate 7 V001.filler_card
  ∧ V003.run_simulation shuffle_rev 40 [] Example.commander_cost 1 tt = Raise IndexError.
Proof. vm_compute. split_and!; reflexivity. Qed.

(** ** The theorems at concrete inputs *)

(** The battlefield of [Example.midgame] satisfies the data model, and
    [C1_can_cast_commander] applies to it. *)
Lemma C1_witness :
  Spec.reducers_only (V003.battlefield Example.midgame)
  ∧ (V003.can_cast_commander Example.midgame Example.commander_cost = true
     ↔ (∀ color need,
          V003.apply_reductions Example.commander_cost
            (V003.gather_reductions (V003.battlefield Example.midgame)) !! color = Some need →
          color ≠ "colorless" →
          need ≤ dict_get0 (V003.available_mana Example.midgame) color)
       ∧ sum_values (V003.apply_reductions Example.commander_cost
                       (V003.gather_reductions (V003.battlefield Example.midgame)))
         ≤ sum_values (V003.available_mana Example.midgame)).
Proof.
  assert (Hmodel : Spec.reducers_only (V003.battlefield Example.midgame)).
  { unfold Spec.reducers_only.
    repeat (constructor;
            [first [intros _; reflexivity | intros Hne; exfalso; apply Hne; reflexivity]|]).
    constructor. }
  split; [exact Hmodel|].
  exact (proj2 (proj2 (proj2 (proj2 (proj2
           (C1_can_cast_commander Example.midgame Example.commander_cost Hmodel)))))).
Defined.

(** A Temple played this turn cannot produce mana, a Mind Stone played
    this turn can, and the Llanowar Elves can from the turn after. *)
Lemma C2_witness :
  V003.can_produce_mana Example.temple 3 3 = false
  ∧ V003.can_produce_mana Example.mind_stone 2 2 = true
  ∧ V003.can_produce_mana Example.llanowar_elves 1 2 = true.
Proof.
  split_and!.
  - exact (proj2 (proj1 (C2_can_produce_mana Example.temple 3 3) eq_refl)
                 (conj eq_refl eq_refl)).
  - exact (proj1 (proj2 (C2_can_produce_mana Example.mind_stone 2 2)) eq_refl).
  - exact (proj2 (proj1 (proj2 (proj2 (C2_can_produce_mana Example.llanowar_elves 1 2)))
                        eq_refl) eq_refl).
Defined.

(** Three trials of a hundred Wastes, reversed by the shuffle, against
    {colorless: 6}: all three cast on turn 6. *)
Lemma C4_witness :
  Spec.permutes (@shuffle_rev V003.Card)
  ∧ length Example.lands100 = 100%nat
  ∧ Forall Spec.basic_land Example.lands100
  ∧ ∃ counts avg_turn,
      V003.run_simulation shuffle_rev 7 Example.lands100 Example.six_colorless 3 tt
        = Ok (counts, avg_turn, 3)
      ∧ Counter_get counts 6 = 3 ∧ Counter_get counts 5 = 0.
Proof.
  assert (Hlands : Forall Spec.basic_land Example.lands100).
  { apply Forall_replicate. repeat split; reflexivity. }
  split_and!; [apply shuffle_rev_permutes|reflexivity|exact Hlands|].
  destruct (C4_lands_cast_on_turn_6 shuffle_rev shuffle_rev Example.lands100
              shuffle_rev_permutes shuffle_rev_permutes eq_refl Hlands)
    as (_ & Hharness & _).
  destruct (Hharness tt 7%nat 3) as (counts & avg_turn & Hrun & Hcounts); [lia|lia|].
  exists counts, avg_turn. split_and!; [exact Hrun|exact (Hcounts 6)|exact (Hcounts 5)].
Defined.

(** The example game ends within the fuel the theorem asks for. *)
Lemma C6_witness :
  (Z.to_nat (20 - V003.turn Example.opening) + length (V003.hand Example.opening)
   + length (V003.deck Example.opening) < 40)%nat
  ∧ ∃ result self',
      V003.play_until_commander 40 Example.opening Example.commander_cost 20
        = Ok (result, self')
      ∧ V003.turn self' - V003.turn Example.opening
        ≤ Z.max 0 (20 - V003.turn Example.opening)
      ∧ (result = None → V003.turn self' = Z.max (V003.turn Example.opening) 20).
Proof.
  assert (Hfuel : (Z.to_nat (20 - V003.turn Example.opening)
                   + length (V003.hand Example.opening)
                   + length (V003.deck Example.opening) < 40)%nat) by (simpl; lia).
  split; [exact Hfuel|].
  exact (proj1 (C6_trial_terminates Example.opening Example.commander_cost 20 40 Hfuel)).
Defined.

(** The example deck, reversed by the shuffle, after its first turn. *)
Lemma C7_witness :
  Spec.permutes (@shuffle_rev V003.Card)
  ∧ V003.Game_init shuffle_rev Example.deck tt = Ok (Example.opening, tt)
  ∧ ∃ self,
      V003.take_turn 20 Example.opening = Ok self
      ∧ V003.deck self ++ V003.hand self ++ map fst (V003.battlefield self) ≡ₚ Example.deck
      ∧ (length (V003.deck self) + length (V003.hand self)
         + length (V003.battlefield self) = length Example.deck)%nat.
Proof.
  assert (Hinit : V003.Game_init shuffle_rev Example.deck tt = Ok (Example.opening, tt))
    by (vm_compute; reflexivity).
  split_and!; [apply shuffle_rev_permutes|exact Hinit|].
  destruct (take_turn_terminates 20 Example.opening) as [self Hturn]; [simpl; lia|].
  exists self. split; [exact Hturn|].
  apply (proj1 (C7_zone_conservation shuffle_rev Example.deck tt tt Example.opening
                  shuffle_rev_permutes Hinit)).
  eapply Spec.boundary_next; [apply Spec.boundary_start|exact Hturn].
Defined.

(** The configurations of [C9_counterexample] are instances of the
    amended statement. *)
Lemma C9_witness :
  V003.run_simulation shuffle_rev 40 Example.deck Example.commander_cost (-1) tt
    = Ok (∅, None, 0)
  ∧ V003.run_simulation shuffle_rev 40 [] Example.commander_cost 1 tt = Raise IndexError.
Proof.
  pose proof (C9_malformed_configuration (@shuffle_rev V003.Card))
    as (_ & Htrials & _ & Hdeck).
  split.
  - apply Htrials. lia.
  - apply Hdeck; [apply shuffle_rev_permutes|simpl; lia|lia].
Defined.

(** The example game returns a turn within the limit. *)
Lemma C10_witness :
  V003.Game_init shuffle_rev Example.deck tt = Ok (Example.opening, tt)
  ∧ ∃ result game',
      V003.play_until_commander 40 Example.opening Example.commander_cost 20
        = Ok (result, game')
      ∧ Spec.in_range 20 result ∧ result ≠ Some 0.
Proof.
  assert (Hinit : V003.Game_init shuffle_rev Example.deck tt = Ok (Example.opening, tt))
    by (vm_compute; reflexivity).
  split; [exact Hinit|].
  destruct (C10_result_range shuffle_rev Example.deck Example.commander_cost tt tt
              Example.opening Hinit) as (Hterm & Hrange & _).
  destruct (Hterm 40%nat 20) as (result & game' & Hrun); [simpl; lia|].
  exists result, game'. split; [exact Hrun|].
  destruct (Hrange _ _ _ _ Hrun) as (Hin & Hnz & _). by split.
Defined.

(** Five trials of Scenario B with the shuffle that reverses. *)
Lemma run_simulation_unreachable_witness :
  V003.run_simulation shuffle_rev 30 Example.lands100 {["colorless" := 101]} 5 tt
  = Ok (∅, None, 0).
Proof.
  refine (proj2 (run_simulation_unreachable shuffle_rev 30 Example.lands100 5 tt
                   shuffle_rev_permutes _ eq_refl _)).
  - apply Forall_replicate. repeat split; reflexivity.
  - lia.
Defined.

(** * Further properties of the code *)

(** ** Sums over dictionaries *)

Lemma sum_values_bump (total : gmap string Z) (color : string) (amount : Z) :
  sum_values (<[color := dict_get0 total color + amount]> total) = sum_values total + amount.
Proof.
  unfold dict_get0. destruct (total !! color) as [x|] eqn:Hlook; simpl.
  - rewrite <- (insert_delete_id total color x Hlook) at 2.
    rewrite <- (insert_delete_eq total).
    rewrite !sum_values_insert by apply lookup_delete_eq. lia.
  - rewrite sum_values_insert by done. lia.
Qed.

Lemma dict_add_into_insert (total d : gmap string Z) (color : string) (amount : Z) :
  d !! color = None →
  dict_add_into total (<[color := amount]> d)
  = <[color := dict_get0 (dict_add_into total d) color + amount]> (dict_add_into total d).
Proof.
  intros Hfresh. unfold dict_add_into at 1.
  rewrite map_fold_insert_L; [done| |done].
  intros j1 j2 z1 z2 y Hne _ _.
  rewrite !lookup_insert_ne by done. by apply insert_insert_ne.
Qed.

(** Adding a dictionary into a total adds its sum to the sum. *)
Lemma sum_values_dict_add_into (total d : gmap string Z) :
  sum_values (dict_add_into total d) = sum_values total + sum_values d.
Proof.
  induction d as [|color amount d Hfresh IH] using map_ind.
  - rewrite dict_add_into_empty, sum_values_empty. lia.
  - rewrite dict_add_into_insert by done.
    rewrite sum_values_bump, IH, sum_values_insert by done. lia.
Qed.

Lemma sum_values_mana_pool (bf : list (V003.Card * Z)) (now : Z) :
  sum_values (V003.mana_pool bf now)
  = Spec.total_of (λ entry, sum_values (V003.produce_mana entry.1)) (Spec.producers bf now).
Proof.
  rewrite mana_pool_producers. generalize (Spec.producers bf now) as l. intros l.
  assert (Hgen : ∀ acc,
             sum_values (foldl (λ total entry,
                                  dict_add_into total (V003.produce_mana entry.1)) acc l)
             = sum_values acc
               + Spec.total_of (λ entry, sum_values (V003.produce_mana entry.1)) l).
  { induction l as [|entry l IH]; intros acc; simpl.
    - unfold Spec.total_of. simpl. lia.
    - rewrite IH, sum_values_dict_add_into. unfold Spec.total_of. simpl. lia. }
  rewrite Hgen, sum_values_empty. lia.
Qed.

Lemma nonneg_dict_get0 (d : gmap string Z) (color : string) :
  map_Forall (λ _ amount, 0 ≤ amount) d → 0 ≤ dict_get0 d color.
Proof.
  intros Hall. unfold dict_get0. destruct (d !! color) as [x|] eqn:Hlook; simpl; [|lia].
  exact (Hall _ _ Hlook).
Qed.

Lemma nonneg_sum_values (d : gmap string Z) :
  map_Forall (λ _ amount, 0 ≤ amount) d → 0 ≤ sum_values d.
Proof.
  induction d as [|color amount d Hfresh IH] using map_ind; intros Hall.
  - rewrite sum_values_empty. lia.
  - rewrite sum_values_insert by done.
    apply map_Forall_insert in Hall as [Hamount Hrest]; [|done].
    specialize (IH Hrest). lia.
Qed.

(** ** Mana from turn to turn (V003) *)

Lemma can_produce_mana_later (card : V003.Card) (played now later : Z) :
  played ≤ now → now ≤ later →
  V003.can_produce_mana card played now = true →
  V003.can_produce_mana card played later = true.
Proof.
  intros Hplayed Hlater. unfold V003.can_produce_mana.
  destruct (String.eqb (V003.ctype card) "land").
  - destruct (V003.enters_tapped card); simpl; [|done].
    destruct (Z.eqb_spec played now) as [->|Hne]; simpl; [discriminate|].
    intros _. destruct (Z.eqb_spec played later) as [->|_]; [lia|done].
  - destruct (String.eqb (V003.ctype card) "rock"); [done|].
    destruct (String.eqb (V003.ctype card) "dork"); [|done].
    rewrite !Z.gtb_gt. lia.
Qed.

Lemma total_of_producers_later (f : V003.Card * Z → Z) (bf : list (V003.Card * Z))
    (now later : Z) :
  now ≤ later → Forall (λ entry, entry.2 ≤ now) bf → Forall (λ entry, 0 ≤ f entry) bf →
  Spec.total_of f (Spec.producers bf now) ≤ Spec.total_of f (Spec.producers bf later).
Proof.
  intros Hlater Hplayed Hpos. induction bf as [|[card played] bf IH]; [done|].
  apply Forall_cons in Hplayed as [Hp Hplayed]. apply Forall_cons in Hpos as [Hf Hpos].
  specialize (IH Hplayed Hpos). simpl in Hp.
  unfold Spec.producers in *. rewrite !filter_cons. cbn [fst snd].
  destruct (V003.can_produce_mana card played now) eqn:Hnow.
  - rewrite (can_produce_mana_later _ _ _ _ Hp Hlater Hnow).
    rewrite !decide_True by done. unfold Spec.total_of in *. simpl. lia.
  - rewrite (decide_False (P := false = true)) by (by intros ?).
    destruct (V003.can_produce_mana card played later).
    + rewrite decide_True by done. unfold Spec.total_of in *. simpl. lia.
    + rewrite decide_False by (by intros ?). done.
Qed.

(** A permanent that can produce mana on a turn can do so on every later
    turn, so the mana a battlefield gives, colour by colour and in total,
    never decreases from one turn to a later one (for amounts that are
    not negative and permanents played by the earlier turn). *)
Theorem mana_never_decreases (bf : list (V003.Card * Z)) (now later : Z)
    (Hturn : now ≤ later)
    (Hplayed : Forall (λ entry, entry.2 ≤ now) bf)
    (Hamounts : Forall (λ entry, map_Forall (λ _ amount, 0 ≤ amount)
                                            (V003.produce_mana entry.1)) bf) :
  Forall (λ entry, V003.can_produce_mana entry.1 entry.2 now = true →
                   V003.can_produce_mana entry.1 entry.2 later = true) bf
  ∧ (∀ color, dict_get0 (V003.mana_pool bf now) color
              ≤ dict_get0 (V003.mana_pool bf later) color)
  ∧ sum_values (V003.mana_pool bf now) ≤ sum_values (V003.mana_pool bf later).
Proof.
  split_and!.
  - eapply Forall_impl; [exact Hplayed|]. intros [card played] Hp. simpl in *.
    by apply can_produce_mana_later.
  - intros color. rewrite !mana_pool_get0.
    apply total_of_producers_later; [done|done|].
    eapply Forall_impl; [exact Hamounts|]. intros entry Hentry. simpl in *.
    by apply nonneg_dict_get0.
  - rewrite !sum_values_mana_pool.
    apply total_of_producers_later; [done|done|].
    eapply Forall_impl; [exact Hamounts|]. intros entry Hentry. simpl in *.
    by apply nonneg_sum_values.
Qed.

(** ** The land drop (V003) *)

Lemma play_land_cases (self : V003.Game) :
  (∃ before card after,
      V003.lands_played self = 0
      ∧ V003.hand self = before ++ card :: after
      ∧ Forall (λ c, V003.ctype c ≠ "land") before
      ∧ V003.ctype card = "land"
      ∧ V003.play_land self
        = (true, {| V003.turn := V003.turn self; V003.deck := V003.deck self;
                    V003.hand := before ++ after;
                    V003.battlefield := V003.battlefield self ++ [(card, V003.turn self)];
                    V003.lands_played := 1 |}))
  ∨ (V003.play_land self = (false, self)
     ∧ (V003.lands_played self ≠ 0
        ∨ Forall (λ c, V003.ctype c ≠ "land") (V003.hand self))).
Proof.
  unfold V003.play_land.
  destruct (Z.eqb_spec (V003.lands_played self) 0) as [Hzero|Hnz]; [|right; by split; [|left]].
  destruct (extract_first _ (V003.hand self)) as [[card hand']|] eqn:Hland.
  - left. pose proof (extract_first_is_first _ _ _ _ Hland) as (l1 & l2 & Hsplit & -> & Hl1).
    pose proof (extract_first_Some _ _ _ _ Hland) as (Hcard & _).
    apply String.eqb_eq in Hcard. exists l1, card, l2. split_and!; try done.
    eapply Forall_impl; [exact Hl1|]. intros c Hc. simpl in Hc.
    by apply String.eqb_neq in Hc.
  - right. split; [done|]. right. apply extract_first_None in Hland.
    eapply Forall_impl; [exact Hland|]. intros c Hc. simpl in Hc.
    by apply String.eqb_neq in Hc.
Qed.

(** [play_land] plays a land exactly when none was played this turn and
    the hand holds one; it then moves the first land of the hand, in hand
    order, to the end of the battlefield with the current turn, and
    otherwise changes nothing; called again in the same turn it plays
    nothing. *)
Theorem play_land_once_per_turn (self : V003.Game) :
  ((V003.play_land self).1 = true
   ↔ V003.lands_played self = 0 ∧ Exists (λ card, V003.ctype card = "land") (V003.hand self))
  ∧ ((V003.play_land self).1 = true →
     ∃ before card after,
       V003.hand self = before ++ card :: after
       ∧ Forall (λ c, V003.ctype c ≠ "land") before
       ∧ V003.ctype card = "land"
       ∧ (V003.play_land self).2
         = {| V003.turn := V003.turn self; V003.deck := V003.deck self;
              V003.hand := before ++ after;
              V003.battlefield := V003.battlefield self ++ [(card, V003.turn self)];
              V003.lands_played := 1 |})
  ∧ ((V003.play_land self).1 = false → (V003.play_land self).2 = self)
  ∧ V003.play_land (V003.play_land self).2 = (false, (V003.play_land self).2).
Proof.
  destruct (play_land_cases self)
    as [(l1 & card & l2 & Hzero & Hsplit & Hl1 & Hcard & ->)|[-> Hwhy]]; cbn [fst snd].
  - split_and!.
    + split; [intros _|done]. split; [done|]. rewrite Hsplit.
      apply Exists_app. right. by constructor.
    + intros _. by exists l1, card, l2.
    + discriminate.
    + reflexivity.
  - split_and!.
    + split; [discriminate|]. intros [Hzero Hex]. exfalso.
      destruct Hwhy as [Hnz|Hnone]; [done|].
      apply Exists_exists in Hex as (c & Hin & Hc).
      rewrite Forall_forall in Hnone. by apply (Hnone c Hin).
    + discriminate.
    + done.
    + destruct (play_land_cases self)
        as [(l1 & card & l2 & Hzero & Hsplit & Hl1 & Hcard & _)|[Heq _]]; [|done].
      exfalso. destruct Hwhy as [Hnz|Hnone]; [done|].
      rewrite Hsplit in Hnone. apply Forall_app in Hnone as [_ Hnone].
      apply Forall_cons in Hnone as [Hc _]. done.
Qed.

(** ** The greedy deployment (V003) *)

Section V003_greedy.
Import V003.

Lemma play_permanents_pass_inv (self self' : Game) :
  play_permanents_pass self = Some self' →
  ∃ before card after,
    hand self = before ++ card :: after ∧ hand self' = before ++ after
    ∧ is_permanent card = true ∧ can_pay_cost self (cost card) = true
    ∧ battlefield self' = battlefield self ++ [(card, turn self)]
    ∧ turn self' = turn self ∧ deck self' = deck self
    ∧ lands_played self' = lands_played self.
Proof.
  unfold play_permanents_pass.
  destruct (extract_first _ (hand self)) as [[card hand']|] eqn:Hcard; [|discriminate].
  intros [= <-].
  pose proof (extract_first_is_first _ _ _ _ Hcard) as (l1 & l2 & Hsplit & -> & _).
  apply extract_first_Some in Hcard as (Hp & _). apply andb_true_iff in Hp as [Hperm Hpay].
  exists l1, card, l2. by split_and!.
Qed.

Lemma play_permanents_deploys (fuel : nat) (self self' : Game) :
  play_permanents fuel self = Ok self' →
  ∃ deployed,
    battlefield self' = battlefield self ++ map (λ card, (card, turn self)) deployed
    ∧ hand self ≡ₚ deployed ++ hand self'
    ∧ sublist (hand self') (hand self)
    ∧ Forall (λ card, is_permanent card = true) deployed
    ∧ turn self' = turn self ∧ deck self' = deck self
    ∧ lands_played self' = lands_played self.
Proof.
  intros Hrun.
  apply (while_played_invariant play_permanents_pass
           (λ g, ∃ deployed,
                 battlefield g = battlefield self ++ map (λ card, (card, turn self)) deployed
                 ∧ hand self ≡ₚ deployed ++ hand g
                 ∧ sublist (hand g) (hand self)
                 ∧ Forall (λ card, is_permanent card = true) deployed
                 ∧ turn g = turn self ∧ deck g = deck self
                 ∧ lands_played g = lands_played self))
    with (fuel := fuel) (s := self); [|done|].
  - intros g g' (deployed & Hbf & Hhand & Hsub & Hall & Ht & Hd & Hl) Hpass.
    apply play_permanents_pass_inv in Hpass
      as (l1 & card & l2 & Hsplit & Hh' & Hperm & _ & Hbf' & Ht' & Hd' & Hl').
    exists (deployed ++ [card]). split_and!; try congruence.
    + rewrite Hbf', Hbf, Ht, map_app, <- app_assoc. done.
    + rewrite Hhand, Hsplit, Hh', <- app_assoc. apply Permutation_app_head. simpl.
      symmetry. apply Permutation_middle.
    + etrans; [|exact Hsub]. rewrite Hsplit, Hh'.
      apply sublist_app; [done|]. by apply sublist_cons.
    + apply Forall_app. split; [done|]. by apply Forall_singleton.
  - exists []. simpl. rewrite app_nil_r. by split_and!.
Qed.

Lemma play_permanents_mana (fuel : nat) (self self' : Game) :
  play_permanents fuel self = Ok self' →
  Forall (λ card, map_Forall (λ _ amount, 0 ≤ amount) (produce_mana card)) (hand self) →
  sum_values (available_mana self) ≤ sum_values (available_mana self').
Proof.
  intros Hrun Hnonneg.
  apply (while_played_invariant play_permanents_pass
           (λ g, Forall (λ card, map_Forall (λ _ amount, 0 ≤ amount) (produce_mana card))
                        (hand g)
                 ∧ sum_values (available_mana self) ≤ sum_values (available_mana g)))
    with (fuel := fuel) (s := self); [|done|by split].
  intros g g' [Hall Hle] Hpass.
  apply play_permanents_pass_inv in Hpass
    as (l1 & card & l2 & Hsplit & Hh' & _ & _ & Hbf' & Ht' & _).
  rewrite Hsplit in Hall. apply Forall_app in Hall as [Hl1 Hrest].
  apply Forall_cons in Hrest as [Hcard Hl2]. split.
  - rewrite Hh'. by apply Forall_app.
  - unfold available_mana in *. rewrite Hbf', Ht', mana_pool_snoc.
    destruct (can_produce_mana card (turn g) (turn g)); [|done].
    rewrite sum_values_dict_add_into. apply nonneg_sum_values in Hcard. lia.
Qed.
End V003_greedy.

(** [play_permanents] moves rocks, dorks and reducers, and nothing else,
    from the hand to the end of the battlefield with the current turn,
    keeping the rest of the hand in order, and stops only when no rock,
    dork or reducer left in hand costs at most the total mana then
    available.  Costs are compared with the mana, never deducted: for
    mana amounts that are not negative the total does not drop, so no
    card that was affordable when the loop began is left in hand. *)
Theorem play_permanents_is_greedy (fuel : nat) (self self' : V003.Game)
    (Hrun : V003.play_permanents fuel self = Ok self') :
  (∃ deployed,
      V003.battlefield self'
        = V003.battlefield self ++ map (λ card, (card, V003.turn self)) deployed
      ∧ V003.hand self ≡ₚ deployed ++ V003.hand self'
      ∧ sublist (V003.hand self') (V003.hand self)
      ∧ Forall (λ card, V003.is_permanent card = true) deployed)
  ∧ Forall (λ card, V003.is_permanent card = true →
                    sum_values (V003.available_mana self') < V003.cost card)
           (V003.hand self')
  ∧ (Forall (λ card, map_Forall (λ _ amount, 0 ≤ amount) (V003.produce_mana card))
            (V003.hand self) →
     sum_values (V003.available_mana self) ≤ sum_values (V003.available_mana self')
     ∧ ∀ card, V003.is_permanent card = true →
               V003.cost card ≤ sum_values (V003.available_mana self) →
               card ∉ V003.hand self').
Proof.
  assert (Hleft : Forall (λ card, V003.is_permanent card = true →
                                  sum_values (V003.available_mana self') < V003.cost card)
                         (V003.hand self')).
  { apply while_played_fixpoint in Hrun. unfold V003.play_permanents_pass in Hrun.
    destruct (extract_first _ (V003.hand self')) as [[c h]|] eqn:Hnone; [discriminate|].
    apply extract_first_None in Hnone. eapply Forall_impl; [exact Hnone|].
    intros card Hcard Hperm. simpl in Hcard. rewrite Hperm in Hcard. simpl in Hcard.
    unfold V003.can_pay_cost in Hcard.
    destruct (Z.geb_spec (sum_values (V003.available_mana self')) (V003.cost card));
      [discriminate|lia]. }
  split_and!.
  - destruct (play_permanents_deploys _ _ _ Hrun) as (deployed & Hbf & Hhand & Hsub & Hall & _).
    by exists deployed.
  - exact Hleft.
  - intros Hnonneg. pose proof (play_permanents_mana _ _ _ Hrun Hnonneg) as Hle.
    split; [exact Hle|]. intros card Hperm Hcost Hin.
    rewrite Forall_forall in Hleft. specialize (Hleft card Hin Hperm). lia.
Qed.

(** ** What a turn adds to the battlefield and takes from the library (V003) *)

Lemma filter_none {A : Type} (P : A → Prop) `{∀ x, Decision (P x)} (l : list A) :
  Forall (λ x, ¬ P x) l → filter P l = [].
Proof.
  induction 1 as [|x l Hx _ IH]; [done|]. by rewrite filter_cons, decide_False.
Qed.

Lemma filter_length_le {A : Type} (P : A → Prop) `{∀ x, Decision (P x)} (l : list A) :
  (length (filter P l) ≤ length l)%nat.
Proof.
  induction l as [|x l IH]; [done|]. rewrite filter_cons.
  destruct (decide (P x)); simpl; lia.
Qed.

Section V003_turn_shape.
Import V003.

Lemma is_permanent_not_land (card : Card) : is_permanent card = true → ctype card ≠ "land".
Proof. intros Hperm Hland. unfold is_permanent in Hperm. by rewrite Hland in Hperm. Qed.

Lemma draw_deck (self : Game) : deck (draw self) = take (length (deck self) - 1) (deck self).
Proof.
  unfold draw. destruct (list_pop (deck self)) as [[card rest]|] eqn:Hpop.
  - apply list_pop_Some in Hpop. rewrite Hpop. simpl.
    rewrite length_app. simpl.
    replace (length rest + 1 - 1)%nat with (length rest) by lia.
    by rewrite take_app_length.
  - apply list_pop_None in Hpop. by rewrite Hpop.
Qed.

(** A turn appends to the battlefield at most one land and then the
    permanents it deploys, all with the new turn number, and takes the
    last card of the library. *)
Lemma take_turn_shape (fuel : nat) (self self' : Game) :
  take_turn fuel self = Ok self' →
  ∃ lands deployed,
    battlefield self'
      = battlefield self ++ map (λ card, (card, turn self + 1)) (lands ++ deployed)
    ∧ (length lands ≤ 1)%nat
    ∧ Forall (λ card, ctype card = "land") lands
    ∧ Forall (λ card, is_permanent card = true) deployed
    ∧ turn self' = turn self + 1
    ∧ deck self' = take (length (deck self) - 1) (deck self).
Proof.
  unfold take_turn. intros Hrun.
  apply play_permanents_deploys in Hrun
    as (deployed & Hbf & _ & _ & Hall & Ht & Hd & _).
  pose proof (draw_frame (begin_turn self)) as (Ht2 & Hbf2 & _).
  pose proof (draw_deck (begin_turn self)) as Hd2. simpl in Ht2, Hbf2, Hd2.
  destruct (play_land_cases (draw (begin_turn self)))
    as [(l1 & card & l2 & _ & _ & _ & Hcard & Heq)|[Heq _]];
    rewrite Heq in Hbf, Ht, Hd; simpl in Hbf, Ht, Hd.
  - exists [card], deployed. rewrite Hbf, Ht, Hd, Hbf2, Ht2, Hd2, <- app_assoc.
    split_and!; try done. by apply Forall_singleton.
  - exists [], deployed. rewrite Hbf, Ht, Hd, Hbf2, Ht2, Hd2.
    split_and!; try done. simpl. lia.
Qed.
End V003_turn_shape.

(** In a trial, for every turn number at most one land on the
    battlefield was played on that turn, so the lands in play never
    outnumber the turns taken; every permanent in play is a land, rock,
    dork or reducer and carries a turn number between 1 and the current
    turn. *)
Theorem one_land_per_turn {RNG : Type}
    (shuffle : RNG → list V003.Card → list V003.Card * RNG)
    (template : list V003.Card) (rng rng' : RNG) (game self : V003.Game)
    (Hinit : V003.Game_init shuffle template rng = Ok (game, rng'))
    (Hself : Spec.turn_boundary game self) :
  (∀ T, (length (filter (λ entry, V003.ctype entry.1 = "land" ∧ entry.2 = T)
                        (V003.battlefield self)) ≤ 1)%nat)
  ∧ Z.of_nat (length (filter (λ entry, V003.ctype entry.1 = "land")
                             (V003.battlefield self))) ≤ V003.turn self
  ∧ Forall (λ entry, 1 ≤ entry.2 ≤ V003.turn self
                     ∧ (V003.ctype entry.1 = "land" ∨ V003.is_permanent entry.1 = true))
           (V003.battlefield self).
Proof.
  apply Game_init_Ok in Hinit as (Ht0 & Hbf0 & _).
  induction Hself as [|fuel self self' Hb IH Hturn].
  - rewrite Hbf0, Ht0. split_and!; [intros T; simpl; lia|simpl; lia|constructor].
  - destruct IH as (Hcap & Hcount & Hall).
    pose proof (turn_boundary_turn _ _ Hb) as Hpos. rewrite Ht0 in Hpos.
    apply take_turn_shape in Hturn
      as (lands & deployed & -> & Hlen & Hlands & Hdeployed & -> & _).
    assert (Hnew_lands :
              filter (λ entry : V003.Card * Z, V003.ctype entry.1 = "land")
                     (map (λ card, (card, V003.turn self + 1)) deployed) = []).
    { apply filter_none. apply Forall_map. eapply Forall_impl; [exact Hdeployed|].
      intros card Hperm. simpl. by apply is_permanent_not_land. }
    split_and!.
    + intros T. rewrite filter_app, length_app.
      destruct (decide (T = V003.turn self + 1)) as [->|Hne].
      * rewrite (filter_none _ (V003.battlefield self)).
        2:{ eapply Forall_impl; [exact Hall|]. intros entry [Hrange _] [_ Heq]. lia. }
        rewrite map_app, filter_app, length_app.
        rewrite (filter_none _ (map _ deployed)).
        2:{ apply Forall_map. eapply Forall_impl; [exact Hdeployed|].
            intros card Hperm [Hland _]. simpl in Hland.
            by apply is_permanent_not_land in Hperm. }
        pose proof (filter_length_le
                      (λ entry : V003.Card * Z,
                         V003.ctype entry.1 = "land" ∧ entry.2 = V003.turn self + 1)
                      (map (λ card, (card, V003.turn self + 1)) lands)) as Hle.
        rewrite length_map in Hle. simpl. lia.
      * rewrite (filter_none _ (map _ (lands ++ deployed))).
        2:{ apply Forall_map. apply Forall_forall. intros card _ [_ Heq]. simpl in Heq. lia. }
        specialize (Hcap T). simpl. lia.
    + rewrite filter_app, length_app, map_app, filter_app, length_app, Hnew_lands.
      pose proof (filter_length_le
                    (λ entry : V003.Card * Z, V003.ctype entry.1 = "land")
                    (map (λ card, (card, V003.turn self + 1)) lands)) as Hle.
      rewrite length_map in Hle. simpl. lia.
    + apply Forall_app. split.
      * eapply Forall_impl; [exact Hall|]. intros entry [Hrange Hkind]. split; [lia|done].
      * apply Forall_map, Forall_app. split.
        -- eapply Forall_impl; [exact Hlands|]. intros card Hland. simpl.
           split; [lia|by left].
        -- eapply Forall_impl; [exact Hdeployed|]. intros card Hperm. simpl.
           split; [lia|by right].
Qed.

(** The library is the part of the shuffled deck that precedes the cards
    dealt and drawn so far: a trial looks at the shuffled deck from its
    end, seven cards for the hand and one more card each turn, and never
    reorders what is left. *)
Theorem library_is_consumed_in_order {RNG : Type}
    (shuffle : RNG → list V003.Card → list V003.Card * RNG)
    (template : list V003.Card) (rng rng' : RNG) (game self : V003.Game)
    (Hinit : V003.Game_init shuffle template rng = Ok (game, rng'))
    (Hself : Spec.turn_boundary game self) :
  V003.deck self
  = take (length (shuffle rng template).1 - 7 - Z.to_nat (V003.turn self))
         (shuffle rng template).1.
Proof.
  apply Game_init_Ok in Hinit as (Ht0 & _ & _ & Hlen & Hsplit & _).
  assert (Hgame : V003.deck game
                  = take (length (shuffle rng template).1 - 7) (shuffle rng template).1).
  { rewrite <- Hsplit, length_app, length_reverse, Hlen.
    replace (length (V003.deck game) + 7 - 7)%nat with (length (V003.deck game)) by lia.
    by rewrite take_app_length. }
  assert (Hdeck : V003.deck self
                  = take (length (V003.deck game) - Z.to_nat (V003.turn self))
                         (V003.deck game)).
  { induction Hself as [|fuel self self' Hb IH Hturn].
    - rewrite Ht0. simpl. rewrite Nat.sub_0_r. by rewrite firstn_all.
    - pose proof (turn_boundary_turn _ _ Hb) as Hpos. rewrite Ht0 in Hpos.
      apply take_turn_shape in Hturn as (_ & _ & _ & _ & _ & _ & -> & ->).
      rewrite IH at 2. rewrite IH at 1. rewrite length_take, take_take.
      f_equal. lia. }
  rewrite Hdeck, Hgame, take_take, length_take. f_equal. lia.
Qed.

(** ** The statistics of a run *)

Lemma sum_counts_empty : sum_counts ∅ = 0.
Proof. unfold sum_counts. by rewrite map_fold_empty. Qed.

Lemma sum_counts_insert (counts : gmap Z Z) (t c : Z) :
  counts !! t = None → sum_counts (<[t := c]> counts) = sum_counts counts + c.
Proof.
  intros Hfresh. unfold sum_counts.
  rewrite map_fold_insert_L; [done| |done]. intros. lia.
Qed.

Lemma sum_counts_bump (counts : gmap Z Z) (t : Z) :
  sum_counts (<[t := default 0 (counts !! t) + 1]> counts) = sum_counts counts + 1.
Proof.
  destruct (counts !! t) as [x|] eqn:Hlook; simpl.
  - rewrite <- (insert_delete_id counts t x Hlook) at 2.
    rewrite <- (insert_delete_eq counts).
    rewrite !sum_counts_insert by apply lookup_delete_eq. lia.
  - rewrite sum_counts_insert by done. lia.
Qed.

(** The counts of a Counter add up to the number of values counted. *)
Lemma sum_counts_Counter (results : list Z) :
  sum_counts (Counter results) = Z.of_nat (length results).
Proof.
  unfold Counter.
  assert (Hgen : ∀ counts,
             sum_counts (foldl (λ counts t, <[t := default 0 (counts !! t) + 1]> counts)
                               counts results)
             = sum_counts counts + Z.of_nat (length results)).
  { induction results as [|t results IH]; intros counts; simpl; [lia|].
    rewrite IH, sum_counts_bump. lia. }
  rewrite Hgen, sum_counts_empty. lia.
Qed.

Lemma Counter_lookup_None (results : list Z) (t : Z) :
  Counter results !! t = None ↔ t ∉ results.
Proof.
  unfold Counter.
  assert (Hgen : ∀ counts : gmap Z Z,
             foldl (λ counts t, <[t := default 0 (counts !! t) + 1]> counts)
                   counts results !! t = None
             ↔ counts !! t = None ∧ t ∉ results).
  { induction results as [|u results IH]; intros counts; simpl.
    - split; [intros Hn; split; [done|apply not_elem_of_nil]|by intros [? _]].
    - rewrite IH, not_elem_of_cons. destruct (decide (u = t)) as [->|Hne].
      + rewrite lookup_insert_eq. split; [by intros [? _]|by intros [_ [? _]]].
      + rewrite lookup_insert_ne by done. split.
        * intros [? ?]. split_and!; [done|congruence|done].
        * intros [? [? ?]]. by split.  }
  rewrite Hgen, lookup_empty. split; [by intros [_ ?]|by intros ?].
Qed.

(** A key of a Counter is one of the values counted and its count is the
    number of times the value occurs. *)
Lemma Counter_lookup_Some (results : list Z) (t c : Z) :
  Counter results !! t = Some c →
  t ∈ results ∧ c = Z.of_nat (length (filter (λ u, u = t) results))
  ∧ 1 ≤ c ≤ Z.of_nat (length results).
Proof.
  intros Hlook. assert (Hin : t ∈ results).
  { destruct (decide (t ∈ results)) as [|Hnot]; [done|].
    apply Counter_lookup_None in Hnot. congruence. }
  pose proof (Counter_get_count results t) as Hget. unfold Counter_get in Hget.
  rewrite Hlook in Hget. simpl in Hget. split_and!; [done|done| |].
  - assert (Hin' : t ∈ filter (λ u, u = t) results) by (by apply list_elem_of_filter).
    destruct (filter (λ u, u = t) results); [by apply elem_of_nil in Hin'|].
    rewrite Hget. simpl. lia.
  - pose proof (filter_length_le (λ u, u = t) results). lia.
Qed.

Lemma sum_list_bounds (lo hi : Z) (l : list Z) :
  Forall (λ t, lo ≤ t ≤ hi) l →
  lo * Z.of_nat (length l) ≤ sum_list l ≤ hi * Z.of_nat (length l).
Proof.
  induction 1 as [|t l Ht _ IH]; [unfold sum_list; simpl; lia|].
  rewrite sum_list_cons. cbn [length]. lia.
Qed.

(** The mean of a list of values between [lo] and [hi] is between [lo]
    and [hi]. *)
Lemma mean_bounds (lo hi : Z) (l : list Z) (q : Q) :
  Forall (λ t, lo ≤ t ≤ hi) l → mean l = Ok q →
  l ≠ [] ∧ (inject_Z lo <= q)%Q ∧ (q <= inject_Z hi)%Q.
Proof.
  intros Hall. destruct l as [|t l]; [discriminate|]. cbn [mean]. intros [= <-].
  split; [done|].
  pose proof (sum_list_bounds lo hi _ Hall) as Hsum.
  assert (Hpos : Z.pos (Pos.of_nat (length (t :: l))) = Z.of_nat (length (t :: l))).
  { rewrite <- positive_nat_Z, Nat2Pos.id; [done|]. simpl. lia. }
  unfold Qle, inject_Z. cbn [Qnum Qden]. cbn [length] in Hpos, Hsum. rewrite Hpos. lia.
Qed.

Lemma successes_in_range (max_turns : Z) (outcomes : list (option Z)) :
  Forall (Spec.in_range max_turns) outcomes →
  Forall (λ t, 1 ≤ t ≤ max_turns) (Spec.successes outcomes)
  ∧ (length (Spec.successes outcomes) ≤ length outcomes)%nat.
Proof.
  unfold Spec.successes. induction 1 as [|[t|] outcomes Hr _ [IH1 IH2]].
  - by split.
  - change (omap id (Some t :: outcomes)) with (t :: omap id outcomes).
    split; [by constructor|]. cbn [length]. lia.
  - change (omap id (None :: outcomes)) with (omap id outcomes : list Z).
    split; [done|]. cbn [length]. lia.
Qed.

(** What [run_simulation] returns (V003): the count is between 0 and the
    trial count; the distribution only has turns from 1 to 20, each with
    a count of at least 1, and its counts add up to the count returned;
    the average is [None] exactly without a success and otherwise lies
    between 1 and 20. *)
Theorem run_simulation_statistics {RNG : Type}
    (shuffle : RNG → list V003.Card → list V003.Card * RNG)
    (fuel : nat) (template : list V003.Card) (commander_cost : gmap string Z)
    (trials : Z) (rng : RNG) (counts : gmap Z Z) (avg_turn : option Q) (n : Z)
    (Hrun : V003.run_simulation shuffle fuel template commander_cost trials rng
            = Ok (counts, avg_turn, n)) :
  0 ≤ n ≤ Z.max 0 trials
  ∧ sum_counts counts = n
  ∧ (∀ t c, counts !! t = Some c → 1 ≤ t ≤ 20 ∧ 1 ≤ c ≤ n)
  ∧ match avg_turn with
    | Some q => 1 ≤ n ∧ (inject_Z 1 <= q)%Q ∧ (q <= inject_Z 20)%Q
    | None => n = 0
    end.
Proof.
  unfold V003.run_simulation in Hrun. rewrite collect_results_outcomes in Hrun.
  destruct (V003.trial_outcomes shuffle fuel template commander_cost (Z.to_nat trials) rng)
    as [outcomes|e|] eqn:Hout; cbn [obind mbind Outcome_bind app] in Hrun;
    try discriminate.
  apply trial_outcomes_in_range in Hout as [Hlen Hall].
  rewrite (kept_in_range _ _ Hall) in Hrun.
  apply successes_in_range in Hall as [Hrange Hle].
  revert Hrun Hrange Hle. generalize (Spec.successes outcomes).
  intros results Hrun Hrange Hle.
  assert (Hstats : (∀ t c, Counter results !! t = Some c →
                           1 ≤ t ≤ 20 ∧ 1 ≤ c ≤ Z.of_nat (length results))).
  { intros t c Hlook. apply Counter_lookup_Some in Hlook as (Hin & _ & Hc).
    rewrite Forall_forall in Hrange. split; [by apply Hrange|done]. }
  destruct results as [|t rest].
  - cbn [mbind Outcome_bind obind] in Hrun. injection Hrun as <- <- <-.
    split_and!; [simpl; lia|simpl; lia|apply sum_counts_Counter|exact Hstats|done].
  - destruct (mean (t :: rest)) as [q|e|] eqn:Hmean;
      cbn [mbind Outcome_bind obind] in Hrun; try discriminate.
    injection Hrun as <- <- <-.
    apply (mean_bounds 1 20) in Hmean as (_ & Hlo & Hhi); [|done].
    cbn [length] in Hle.
    split_and!; [lia|lia|apply sum_counts_Counter|exact Hstats|lia|done|done].
Qed.

Section V001_statistics.
Import V001.
Context {RNG : Type} (shuffle : RNG → list Card → list Card * RNG).

Lemma play_until_commander_never_raises_V001 (fuel : nat) (self : Game)
    (commander_cost max_turns : Z) (e : PyExn) :
  play_until_commander fuel self commander_cost max_turns ≠ Raise e.
Proof.
  revert self. induction fuel as [|fuel IH]; intros self; simpl.
  - by destruct (turn self <? max_turns).
  - destruct (turn self <? max_turns); [|done].
    destruct (take_turn fuel self) as [self1|e'|] eqn:Hturn; simpl; [| |done].
    + destruct (available_mana self1 >=? commander_cost); [done|apply IH].
    + unfold take_turn, play_rocks in Hturn. by apply while_played_never_raises in Hturn.
Qed.

Lemma Game_init_raises_V001 (template : list Card) (rng : RNG) (e : PyExn) :
  Game_init shuffle template rng = Raise e → e = IndexError.
Proof.
  unfold Game_init. destruct (shuffle rng template) as [shuffled rng1].
  destruct (le_lt_dec 7 (length shuffled)) as [Hlen|Hlen].
  - destruct (pop_many_enough 7 shuffled Hlen) as (popped & rest & ->). discriminate.
  - rewrite (pop_many_short 7 shuffled Hlen). cbn [mbind Outcome_bind obind]. congruence.
Qed.

Lemma trial_outcomes_raises_V001 (fuel : nat) (template : list Card) (trials : nat)
    (rng : RNG) (e : PyExn) :
  trial_outcomes shuffle fuel template trials rng = Raise e → e = IndexError.
Proof.
  revert rng. induction trials as [|trials IH]; intros rng; cbn [trial_outcomes];
    [discriminate|].
  destruct (Game_init shuffle template rng) as [[game rng1]|e1|] eqn:Hinit;
    cbn [mbind Outcome_bind obind]; try discriminate.
  - destruct (play_until_commander fuel game 6 20) as [[turn_cast game']|e2|] eqn:Hplay;
      cbn [mbind Outcome_bind obind]; try discriminate.
    + destruct (trial_outcomes shuffle fuel template trials rng1) as [rest|e3|] eqn:Hrest;
        cbn [mbind Outcome_bind obind]; try discriminate.
      intros Heq. assert (e3 = e) as -> by congruence. by eapply IH.
    + by apply play_until_commander_never_raises_V001 in Hplay.
  - intros Heq. assert (e1 = e) as -> by congruence. by eapply Game_init_raises_V001.
Qed.

(** The list [results] of the harness: the turns of the trials that did
    not time out, each between 1 and 20. *)
Lemma collect_results_successes_V001 (fuel : nat) (template : list Card) (trials : nat)
    (rng : RNG) :
  collect_results shuffle fuel template trials rng []
  = obind (trial_outcomes shuffle fuel template trials rng)
          (λ outcomes, Ok (Spec.successes outcomes))
  ∧ ∀ outcomes, trial_outcomes shuffle fuel template trials rng = Ok outcomes →
      length outcomes = trials
      ∧ Forall (λ t, 1 ≤ t ≤ 20) (Spec.successes outcomes)
      ∧ (length (Spec.successes outcomes) ≤ trials)%nat.
Proof.
  split.
  - rewrite collect_results_outcomes_V001.
    destruct (trial_outcomes shuffle fuel template trials rng) as [outcomes|e|] eqn:Hout;
      cbn [obind app]; try done.
    apply trial_outcomes_in_range_V001 in Hout as [_ Hall].
    by rewrite (kept_in_range _ _ Hall).
  - intros outcomes Hout. apply trial_outcomes_in_range_V001 in Hout as [Hlen Hall].
    apply successes_in_range in Hall as [Hrange Hle]. split_and!; [done|done|lia].
Qed.
End V001_statistics.

Lemma successes_nil (outcomes : list (option Z)) :
  Spec.successes outcomes = [] ↔ Forall (λ r, r = None) outcomes.
Proof.
  unfold Spec.successes. induction outcomes as [|[t|] outcomes IH].
  - split; [constructor|done].
  - change (omap id (Some t :: outcomes)) with (t :: omap id outcomes). split; [done|].
    intros Hall. apply Forall_cons in Hall as [? _]. done.
  - change (omap id (None :: outcomes)) with (omap id outcomes : list Z).
    rewrite IH. split; [by constructor|]. intros Hall. by apply Forall_cons in Hall as [_ ?].
Qed.

(** [run_simulation] of V001 returns only when some trial cast the
    commander: its distribution then counts between 1 and [trials]
    trials, on turns from 1 to 20, and its average lies between 1 and 20.
    It raises ZeroDivisionError exactly when the trials ran and every one
    of them timed out (with no trial at all in particular). *)
Theorem run_simulation_needs_a_success {RNG : Type}
    (shuffle : RNG → list V001.Card → list V001.Card * RNG)
    (fuel : nat) (trials lands rocks fillers : Z) (rng : RNG) :
  (∀ counts avg_turn,
      V001.run_simulation shuffle fuel trials lands rocks fillers rng
        = Ok (counts, avg_turn) →
      1 ≤ sum_counts counts ≤ trials
      ∧ (∀ t c, counts !! t = Some c → 1 ≤ t ≤ 20 ∧ 1 ≤ c ≤ sum_counts counts)
      ∧ (inject_Z 1 <= avg_turn)%Q ∧ (avg_turn <= inject_Z 20)%Q)
  ∧ (V001.run_simulation shuffle fuel trials lands rocks fillers rng
       = Raise ZeroDivisionError
     ↔ ∃ outcomes,
         V001.trial_outcomes shuffle fuel (V001.build_deck lands rocks fillers)
                             (Z.to_nat trials) rng = Ok outcomes
         ∧ Forall (λ r, r = None) outcomes).
Proof.
  unfold V001.run_simulation.
  destruct (collect_results_successes_V001 shuffle fuel
              (V001.build_deck lands rocks fillers) (Z.to_nat trials) rng) as [-> Hfacts].
  destruct (V001.trial_outcomes shuffle fuel _ (Z.to_nat trials) rng)
    as [outcomes|e|] eqn:Hout; cbn [obind mbind Outcome_bind].
  - destruct (Hfacts outcomes eq_refl) as (Hlen & Hrange & Hle).
    destruct (Spec.successes outcomes) as [|t rest] eqn:Hres.
    + cbn [mean mbind Outcome_bind obind]. split; [discriminate|].
      split; [intros _|done]. exists outcomes. split; [done|]. by apply successes_nil.
    + destruct (mean (t :: rest)) as [q|e|] eqn:Hmean; [| |discriminate].
      * cbn [mbind Outcome_bind obind].
        apply (mean_bounds 1 20) in Hmean as (_ & Hlo & Hhi); [|done]. split.
        -- intros counts avg_turn [= <- <-]. rewrite sum_counts_Counter.
           cbn [length] in *. split_and!; [lia|lia| |done|done].
           intros u c Hlook. apply Counter_lookup_Some in Hlook as (Hin & _ & Hc).
           rewrite Forall_forall in Hrange. split; [by apply Hrange|]. cbn [length] in Hc. lia.
        -- split; [discriminate|]. intros (outs & [= <-] & Hnone).
           apply successes_nil in Hnone. congruence.
      * discriminate.
  - split; [discriminate|]. split.
    + intros Heq. apply trial_outcomes_raises_V001 in Hout. congruence.
    + intros (outs & Heq & _). discriminate.
  - split; [discriminate|]. split; [discriminate|]. intros (outs & Heq & _). discriminate.
Qed.

(** [run_simulation] of V002 returns a count that is at least 1 and at
    most [trials] and equals the sum of the counts of the distribution,
    whose turns lie between 1 and 20; the average lies between 1 and 20.
    Like V001 it raises ZeroDivisionError exactly when the trials ran and
    every one of them timed out. *)
Theorem run_simulation_count_V002 {RNG : Type}
    (shuffle : RNG → list V001.Card → list V001.Card * RNG)
    (fuel : nat) (trials lands rocks fillers : Z) (rng : RNG) :
  (∀ counts avg_turn n,
      V002.run_simulation shuffle fuel trials lands rocks fillers rng
        = Ok (counts, avg_turn, n) →
      1 ≤ n ≤ trials
      ∧ sum_counts counts = n
      ∧ (∀ t c, counts !! t = Some c → 1 ≤ t ≤ 20 ∧ 1 ≤ c ≤ n)
      ∧ (inject_Z 1 <= avg_turn)%Q ∧ (avg_turn <= inject_Z 20)%Q)
  ∧ (V002.run_simulation shuffle fuel trials lands rocks fillers rng
       = Raise ZeroDivisionError
     ↔ ∃ outcomes,
         V001.trial_outcomes shuffle fuel (V001.build_deck lands rocks fillers)
                             (Z.to_nat trials) rng = Ok outcomes
         ∧ Forall (λ r, r = None) outcomes).
Proof.
  unfold V002.run_simulation.
  destruct (collect_results_successes_V001 shuffle fuel
              (V001.build_deck lands rocks fillers) (Z.to_nat trials) rng) as [-> Hfacts].
  destruct (V001.trial_outcomes shuffle fuel _ (Z.to_nat trials) rng)
    as [outcomes|e|] eqn:Hout; cbn [obind mbind Outcome_bind].
  - destruct (Hfacts outcomes eq_refl) as (Hlen & Hrange & Hle).
    destruct (Spec.successes outcomes) as [|t rest] eqn:Hres.
    + cbn [mean mbind Outcome_bind obind]. split; [discriminate|].
      split; [intros _|done]. exists outcomes. split; [done|]. by apply successes_nil.
    + destruct (mean (t :: rest)) as [q|e|] eqn:Hmean; [| |discriminate].
      * cbn [mbind Outcome_bind obind].
        apply (mean_bounds 1 20) in Hmean as (_ & Hlo & Hhi); [|done]. split.
        -- intros counts avg_turn n [= <- <- <-]. rewrite sum_counts_Counter.
           cbn [length] in *. split_and!; [lia|lia|done| |done|done].
           intros u c Hlook. apply Counter_lookup_Some in Hlook as (Hin & _ & Hc).
           rewrite Forall_forall in Hrange. split; [by apply Hrange|]. cbn [length] in Hc. lia.
        -- split; [discriminate|]. intros (outs & [= <-] & Hnone).
           apply successes_nil in Hnone. congruence.
      * discriminate.
  - split; [discriminate|]. split.
    + intros Heq. apply trial_outcomes_raises_V001 in Hout. congruence.
    + intros (outs & Heq & _). discriminate.
  - split; [discriminate|]. split; [discriminate|]. intros (outs & Heq & _). discriminate.
Qed.

(** ** The further properties on the example games *)

(** The battlefield of the example game on its third turn and on the
    turn after it, when the Temple and the Elves have come around. *)
Lemma mana_never_decreases_witness :
  sum_values (V003.mana_pool (V003.battlefield Example.midgame) 3)
  ≤ sum_values (V003.mana_pool (V003.battlefield Example.midgame) 4).
Proof.
  refine (proj2 (proj2 (mana_never_decreases (V003.battlefield Example.midgame) 3 4 _ _ _))).
  - lia.
  - repeat (constructor; [simpl; lia|]). constructor.
  - repeat (constructor;
            [apply map_Forall_to_list; vm_compute; repeat constructor; discriminate|]).
    constructor.
Defined.

(** The example game on its third turn casts what it can afford. *)
Lemma play_permanents_is_greedy_witness :
  ∃ self',
    V003.play_permanents 20 Example.midgame = Ok self'
    ∧ Forall (λ card, V003.is_permanent card = true →
                      sum_values (V003.available_mana self') < V003.cost card)
             (V003.hand self').
Proof.
  destruct (play_permanents_terminates 20 Example.midgame) as [self' Hrun]; [simpl; lia|].
  exists self'. split; [exact Hrun|].
  exact (proj1 (proj2 (play_permanents_is_greedy 20 Example.midgame self' Hrun))).
Defined.

(** The example deck, reversed by the shuffle, after its first turn. *)
Lemma one_land_per_turn_witness :
  V003.Game_init shuffle_rev Example.deck tt = Ok (Example.opening, tt)
  ∧ ∃ self,
      V003.take_turn 20 Example.opening = Ok self
      ∧ Z.of_nat (length (filter (λ entry, V003.ctype entry.1 = "land")
                                 (V003.battlefield self))) ≤ V003.turn self.
Proof.
  assert (Hinit : V003.Game_init shuffle_rev Example.deck tt = Ok (Example.opening, tt))
    by (vm_compute; reflexivity).
  split; [exact Hinit|].
  destruct (take_turn_terminates 20 Example.opening) as [self Hturn]; [simpl; lia|].
  exists self. split; [exact Hturn|].
  apply (one_land_per_turn shuffle_rev Example.deck tt tt Example.opening self Hinit).
  eapply Spec.boundary_next; [apply Spec.boundary_start|exact Hturn].
Defined.

Lemma library_is_consumed_in_order_witness :
  V003.Game_init shuffle_rev Example.deck tt = Ok (Example.opening, tt)
  ∧ ∃ self,
      V003.take_turn 20 Example.opening = Ok self
      ∧ V003.deck self
        = take (length (shuffle_rev tt Example.deck).1 - 7 - Z.to_nat (V003.turn self))
               (shuffle_rev tt Example.deck).1.
Proof.
  assert (Hinit : V003.Game_init shuffle_rev Example.deck tt = Ok (Example.opening, tt))
    by (vm_compute; reflexivity).
  split; [exact Hinit|].
  destruct (take_turn_terminates 20 Example.opening) as [self Hturn]; [simpl; lia|].
  exists self. split; [exact Hturn|].
  apply (library_is_consumed_in_order shuffle_rev Example.deck tt tt Example.opening self
           Hinit).
  eapply Spec.boundary_next; [apply Spec.boundary_start|exact Hturn].
Defined.

(** Three trials of the example deck with the shuffle that reverses. *)
Lemma run_simulation_statistics_witness :
  ∃ counts avg_turn n,
    V003.run_simulation shuffle_rev 40 Example.deck Example.commander_cost 3 tt
      = Ok (counts, avg_turn, n)
    ∧ 0 ≤ n ≤ Z.max 0 3
    ∧ sum_counts counts = n.
Proof.
  destruct (V003.run_simulation shuffle_rev 40 Example.deck Example.commander_cost 3 tt)
    as [[[counts avg_turn] n]|e|] eqn:Hrun;
    [|vm_compute in Hrun; discriminate..].
  exists counts, avg_turn, n. split; [reflexivity|].
  destruct (run_simulation_statistics shuffle_rev 40 Example.deck Example.commander_cost 3 tt
              counts avg_turn n Hrun) as (Hn & Hsum & _).
  split; [exact Hn|exact Hsum].
Defined.

(** ** V004: what a trial does to the cards *)

Section V004_engine.
Import V004.

Lemma up_to_sickness_refl (c : Card) : up_to_sickness c c.
Proof. by left. Qed.

Lemma up_to_sickness_trans (c1 c2 c3 : Card) : up_to_sickness c1 c2 → up_to_sickness c2 c3 → up_to_sickness c1 c3.
Proof.
  intros [->|[Hd1 [b1 ->]]] [->|[Hd2 [b2 ->]]].
  - by left.
  - right. split; [done|by exists b2].
  - right. split; [done|by exists b1].
  - right. split; [done|by exists b2].
Qed.

Lemma up_to_sickness_fields (c c' : Card) :
  up_to_sickness c c' →
  cls c' = cls c ∧ name c' = name c ∧ produces c' = produces c
  ∧ enters_tapped c' = enters_tapped c ∧ condition c' = condition c
  ∧ cost c' = cost c ∧ view c' = view c.
Proof. intros [->|[_ [b ->]]]; by split_and!. Qed.

Lemma same_cards_refl (h : list Card) : Forall2 up_to_sickness h h.
Proof. apply Forall_Forall2_diag, Forall_forall. intros c _. apply up_to_sickness_refl. Qed.

Lemma same_cards_trans (h1 h2 h3 : list Card) :
  Forall2 up_to_sickness h1 h2 → Forall2 up_to_sickness h2 h3 → Forall2 up_to_sickness h1 h3.
Proof.
  intros H12. revert h3. induction H12 as [|c1 c2 h1 h2 Hc _ IH]; intros h3 H23.
  - by apply Forall2_nil_inv_l in H23 as ->.
  - apply Forall2_cons_inv_l in H23 as (c3 & h3' & Hc' & H23 & ->).
    constructor; [by eapply up_to_sickness_trans|by apply IH].
Qed.

Lemma same_cards_total (h h' : list Card) (r : nat) :
  Forall2 up_to_sickness h h' → up_to_sickness (h !!! r) (h' !!! r).
Proof.
  intros Hsame. destruct (h !! r) as [c|] eqn:Hc.
  - destruct (Forall2_lookup_l _ _ _ _ _ Hsame Hc) as (c' & Hc' & Hr).
    by rewrite (list_lookup_total_correct _ _ _ Hc), (list_lookup_total_correct _ _ _ Hc').
  - assert (Hc' : h' !! r = None).
    { apply lookup_ge_None. apply lookup_ge_None in Hc.
      by rewrite <- (Forall2_length _ _ _ Hsame). }
    rewrite !list_lookup_total_alt, Hc, Hc'. apply up_to_sickness_refl.
Qed.

Lemma class_at_same (h h' : list Card) (r : nat) :
  Forall2 up_to_sickness h h' → class_at h' r = class_at h r.
Proof.
  intros Hsame. unfold class_at.
  by destruct (up_to_sickness_fields _ _ (same_cards_total h h' r Hsame)) as (-> & _).
Qed.

Lemma cost_same (h h' : list Card) (r : nat) :
  Forall2 up_to_sickness h h' → cost (h' !!! r) = cost (h !!! r).
Proof.
  intros Hsame.
  by destruct (up_to_sickness_fields _ _ (same_cards_total h h' r Hsame)) as (_&_&_&_&_& -> &_).
Qed.

(** An assignment to [summoning_sick] of a ManaDork. *)
Lemma alter_same_cards (h : list Card) (r : nat) (b : bool) :
  isinstance_ManaDork (class_at h r) = true →
  Forall2 up_to_sickness h (alter (set_summoning_sick b) r h).
Proof.
  intros Hdork. apply Forall2_alter_r; [apply same_cards_refl|].
  intros c c' Hc Hc' _. assert (c' = c) as -> by congruence.
  right. split; [|by exists b].
  unfold class_at in Hdork. by rewrite (list_lookup_total_correct _ _ _ Hc) in Hdork.
Qed.

Lemma draw_frame_V004 (s : Trial) :
  heap (draw s) = heap s ∧ battlefield (draw s) = battlefield s
  ∧ mana_sources (draw s) = mana_sources s ∧ turn (draw s) = turn s
  ∧ hand (draw s) ++ library (draw s) = hand s ++ library s
  ∧ (length (hand (draw s)) ≤ S (length (hand s)))%nat.
Proof.
  unfold draw. destruct (library s) as [|card rest] eqn:Hlib; simpl.
  - rewrite Hlib. split_and!; try done. lia.
  - rewrite <- app_assoc, length_app. simpl. split_and!; try done. lia.
Qed.

Lemma play_land_cases_V004 (s : Trial) :
  (∃ l1 card l2,
      hand s = l1 ++ card :: l2 ∧ hand (play_land s) = l1 ++ l2
      ∧ isinstance_Land (class_at (heap s) card) = true
      ∧ battlefield (play_land s) = battlefield s ++ [card]
      ∧ (mana_sources (play_land s) = mana_sources s
         ∨ mana_sources (play_land s) = mana_sources s ++ [card])
      ∧ heap (play_land s) = heap s ∧ library (play_land s) = library s
      ∧ turn (play_land s) = turn s)
  ∨ (play_land s = s
     ∧ Forall (λ r, isinstance_Land (class_at (heap s) r) = false) (hand s)).
Proof.
  unfold play_land.
  destruct (extract_first _ (hand s)) as [[card hand']|] eqn:Hcard.
  - left. pose proof (extract_first_is_first _ _ _ _ Hcard) as (l1 & l2 & Hsplit & -> & _).
    apply extract_first_Some in Hcard as (Hland & _).
    exists l1, card, l2. simpl. split_and!; try done.
    destruct (play _ _ _); [by left|by right].
  - right. split; [done|]. by apply extract_first_None.
Qed.

Lemma cast_pass_inv (s s' : Trial) (m m' : Z) :
  cast_pass (s, m) = Some (s', m') →
  ∃ l1 card l2,
    hand s = l1 ++ card :: l2 ∧ hand s' = l1 ++ l2
    ∧ cost (heap s !!! card) ≤ m ∧ m' = m - cost (heap s !!! card)
    ∧ battlefield s' = battlefield s ++ [card]
    ∧ (isinstance_ManaRock (class_at (heap s) card) = true
       ∧ mana_sources s' = mana_sources s ++ [card] ∧ heap s' = heap s
       ∨ isinstance_ManaRock (class_at (heap s) card) = false
         ∧ isinstance_ManaDork (class_at (heap s) card) = true
         ∧ mana_sources s' = mana_sources s
         ∧ heap s' = alter (set_summoning_sick true) card (heap s))
    ∧ Forall2 up_to_sickness (heap s) (heap s')
    ∧ library s' = library s ∧ turn s' = turn s.
Proof.
  unfold cast_pass.
  destruct (extract_first _ (hand s)) as [[card hand']|] eqn:Hcard; [|discriminate].
  pose proof (extract_first_is_first _ _ _ _ Hcard) as (l1 & l2 & Hsplit & -> & _).
  apply extract_first_Some in Hcard as (Hcast & _). unfold castable in Hcast.
  assert (Hpay : cost (heap s !!! card) ≤ m).
  { apply orb_true_iff in Hcast as [H|H]; apply andb_true_iff in H as [_ H];
      destruct (Z.geb_spec m (cost (heap s !!! card))); done || lia. }
  destruct (isinstance_ManaRock (class_at (heap s) card)) eqn:Hrock.
  - intros [= <- <-]. exists l1, card, l2. simpl.
    split_and!; try done; [by left|apply same_cards_refl].
  - simpl in Hcast. apply andb_true_iff in Hcast as [Hdork _].
    intros [= <- <-]. exists l1, card, l2. simpl.
    split_and!; try done; [by right|by apply alter_same_cards].
Qed.

(** The [while playable] loop: the cards it casts, in order. *)
Lemma cast_run (fuel : nat) (s s' : Trial) (m m' : Z) :
  while_played cast_pass fuel (s, m) = Ok (s', m') →
  ∃ cast,
    battlefield s' = battlefield s ++ cast
    ∧ hand s ≡ₚ cast ++ hand s'
    ∧ sublist (hand s') (hand s)
    ∧ Forall (λ r, isinstance_ManaRock (class_at (heap s) r)
                   || isinstance_ManaDork (class_at (heap s) r) = true) cast
    ∧ mana_sources s'
      = mana_sources s
        ++ filter (λ r, isinstance_ManaRock (class_at (heap s) r) = true) cast
    ∧ m' = m - Spec.total_of (λ r, cost (heap s !!! r)) cast
    ∧ (0 ≤ m → 0 ≤ m')
    ∧ Forall2 up_to_sickness (heap s) (heap s')
    ∧ library s' = library s ∧ turn s' = turn s.
Proof.
  intros Hrun.
  apply (while_played_invariant cast_pass
           (λ g, ∃ cast,
                 battlefield g.1 = battlefield s ++ cast
                 ∧ hand s ≡ₚ cast ++ hand g.1
                 ∧ sublist (hand g.1) (hand s)
                 ∧ Forall (λ r, isinstance_ManaRock (class_at (heap s) r)
                                || isinstance_ManaDork (class_at (heap s) r) = true) cast
                 ∧ mana_sources g.1
                   = mana_sources s
                     ++ filter (λ r, isinstance_ManaRock (class_at (heap s) r) = true) cast
                 ∧ g.2 = m - Spec.total_of (λ r, cost (heap s !!! r)) cast
                 ∧ (0 ≤ m → 0 ≤ g.2)
                 ∧ Forall2 up_to_sickness (heap s) (heap g.1)
                 ∧ library g.1 = library s ∧ turn g.1 = turn s))
    with (fuel := fuel) (s := (s, m)) (s' := (s', m')); [|done|].
  - intros [g mg] [g' mg'] (cast & Hbf & Hhand & Hsub & Hall & Hms & Hm & Hpos & Hheap
                            & Hlib & Ht) Hpass. simpl in *.
    apply cast_pass_inv in Hpass
      as (l1 & card & l2 & Hsplit & Hh' & Hpay & Hm' & Hbf' & Hcase & Hheap' & Hlib' & Ht').
    rewrite (cost_same _ _ card Hheap) in Hpay, Hm'.
    rewrite !(class_at_same _ _ card Hheap) in Hcase.
    exists (cast ++ [card]). split_and!; try congruence.
    + rewrite Hbf', Hbf, <- app_assoc. done.
    + rewrite Hhand, Hsplit, Hh', <- app_assoc. apply Permutation_app_head. simpl.
      symmetry. apply Permutation_middle.
    + etrans; [|exact Hsub]. rewrite Hsplit, Hh'.
      apply sublist_app; [done|]. by apply sublist_cons.
    + apply Forall_app. split; [done|]. apply Forall_singleton.
      destruct Hcase as [(-> & _)|(_ & -> & _)]; [done|apply orb_true_r].
    + rewrite filter_app, app_assoc, <- Hms.
      destruct Hcase as [(Hrock & -> & _)|(Hrock & _ & -> & _)].
      * by rewrite filter_cons, decide_True.
      * rewrite filter_cons, decide_False by (by rewrite Hrock).
        by rewrite filter_nil, app_nil_r.
    + rewrite total_of_app. unfold Spec.total_of at 2. simpl. lia.
    + intros _. lia.
    + by eapply same_cards_trans.
  - exists []. simpl. rewrite !app_nil_r. split_and!; try done; [lia|apply same_cards_refl].
Qed.

Lemma cast_loop_Ok (fuel : nat) (s s' : Trial) (m : Z) :
  cast_loop fuel s m = Ok s' ↔ ∃ m', while_played cast_pass fuel (s, m) = Ok (s', m').
Proof.
  unfold cast_loop.
  destruct (while_played cast_pass fuel (s, m)) as [[s1 m1]|e|];
    cbn [mbind Outcome_bind obind].
  - split; [intros [= <-]; by exists m1|]. by intros (m' & [= <- _]).
  - split; [done|]. by intros (m' & ?).
  - split; [done|]. by intros (m' & ?).
Qed.

Lemma cast_loop_terminates (fuel : nat) (s : Trial) (m : Z) :
  (length (hand s) < fuel)%nat → ∃ s', cast_loop fuel s m = Ok s'.
Proof.
  intros Hfuel.
  destruct (while_played_terminates cast_pass (λ g, length (hand g.1))) with
    (fuel := fuel) (s := (s, m)) as [[s' m'] Hrun]; [|done|].
  - intros [g mg] [g' mg'] Hpass. simpl.
    apply cast_pass_inv in Hpass as (l1 & card & l2 & -> & -> & _).
    rewrite !length_app. simpl. lia.
  - exists s'. apply cast_loop_Ok. by exists m'.
Qed.

Lemma cast_loop_never_raises (fuel : nat) (s : Trial) (m : Z) (e : PyExn) :
  cast_loop fuel s m ≠ Raise e.
Proof.
  unfold cast_loop.
  destruct (while_played cast_pass fuel (s, m)) as [[s1 m1]|e'|] eqn:Hrun;
    cbn [mbind Outcome_bind obind]; [done| |done].
  by apply while_played_never_raises in Hrun.
Qed.

Lemma remove_summoning_sickness_frame (s : Trial) :
  Forall2 up_to_sickness (heap s) (heap (remove_summoning_sickness s))
  ∧ hand (remove_summoning_sickness s) = hand s
  ∧ library (remove_summoning_sickness s) = library s
  ∧ battlefield (remove_summoning_sickness s) = battlefield s
  ∧ mana_sources (remove_summoning_sickness s) = mana_sources s
  ∧ turn (remove_summoning_sickness s) = turn s.
Proof.
  split_and!; try done. simpl. generalize (heap s). induction (battlefield s) as [|r l IH].
  - intros h. apply same_cards_refl.
  - intros h. simpl. eapply same_cards_trans; [|apply IH].
    destruct (isinstance_ManaDork (class_at h r)) eqn:Hdork;
      [by apply alter_same_cards|apply same_cards_refl].
Qed.

Lemma Forall_filter_true {A : Type} (P : A → Prop) `{∀ x, Decision (P x)} (l : list A) :
  Forall P (filter P l).
Proof. apply Forall_forall. intros x Hx. by apply list_elem_of_filter in Hx as [? _]. Qed.

Lemma Forall_sublist {A : Type} (P : A → Prop) (l k : list A) :
  sublist l k → Forall P k → Forall P l.
Proof.
  intros Hsub Hall. rewrite Forall_forall in Hall. apply Forall_forall.
  intros x Hx. apply Hall. by eapply elem_of_sublist.
Qed.

(** One iteration of the turn loop. *)
Lemma turn_step (h : list Card) (fuel : nat) (s s2 : Trial) :
  cast_loop fuel (play_land (draw (begin_turn s)))
            (Z.of_nat (length (mana_sources (play_land (draw (begin_turn s)))))) = Ok s2 →
  Forall2 up_to_sickness h (heap s) → board_ok h s →
  Forall2 up_to_sickness h (heap (remove_summoning_sickness s2))
  ∧ board_ok h (remove_summoning_sickness s2)
  ∧ hand (remove_summoning_sickness s2) ++ library (remove_summoning_sickness s2)
      ++ battlefield (remove_summoning_sickness s2)
    ≡ₚ hand s ++ library s ++ battlefield s
  ∧ turn (remove_summoning_sickness s2) = turn s + 1
  ∧ (length (hand (remove_summoning_sickness s2))
     + length (library (remove_summoning_sickness s2))
     ≤ length (hand s) + length (library s))%nat
  ∧ Forall2 up_to_sickness (heap s) (heap s2).
Proof.
  intros Hcast Hheap (Hsub & Hms & Hbf & Hlands).
  pose proof (draw_frame_V004 (begin_turn s)) as (Hh0 & Hb0 & Hm0 & Ht0 & Hz0 & _).
  simpl in Hh0, Hb0, Hm0, Ht0, Hz0.
  apply cast_loop_Ok in Hcast as [m' Hrun].
  apply cast_run in Hrun
    as (cast & Hbf2 & Hhand2 & _ & Hcast & Hms2 & _ & _ & Hheap2 & Hlib2 & Ht2).
  pose proof (remove_summoning_sickness_frame s2) as (Hheap3 & H3h & H3l & H3b & H3m & H3t).
  unfold board_ok. rewrite H3h, H3l, H3b, H3m, H3t. clear H3h H3l H3b H3m H3t.
  set (s1 := play_land (draw (begin_turn s))) in *.
  assert (Hs1 : ∃ lands untapped,
             battlefield s1 = battlefield s ++ lands
             ∧ mana_sources s1 = mana_sources s ++ untapped
             ∧ sublist untapped lands ∧ (length lands ≤ 1)%nat
             ∧ Forall (λ r, isinstance_Land (class_at h r) = true) lands
             ∧ hand s1 ++ lands ≡ₚ hand (draw (begin_turn s))
             ∧ heap s1 = heap s ∧ library s1 = library (draw (begin_turn s))
             ∧ turn s1 = turn s + 1).
  { subst s1. destruct (play_land_cases_V004 (draw (begin_turn s)))
      as [(l1 & card & l2 & Hsplit & Hh1 & Hland & Hb1 & Hm1 & Hhp & Hl1 & Ht1)|[-> _]].
    - rewrite Hh0 in Hland. rewrite (class_at_same _ _ card Hheap) in Hland.
      exists [card]. destruct Hm1 as [Hm1|Hm1].
      + exists []. rewrite Hb1, Hm1, Hb0, Hm0, Hh1, Hsplit, Hhp, Hl1, Ht1, app_nil_r.
        split_and!; try done; [apply sublist_nil_l|by apply Forall_singleton|].
        rewrite <- app_assoc. apply Permutation_app_head. symmetry.
        apply Permutation_cons_append.
      + exists [card]. rewrite Hb1, Hm1, Hb0, Hm0, Hh1, Hsplit, Hhp, Hl1, Ht1.
        split_and!; try done; [by apply Forall_singleton|].
        rewrite <- app_assoc. apply Permutation_app_head. symmetry.
        apply Permutation_cons_append.
    - exists [], []. rewrite Hb0, Hm0, Hh0, Ht0, !app_nil_r.
      split_and!; try done. simpl. lia. }
  destruct Hs1 as (lands & untapped & Hb1 & Hm1 & Hsub1 & Hlen1 & Hland1 & Hhand1 & Hh1
                   & Hl1 & Ht1).
  rewrite Hh1 in Hheap2, Hcast, Hms2.
  assert (Hcast' : Forall (λ r, isinstance_ManaRock (class_at h r)
                                || isinstance_ManaDork (class_at h r) = true) cast).
  { eapply Forall_impl; [exact Hcast|]. intros r Hr. simpl in Hr.
    by rewrite (class_at_same _ _ r Hheap) in Hr. }
  assert (Hfilter : filter (λ r, isinstance_ManaRock (class_at (heap s) r) = true) cast
                    = filter (λ r, isinstance_ManaRock (class_at h r) = true) cast).
  { apply list_filter_iff. intros r. by rewrite (class_at_same _ _ r Hheap). }
  rewrite Hfilter in Hms2. split_and!.
  - eapply same_cards_trans; [exact Hheap|]. by eapply same_cards_trans.
  - rewrite Hms2, Hbf2, Hm1, Hb1.
    apply sublist_app; [by apply sublist_app|apply sublist_filter].
  - rewrite Hms2, Hm1. apply Forall_app. split; [apply Forall_app; split|].
    + done.
    + eapply Forall_impl; [exact (Forall_sublist _ _ _ Hsub1 Hland1)|].
      intros r Hr. simpl in Hr. by rewrite Hr.
    + eapply Forall_impl; [apply Forall_filter_true|].
      intros r Hr. simpl in Hr. rewrite Hr. apply orb_true_r.
  - rewrite Hbf2, Hb1. apply Forall_app. split; [apply Forall_app; split|].
    + done.
    + eapply Forall_impl; [exact Hland1|]. intros r Hr Heq. simpl in Hr.
      by rewrite Heq in Hr.
    + eapply Forall_impl; [exact Hcast'|]. intros r Hr Heq. simpl in Hr.
      by rewrite Heq in Hr.
  - rewrite Hbf2, Hb1, !filter_app, !length_app, Ht2, Ht1.
    assert (Hnone : filter (λ r, isinstance_Land (class_at h r) = true) cast = []).
    { apply filter_none. eapply Forall_impl; [exact Hcast'|]. intros r Hr Hl.
      simpl in Hr. destruct (class_at h r); done. }
    rewrite Hnone. simpl.
    pose proof (filter_length_le (λ r, isinstance_Land (class_at h r) = true) lands).
    lia.
  - rewrite Hbf2, Hlib2, Hb1, Hl1, (app_assoc (hand s)), <- Hz0, <- Hhand1, Hhand2.
    solve_Permutation.
  - by rewrite Ht2, Ht1.
  - apply (f_equal length) in Hz0. rewrite !length_app in Hz0.
    apply Permutation_length in Hhand1, Hhand2. rewrite !length_app in Hhand1, Hhand2.
    rewrite Hlib2, Hl1. lia.
  - done.
Qed.

Lemma turn_step_size (fuel : nat) (s s2 : Trial) :
  cast_loop fuel (play_land (draw (begin_turn s)))
            (Z.of_nat (length (mana_sources (play_land (draw (begin_turn s)))))) = Ok s2 →
  turn (remove_summoning_sickness s2) = turn s + 1
  ∧ (length (hand (remove_summoning_sickness s2))
     + length (library (remove_summoning_sickness s2))
     ≤ length (hand s) + length (library s))%nat.
Proof.
  intros Hcast.
  pose proof (draw_frame_V004 (begin_turn s)) as (_ & _ & _ & Ht0 & Hz0 & _).
  simpl in Ht0, Hz0. apply (f_equal length) in Hz0. rewrite !length_app in Hz0.
  apply cast_loop_Ok in Hcast as [m' Hrun].
  apply cast_run in Hrun as (cast & _ & Hhand2 & _ & _ & _ & _ & _ & _ & Hlib2 & Ht2).
  apply Permutation_length in Hhand2. rewrite length_app in Hhand2.
  pose proof (remove_summoning_sickness_frame s2) as (_ & -> & -> & _ & _ & ->).
  rewrite Ht2, Hlib2.
  destruct (play_land_cases_V004 (draw (begin_turn s)))
    as [(l1 & card & l2 & Hsplit & Hh1 & _ & _ & _ & _ & Hl1 & Ht1)|[Heq _]].
  - rewrite Hl1, Ht1, Ht0. rewrite Hh1 in Hhand2. rewrite Hsplit in Hz0.
    rewrite !length_app in *. simpl in *. split; [done|lia].
  - rewrite Heq in *. rewrite Ht0. split; [done|lia].
Qed.

Lemma turn_loop_spec (h : list Card) (commander_cost max_turns : Z) (fuel : nat) :
  ∀ s result s',
    turn_loop fuel s commander_cost max_turns = Ok (result, s') →
    Forall2 up_to_sickness h (heap s) → board_ok h s →
    Forall2 up_to_sickness h (heap s') ∧ board_ok h s'
    ∧ hand s' ++ library s' ++ battlefield s' ≡ₚ hand s ++ library s ++ battlefield s
    ∧ match result with
      | Some t => t = turn s' ∧ turn s < t ≤ max_turns
      | None => max_turns ≤ turn s'
                ∧ (turn s' = turn s ∨ (turn s' = max_turns ∧ turn s < max_turns))
      end.
Proof.
  induction fuel as [|fuel IH]; intros s result s' Hrun Hheap Hboard;
    cbn [turn_loop] in Hrun.
  - destruct (Z.ltb_spec (turn s) max_turns); [discriminate|].
    injection Hrun as <- <-. split_and!; try done. by left.
  - destruct (Z.ltb_spec (turn s) max_turns) as [Hlt|Hge].
    + destruct (cast_loop fuel _ _) as [s2|e|] eqn:Hcast;
        cbn [mbind Outcome_bind obind] in Hrun; try discriminate.
      destruct (turn_step h fuel s s2 Hcast Hheap Hboard)
        as (Hheap3 & Hboard3 & Hzones & Hturn & _).
      simpl in Hturn. destruct (total_mana s2 >=? commander_cost).
      * injection Hrun as <- <-. split_and!; try done; lia.
      * apply IH in Hrun as (Hheap' & Hboard' & Hzones' & Hres); [|done|done].
        split_and!; try done; [by rewrite Hzones'|].
        simpl in Hres. destruct result as [t|]; [lia|].
        destruct Hres as [Hmax Hcase]. split; [done|]. right. lia.
    + injection Hrun as <- <-. split_and!; try done. by left.
Qed.

Lemma turn_loop_terminates (commander_cost max_turns : Z) (fuel : nat) :
  ∀ s, (Z.to_nat (max_turns - turn s) + length (hand s) + length (library s) < fuel)%nat →
       ∃ result s', turn_loop fuel s commander_cost max_turns = Ok (result, s').
Proof.
  induction fuel as [|fuel IH]; intros s Hfuel; [lia|]. cbn [turn_loop].
  destruct (Z.ltb_spec (turn s) max_turns) as [Hlt|Hge]; [|by eauto].
  destruct (cast_loop_terminates fuel (play_land (draw (begin_turn s)))
              (Z.of_nat (length (mana_sources (play_land (draw (begin_turn s)))))))
    as [s2 Hcast].
  { pose proof (draw_frame_V004 (begin_turn s)) as (_ & _ & _ & _ & Hz0 & _).
    simpl in Hz0. apply (f_equal length) in Hz0. rewrite !length_app in Hz0.
    destruct (play_land_cases_V004 (draw (begin_turn s)))
      as [(l1 & card & l2 & Hsplit & -> & _)|[-> _]].
    - rewrite Hsplit in Hz0. rewrite !length_app in *. simpl in *. lia.
    - lia. }
  rewrite Hcast. cbn [mbind Outcome_bind obind].
  destruct (total_mana s2 >=? commander_cost); [by eauto|].
  apply IH. apply turn_step_size in Hcast as [-> Hsize]. lia.
Qed.

Lemma turn_loop_never_raises (commander_cost max_turns : Z) (fuel : nat) (e : PyExn) :
  ∀ s, turn_loop fuel s commander_cost max_turns ≠ Raise e.
Proof.
  induction fuel as [|fuel IH]; intros s; cbn [turn_loop].
  - by destruct (turn s <? max_turns).
  - destruct (turn s <? max_turns); [|done].
    destruct (cast_loop fuel _ _) as [s2|e'|] eqn:Hcast;
      cbn [mbind Outcome_bind obind]; [| |done].
    + destruct (total_mana s2 >=? commander_cost); [done|apply IH].
    + by apply cast_loop_never_raises in Hcast.
Qed.

Lemma sublist_filter_length {A : Type} (P : A → Prop) `{∀ x, Decision (P x)}
    (l k : list A) :
  sublist l k → Forall P l → (length l ≤ length (filter P k))%nat.
Proof.
  induction 1 as [|x l k _ IH|x l k _ IH]; intros Hall.
  - simpl. lia.
  - apply Forall_cons in Hall as [Hx Hall]. rewrite filter_cons, decide_True by done.
    simpl. specialize (IH Hall). lia.
  - rewrite filter_cons. specialize (IH Hall). destruct (decide (P x)); simpl; lia.
Qed.

Lemma filter_or_length {A : Type} (p q : A → bool) (l : list A) :
  (length (filter (λ x, p x || q x = true) l)
   ≤ length (filter (λ x, p x = true) l) + length (filter (λ x, q x = true) l))%nat.
Proof.
  induction l as [|x l IH]; [done|]. rewrite !filter_cons.
  destruct (p x), (q x); simpl;
    repeat (rewrite decide_True by done); repeat (rewrite decide_False by done);
    simpl; lia.
Qed.

(** The mana counted towards the commander is at least the number of
    mana sources. *)
Lemma board_ok_total_mana (h : list Card) (s : Trial) :
  Forall2 up_to_sickness h (heap s) → board_ok h s →
  Z.of_nat (length (mana_sources s)) ≤ total_mana s.
Proof.
  intros Hheap (Hsub & Hms & _).
  assert (Hms' : Forall (λ r, isinstance_Land (class_at (heap s) r)
                              || isinstance_ManaRock (class_at (heap s) r) = true)
                        (mana_sources s)).
  { eapply Forall_impl; [exact Hms|]. intros r Hr. simpl in Hr.
    by rewrite (class_at_same _ _ r Hheap). }
  pose proof (sublist_filter_length _ _ _ Hsub Hms') as Hle.
  pose proof (filter_or_length (λ r, isinstance_Land (class_at (heap s) r))
                (λ r, isinstance_ManaRock (class_at (heap s) r)) (battlefield s)) as Hor.
  unfold total_mana. lia.
Qed.

Section Harness.
Context {RNG : Type} (shuffle : RNG → list nat → list nat * RNG).

Lemma simulate_game_Ok (fuel : nat) (h h' : list Card) (deck deck' : list nat)
    (commander_cost max_turns : Z) (rng rng' : RNG) (result : option Z) :
  simulate_game shuffle fuel h deck commander_cost max_turns rng
    = Ok (result, deck', h', rng') →
  deck' = (shuffle rng deck).1 ∧ rng' = (shuffle rng deck).2
  ∧ Forall2 up_to_sickness h h'
  ∧ match result with Some t => 1 ≤ t ≤ max_turns | None => True end.
Proof.
  unfold simulate_game. destruct (shuffle rng deck) as [shuffled rng1].
  destruct (turn_loop fuel _ commander_cost max_turns) as [[r s']|e|] eqn:Hloop;
    cbn [mbind Outcome_bind obind]; try discriminate.
  intros [= <- <- <- <-].
  apply (turn_loop_spec h) in Hloop as (Hheap & _ & _ & Hres).
  - simpl in Hres. split_and!; try done. destruct r as [t|]; [lia|done].
  - apply same_cards_refl.
  - simpl. split_and!; [done|constructor|constructor|simpl; lia].
Qed.

Lemma simulate_game_terminates (fuel : nat) (h : list Card) (deck : list nat)
    (commander_cost max_turns : Z) (rng : RNG) :
  Spec.permutes shuffle → (Z.to_nat max_turns + length deck < fuel)%nat →
  ∃ result deck' h' rng',
    simulate_game shuffle fuel h deck commander_cost max_turns rng
      = Ok (result, deck', h', rng').
Proof.
  intros Hperm Hfuel. unfold simulate_game.
  pose proof (Hperm rng deck) as Hdeck. apply Permutation_length in Hdeck.
  destruct (shuffle rng deck) as [shuffled rng1]. simpl in Hdeck.
  destruct (turn_loop_terminates commander_cost max_turns fuel
              {| heap := h; hand := take 7 shuffled; library := drop 7 shuffled;
                 battlefield := []; mana_sources := []; turn := 0 |})
    as (result & s' & ->).
  - cbn [turn hand library]. rewrite length_take, length_drop. lia.
  - cbn [mbind Outcome_bind obind]. by eauto.
Qed.

Lemma simulate_game_never_raises (fuel : nat) (h : list Card) (deck : list nat)
    (commander_cost max_turns : Z) (rng : RNG) (e : PyExn) :
  simulate_game shuffle fuel h deck commander_cost max_turns rng ≠ Raise e.
Proof.
  unfold simulate_game. destruct (shuffle rng deck) as [shuffled rng1].
  destruct (turn_loop fuel _ commander_cost max_turns) as [[r s']|e'|] eqn:Hloop;
    cbn [mbind Outcome_bind obind]; [done| |done].
  by apply turn_loop_never_raises in Hloop.
Qed.

Lemma run_trials_Ok (fuel : nat) (trials : nat) :
  ∀ h deck rng results out deck' h',
    run_trials shuffle fuel h deck trials rng results = Ok (out, deck', h') →
    (Spec.permutes shuffle → deck' ≡ₚ deck) ∧ Forall2 up_to_sickness h h'
    ∧ ∃ new, out = results ++ new ∧ Forall (λ t, 1 ≤ t ≤ 15) new
             ∧ (length new ≤ trials)%nat.
Proof.
  induction trials as [|trials IH]; intros h deck rng results out deck' h' Hrun;
    cbn [run_trials] in Hrun.
  - injection Hrun as <- <- <-. split_and!; [done|apply same_cards_refl|].
    exists []. by rewrite app_nil_r.
  - destruct (simulate_game shuffle fuel h deck 6 15 rng) as [[[[r d1] h1] rng1]|e|] eqn:Hgame;
      cbn [mbind Outcome_bind obind] in Hrun; try discriminate.
    apply simulate_game_Ok in Hgame as (-> & _ & Hh1 & Hr).
    apply IH in Hrun as (Hdeck & Hh' & new & -> & Hnew & Hlen).
    split_and!.
    + intros Hperm. rewrite (Hdeck Hperm). apply Hperm.
    + by eapply same_cards_trans.
    + destruct r as [t|].
      * exists (t :: new). rewrite <- app_assoc. split_and!; [done|by constructor|].
        simpl. lia.
      * exists new. split_and!; [done|done|lia].
Qed.

Lemma run_trials_terminates (fuel : nat) (n : nat) (trials : nat) :
  Spec.permutes shuffle → (15 + n < fuel)%nat →
  ∀ h deck rng results,
    length deck = n →
    ∃ out deck' h', run_trials shuffle fuel h deck trials rng results = Ok (out, deck', h').
Proof.
  intros Hperm Hfuel.
  induction trials as [|trials IH]; intros h deck rng results Hlen; cbn [run_trials].
  - by eauto.
  - destruct (simulate_game_terminates fuel h deck 6 15 rng Hperm)
      as (r & d1 & h1 & rng1 & Hgame); [simpl; lia|].
    rewrite Hgame. cbn [mbind Outcome_bind obind].
    apply IH. apply simulate_game_Ok in Hgame as (-> & _).
    rewrite <- Hlen. apply Permutation_length, Hperm.
Qed.

End Harness.
End V004_engine.

Lemma same_cards_erase (h h' : list V004.Card) :
  Forall2 up_to_sickness h h' →
  map (V004.set_summoning_sick false) h' = map (V004.set_summoning_sick false) h.
Proof.
  induction 1 as [|c c' h h' Hc _ IH]; [done|]. simpl. f_equal; [|done].
  by destruct Hc as [->|[_ [b ->]]].
Qed.

(** [simulate_game] returns for every deck, the empty deck and decks of
    fewer than seven cards included: the hand is a slice and the draw is
    guarded, so nothing can raise.  The result is [None] or a turn
    between 1 and [max_turns]. *)
Theorem simulate_game_accepts_every_deck {RNG : Type}
    (shuffle : RNG → list nat → list nat * RNG)
    (fuel : nat) (heap : list V004.Card) (deck : list nat)
    (commander_cost max_turns : Z) (rng : RNG)
    (Hperm : Spec.permutes shuffle)
    (Hfuel : (Z.to_nat max_turns + length deck < fuel)%nat) :
  (∃ result deck' heap' rng',
      V004.simulate_game shuffle fuel heap deck commander_cost max_turns rng
        = Ok (result, deck', heap', rng')
      ∧ match result with Some t => 1 ≤ t ≤ max_turns | None => True end)
  ∧ ∀ fuel' e,
      V004.simulate_game shuffle fuel' heap deck commander_cost max_turns rng ≠ Raise e.
Proof.
  split.
  - destruct (simulate_game_terminates shuffle fuel heap deck commander_cost max_turns rng
                Hperm Hfuel) as (result & deck' & heap' & rng' & Hrun).
    exists result, deck', heap', rng'. split; [exact Hrun|].
    by apply simulate_game_Ok in Hrun as (_ & _ & _ & Hres).
  - intros fuel' e. apply simulate_game_never_raises.
Qed.

(** What a trial can change of its deck (V004): the order of the list,
    which stays a permutation of what it was, and the [summoning_sick]
    flag of ManaDork objects.  Every other attribute of every card
    object is as before, and so is every object that is no ManaDork. *)
Theorem simulate_game_keeps_the_cards {RNG : Type}
    (shuffle : RNG → list nat → list nat * RNG)
    (fuel : nat) (heap heap' : list V004.Card) (deck deck' : list nat)
    (commander_cost max_turns : Z) (rng rng' : RNG) (result : option Z)
    (Hperm : Spec.permutes shuffle)
    (Hrun : V004.simulate_game shuffle fuel heap deck commander_cost max_turns rng
            = Ok (result, deck', heap', rng')) :
  deck' ≡ₚ deck
  ∧ Forall2 up_to_sickness heap heap'
  ∧ map (V004.set_summoning_sick false) heap' = map (V004.set_summoning_sick false) heap
  ∧ ∀ r, V004.isinstance_ManaDork (V004.class_at heap r) = false →
         heap' !! r = heap !! r.
Proof.
  apply simulate_game_Ok in Hrun as (-> & _ & Hsame & _).
  split_and!; [apply Hperm|done|by apply same_cards_erase|].
  intros r Hdork. destruct (heap !! r) as [c|] eqn:Hc.
  - destruct (Forall2_lookup_l _ _ _ _ _ Hsame Hc) as (c' & -> & [->|[Hd _]]); [done|].
    unfold V004.class_at in Hdork. rewrite (list_lookup_total_correct _ _ _ Hc) in Hdork.
    congruence.
  - apply lookup_ge_None. apply lookup_ge_None in Hc.
    by rewrite <- (Forall2_length _ _ _ Hsame).
Qed.

(** The [while playable] loop of a turn (V004) pays for what it casts:
    the costs of the rocks and dorks it moves from the hand to the
    battlefield are deducted from [mana_available], which never becomes
    negative; only the rocks join the mana sources, and they add nothing
    to [mana_available] on the turn they are cast.  The loop stops when
    no rock or dork left in hand is affordable. *)
Theorem casting_is_paid_for (fuel : nat) (s s' : V004.Trial) (mana_available left : Z)
    (Hrun : while_played V004.cast_pass fuel (s, mana_available) = Ok (s', left)) :
  (∃ cast,
      V004.battlefield s' = V004.battlefield s ++ cast
      ∧ V004.hand s ≡ₚ cast ++ V004.hand s'
      ∧ sublist (V004.hand s') (V004.hand s)
      ∧ Forall (λ r, V004.isinstance_ManaRock (V004.class_at (V004.heap s) r)
                     || V004.isinstance_ManaDork (V004.class_at (V004.heap s) r) = true)
               cast
      ∧ V004.mana_sources s'
        = V004.mana_sources s
          ++ filter (λ r, V004.isinstance_ManaRock (V004.class_at (V004.heap s) r) = true)
                    cast
      ∧ left = mana_available
               - Spec.total_of (λ r, V004.cost (V004.heap s !!! r)) cast)
  ∧ (0 ≤ mana_available → 0 ≤ left)
  ∧ Forall (λ r, V004.castable (V004.heap s') left r = false) (V004.hand s').
Proof.
  split_and!.
  - apply cast_run in Hrun as (cast & Hbf & Hhand & Hsub & Hall & Hms & Hm & _).
    by exists cast.
  - by apply cast_run in Hrun as (cast & _ & _ & _ & _ & _ & _ & Hpos & _).
  - apply while_played_fixpoint in Hrun. unfold V004.cast_pass in Hrun.
    destruct (extract_first _ (V004.hand s')) as [[card hand']|] eqn:Hnone.
    + by destruct (V004.isinstance_ManaRock _).
    + by apply extract_first_None.
Qed.

(** The state a trial ends in (V004): hand, library and battlefield
    together hold the cards of the deck; the mana sources are lands and
    rocks of the battlefield, never a ManaDork; no plain card is in
    play; the lands in play do not outnumber the turns; and the mana
    counted towards the commander is at least the number of mana
    sources.  The result, if any, is the turn the loop ended on. *)
Theorem trial_board_invariants (fuel : nat) (heap : list V004.Card) (deck : list nat)
    (commander_cost max_turns : Z) (result : option Z) (s' : V004.Trial)
    (Hrun : V004.turn_loop fuel
              {| V004.heap := heap; V004.hand := take 7 deck; V004.library := drop 7 deck;
                 V004.battlefield := []; V004.mana_sources := []; V004.turn := 0 |}
              commander_cost max_turns = Ok (result, s')) :
  V004.hand s' ++ V004.library s' ++ V004.battlefield s' ≡ₚ deck
  ∧ board_ok heap s'
  ∧ Z.of_nat (length (V004.mana_sources s')) ≤ V004.total_mana s'
  ∧ match result with
    | Some t => t = V004.turn s' ∧ 1 ≤ t ≤ max_turns
    | None => V004.turn s' = Z.max 0 max_turns
    end.
Proof.
  apply (turn_loop_spec heap) in Hrun as (Hheap & Hboard & Hzones & Hres).
  - simpl in Hzones, Hres. rewrite app_nil_r, take_drop in Hzones.
    split_and!; [done|done|by eapply board_ok_total_mana|].
    destruct result as [t|]; lia.
  - apply same_cards_refl.
  - simpl. split_and!; [done|constructor|constructor|simpl; lia].
Qed.

(** [run_simulations] plays every trial with the deck list it built
    once, and that is sound as far as the cards go: for every trial
    count it returns, the list is still a permutation of the hundred
    cards, the objects differ from the ones built at most in the
    [summoning_sick] flag of the Lead Myr, the distribution has turns
    from 1 to 15 only and counts at most [trials] trials. *)
Theorem run_simulations_returns {RNG : Type}
    (shuffle : RNG → list nat → list nat * RNG) (fuel : nat) (trials : Z) (rng : RNG)
    (Hperm : Spec.permutes shuffle) (Hfuel : (115 < fuel)%nat) :
  ∃ counts deck' heap',
    V004.run_simulations shuffle fuel trials rng = Ok (counts, deck', heap')
    ∧ deck' ≡ₚ seq 0 100
    ∧ Forall2 up_to_sickness V004.build_deck_objects heap'
    ∧ (∀ t c, counts !! t = Some c → 1 ≤ t ≤ 15 ∧ 1 ≤ c)
    ∧ 0 ≤ sum_counts counts ≤ Z.max 0 trials.
Proof.
  unfold V004.run_simulations.
  destruct (run_trials_terminates shuffle fuel 100 (Z.to_nat trials) Hperm) with
    (h := V004.build_deck_objects) (deck := seq 0 (length V004.build_deck_objects))
    (rng := rng) (results := @nil Z) as (out & deck' & heap' & Hrun); [lia|done|].
  rewrite Hrun. cbn [mbind Outcome_bind obind].
  apply run_trials_Ok in Hrun as (Hdeck & Hheap & new & -> & Hnew & Hlen).
  exists (Counter new), deck', heap'. simpl app. split_and!; try done.
  - by apply Hdeck.
  - intros t c Hlook. apply Counter_lookup_Some in Hlook as (Hin & _ & Hc).
    rewrite Forall_forall in Hnew. split; [by apply Hnew|lia].
  - rewrite sum_counts_Counter. lia.
  - rewrite sum_counts_Counter. lia.
Qed.

(** ** The percentages of the reports *)

Section Report.

#[local] Instance tuple_le_total : Total tuple_le.
Proof. intros [a1 a2] [b1 b2]. unfold tuple_le. simpl. lia. Qed.

#[local] Instance tuple_le_trans : Transitive tuple_le.
Proof. intros [a1 a2] [b1 b2] [c1 c2]. unfold tuple_le. simpl. lia. Qed.












End Report.



(** ** The properties of V004 on the three-card example deck *)

(** A deck of three cards, fewer than a hand: the trial returns. *)
Lemma simulate_game_accepts_every_deck_witness :
  ∃ result deck' heap' rng',
    V004.simulate_game shuffle_rev 20 Example.myr_heap Example.myr_deck 6 15 tt
      = Ok (result, deck', heap', rng')
    ∧ match result with Some t => 1 ≤ t ≤ 15 | None => True end.
Proof.
  refine (proj1 (simulate_game_accepts_every_deck shuffle_rev 20 Example.myr_heap
                   Example.myr_deck 6 15 tt shuffle_rev_permutes _)).
  vm_compute. lia.
Defined.

Lemma simulate_game_keeps_the_cards_witness :
  ∃ result deck' heap' rng',
    V004.simulate_game shuffle_rev 20 Example.myr_heap Example.myr_deck 6 15 tt
      = Ok (result, deck', heap', rng')
    ∧ deck' ≡ₚ Example.myr_deck
    ∧ map (V004.set_summoning_sick false) heap'
      = map (V004.set_summoning_sick false) Example.myr_heap.
Proof.
  destruct (simulate_game_terminates shuffle_rev 20 Example.myr_heap Example.myr_deck 6 15 tt
              shuffle_rev_permutes) as (result & deck' & heap' & rng' & Hrun);
    [vm_compute; lia|].
  exists result, deck', heap', rng'. split; [exact Hrun|].
  destruct (simulate_game_keeps_the_cards shuffle_rev 20 Example.myr_heap heap'
              Example.myr_deck deck' 6 15 tt rng' result shuffle_rev_permutes Hrun)
    as (Hdeck & _ & Hheap & _).
  by split.
Defined.

(** The Mountain in play and the Lead Myr in hand: the Myr is cast with
    the one mana there is. *)
Lemma casting_is_paid_for_witness :
  ∃ s' left,
    while_played V004.cast_pass 5
      ({| V004.heap := Example.myr_heap; V004.hand := [1%nat; 2%nat];
          V004.library := []; V004.battlefield := [0%nat];
          V004.mana_sources := [0%nat]; V004.turn := 1 |}, 1)
      = Ok (s', left)
    ∧ (0 ≤ 1 → 0 ≤ left)
    ∧ Forall (λ r, V004.castable (V004.heap s') left r = false) (V004.hand s').
Proof.
  destruct (while_played V004.cast_pass 5
              ({| V004.heap := Example.myr_heap; V004.hand := [1%nat; 2%nat];
                  V004.library := []; V004.battlefield := [0%nat];
                  V004.mana_sources := [0%nat]; V004.turn := 1 |}, 1))
    as [[s' left]|e|] eqn:Hrun; [|vm_compute in Hrun; discriminate..].
  exists s', left. split; [reflexivity|].
  exact (proj2 (casting_is_paid_for 5 _ s' 1 left Hrun)).
Defined.

Lemma trial_board_invariants_witness :
  ∃ result s',
    V004.turn_loop 20
      {| V004.heap := Example.myr_heap; V004.hand := take 7 Example.myr_deck;
         V004.library := drop 7 Example.myr_deck; V004.battlefield := [];
         V004.mana_sources := []; V004.turn := 0 |} 6 15 = Ok (result, s')
    ∧ V004.hand s' ++ V004.library s' ++ V004.battlefield s' ≡ₚ Example.myr_deck
    ∧ Z.of_nat (length (V004.mana_sources s')) ≤ V004.total_mana s'.
Proof.
  destruct (turn_loop_terminates 6 15 20
              {| V004.heap := Example.myr_heap; V004.hand := take 7 Example.myr_deck;
                 V004.library := drop 7 Example.myr_deck; V004.battlefield := [];
                 V004.mana_sources := []; V004.turn := 0 |})
    as (result & s' & Hrun); [vm_compute; lia|].
  exists result, s'. split; [exact Hrun|].
  destruct (trial_board_invariants 20 Example.myr_heap Example.myr_deck 6 15 result s' Hrun)
    as (Hzones & _ & Hmana & _).
  by split.
Defined.

(** Two trials with the shuffle that reverses. *)
Lemma run_simulations_returns_witness :
  ∃ counts deck' heap',
    V004.run_simulations shuffle_rev 200 2 tt = Ok (counts, deck', heap')
    ∧ deck' ≡ₚ seq 0 100
    ∧ Forall2 up_to_sickness V004.build_deck_objects heap'
    ∧ (∀ t c, counts !! t = Some c → 1 ≤ t ≤ 15 ∧ 1 ≤ c)
    ∧ 0 ≤ sum_counts counts ≤ Z.max 0 2.
Proof.
  refine (run_simulations_returns shuffle_rev 200 2 tt shuffle_rev_permutes _). lia.
Defined.

(** ** The castability test is monotone (V003) *)

Lemma total_of_nonneg {A : Type} (f : A → Z) (l : list A) :
  Forall (λ x, 0 ≤ f x) l → 0 ≤ Spec.total_of f l.
Proof.
  induction 1 as [|x l Hx _ IH]; unfold Spec.total_of in *; simpl; lia.
Qed.

Lemma producers_app (bf more : list (V003.Card * Z)) (now : Z) :
  Spec.producers (bf ++ more) now = Spec.producers bf now ++ Spec.producers more now.
Proof. unfold Spec.producers. apply filter_app. Qed.

Lemma producers_sublist (bf : list (V003.Card * Z)) (now : Z) :
  sublist (Spec.producers bf now) bf.
Proof. unfold Spec.producers. apply sublist_filter. Qed.

(** The reduced cost does not grow with the reductions. *)
Lemma sum_values_apply_reductions (commander_cost r1 r2 : gmap string Z) :
  (∀ color, dict_get0 r1 color ≤ dict_get0 r2 color) →
  sum_values (V003.apply_reductions commander_cost r2)
  ≤ sum_values (V003.apply_reductions commander_cost r1).
Proof.
  intros Hle. unfold V003.apply_reductions.
  induction commander_cost as [|color amount m Hfresh IH] using map_ind.
  - by rewrite !map_imap_empty.
  - rewrite !(map_imap_insert_Some _ _ _ _ _ eq_refl).
    rewrite !sum_values_insert by (by rewrite map_lookup_imap, Hfresh).
    specialize (Hle color). lia.
Qed.

Lemma can_cast_commander_split (self : V003.Game) (commander_cost : gmap string Z) :
  V003.can_cast_commander self commander_cost = true
  ↔ V003.colored_ok (V003.apply_reductions commander_cost
                       (V003.gather_reductions (V003.battlefield self)))
                    (V003.available_mana self) = true
    ∧ sum_values (V003.apply_reductions commander_cost
                    (V003.gather_reductions (V003.battlefield self)))
      ≤ sum_values (V003.available_mana self).
Proof.
  unfold V003.can_cast_commander. destruct (V003.colored_ok _ _).
  - rewrite Z.geb_le. split; [by intros Hle|by intros [_ Hle]].
  - split; [discriminate|by intros [? _]].
Qed.

(** Waiting and playing more permanents never takes the commander out
    of reach: if the test succeeds, it succeeds on every later turn and
    with every permanent added to the battlefield, as long as no mana
    amount and no added reduction is negative. *)
Theorem commander_stays_castable (self self' : V003.Game)
    (commander_cost : gmap string Z) (more : list (V003.Card * Z))
    (Hbf : V003.battlefield self' = V003.battlefield self ++ more)
    (Hturn : V003.turn self ≤ V003.turn self')
    (Hplayed : Forall (λ entry, entry.2 ≤ V003.turn self) (V003.battlefield self))
    (Hmana : Forall (λ entry, map_Forall (λ _ amount, 0 ≤ amount)
                                         (V003.produce_mana entry.1))
                    (V003.battlefield self'))
    (Hred : Forall (λ entry, map_Forall (λ _ amount, 0 ≤ amount)
                                        (V003.cost_reduction entry.1)) more)
    (Hcast : V003.can_cast_commander self commander_cost = true) :
  V003.can_cast_commander self' commander_cost = true.
Proof.
  apply can_cast_commander_split in Hcast as [Hcol Hsum].
  apply can_cast_commander_split.
  rewrite Hbf in Hmana. apply Forall_app in Hmana as [Hmana1 Hmana2].
  assert (Hpool : ∀ color,
             dict_get0 (V003.available_mana self) color
             ≤ dict_get0 (V003.available_mana self') color).
  { intros color. unfold V003.available_mana. rewrite Hbf, !mana_pool_get0, producers_app,
      total_of_app.
    pose proof (total_of_producers_later
                  (λ entry, dict_get0 (V003.produce_mana entry.1) color)
                  (V003.battlefield self) _ _ Hturn Hplayed) as Hlater.
    assert (0 ≤ Spec.total_of (λ entry, dict_get0 (V003.produce_mana entry.1) color)
                              (Spec.producers more (V003.turn self'))).
    { apply total_of_nonneg. eapply Forall_impl.
      - exact (Forall_sublist _ _ _ (producers_sublist more _) Hmana2).
      - intros entry Hentry. by apply nonneg_dict_get0. }
    assert (Forall (λ entry, 0 ≤ dict_get0 (V003.produce_mana entry.1) color)
                   (V003.battlefield self)).
    { eapply Forall_impl; [exact Hmana1|]. intros entry Hentry. by apply nonneg_dict_get0. }
    specialize (Hlater ltac:(done)). lia. }
  assert (Htotal : sum_values (V003.available_mana self)
                   ≤ sum_values (V003.available_mana self')).
  { unfold V003.available_mana. rewrite Hbf, !sum_values_mana_pool, producers_app,
      total_of_app.
    pose proof (total_of_producers_later
                  (λ entry, sum_values (V003.produce_mana entry.1))
                  (V003.battlefield self) _ _ Hturn Hplayed) as Hlater.
    assert (0 ≤ Spec.total_of (λ entry, sum_values (V003.produce_mana entry.1))
                              (Spec.producers more (V003.turn self'))).
    { apply total_of_nonneg. eapply Forall_impl.
      - exact (Forall_sublist _ _ _ (producers_sublist more _) Hmana2).
      - intros entry Hentry. by apply nonneg_sum_values. }
    assert (Forall (λ entry, 0 ≤ sum_values (V003.produce_mana entry.1))
                   (V003.battlefield self)).
    { eapply Forall_impl; [exact Hmana1|]. intros entry Hentry. by apply nonneg_sum_values. }
    specialize (Hlater ltac:(done)). lia. }
  assert (Hreductions : ∀ color,
             dict_get0 (V003.gather_reductions (V003.battlefield self)) color
             ≤ dict_get0 (V003.gather_reductions (V003.battlefield self')) color).
  { intros color. rewrite Hbf, !gather_reductions_get0, total_of_app.
    assert (0 ≤ Spec.total_of (λ entry, dict_get0 (V003.cost_reduction entry.1) color) more).
    { apply total_of_nonneg. eapply Forall_impl; [exact Hred|].
      intros entry Hentry. by apply nonneg_dict_get0. }
    lia. }
  split.
  - apply colored_ok_true. intros color need Hlook Hcolor.
    rewrite apply_reductions_lookup in Hlook.
    destruct (commander_cost !! color) as [amount|] eqn:Hamount; [|discriminate].
    injection Hlook as <-.
    pose proof (proj1 (colored_ok_true _ _) Hcol color
                  (Z.max 0 (amount - dict_get0 (V003.gather_reductions
                                                  (V003.battlefield self)) color))) as Hneed.
    rewrite apply_reductions_lookup, Hamount in Hneed.
    specialize (Hneed eq_refl Hcolor). specialize (Hpool color).
    specialize (Hreductions color). lia.
  - pose proof (sum_values_apply_reductions commander_cost _ _ Hreductions). lia.
Qed.

(** The example game on its third turn, and on the turn after it with
    a Mind Stone more in play. *)
Lemma commander_stays_castable_witness :
  V003.can_cast_commander
    {| V003.turn := 4; V003.deck := []; V003.hand := [];
       V003.battlefield := V003.battlefield Example.midgame ++ [(Example.mind_stone, 4)];
       V003.lands_played := 0 |}
    {["black" := 1; "colorless" := 2]} = true.
Proof.
  refine (commander_stays_castable Example.midgame
            {| V003.turn := 4; V003.deck := []; V003.hand := [];
               V003.battlefield := V003.battlefield Example.midgame
                                   ++ [(Example.mind_stone, 4)];
               V003.lands_played := 0 |}
            _ [(Example.mind_stone, 4)] eq_refl _ _ _ _ _).
  - simpl. lia.
  - repeat (constructor; [simpl; lia|]). constructor.
  - repeat (constructor;
            [apply map_Forall_to_list; vm_compute; repeat constructor; discriminate|]).
    constructor.
  - repeat (constructor;
            [apply map_Forall_to_list; vm_compute; repeat constructor; discriminate|]).
    constructor.
  - vm_compute. reflexivity.
Defined.

(** ** The engine of V001 and V002: rocks and zones *)

Section V001_zones.
Import V001.

Lemma draw_zones_V001 (self : Game) :
  deck (draw self) ++ hand (draw self) ≡ₚ deck self ++ hand self
  ∧ battlefield (draw self) = battlefield self.
Proof.
  unfold draw. destruct (list_pop (deck self)) as [[card rest]|] eqn:Hpop; [|done].
  apply list_pop_Some in Hpop. rewrite Hpop. simpl. split; [|done]. solve_Permutation.
Qed.

Lemma play_land_zones_V001 (self : Game) :
  hand (play_land self).2 ++ battlefield (play_land self).2
  ≡ₚ hand self ++ battlefield self
  ∧ deck (play_land self).2 = deck self.
Proof.
  unfold play_land. destruct (lands_played self =? 0); [|done].
  destruct (extract_first _ (hand self)) as [[card hand']|] eqn:Hcard; [|done].
  apply extract_first_Some in Hcard as (_ & Hperm & _). simpl. split; [|done].
  rewrite Hperm. solve_Permutation.
Qed.

Lemma sum_list_snoc (l : list Z) (x : Z) : sum_list (l ++ [x]) = sum_list l + x.
Proof. unfold sum_list. by rewrite foldl_app. Qed.

Lemma play_rocks_pass_inv (self self' : Game) :
  play_rocks_pass self = Some self' →
  ∃ l1 card l2,
    hand self = l1 ++ card :: l2 ∧ hand self' = l1 ++ l2
    ∧ type card = "rock" ∧ cost card ≤ available_mana self
    ∧ battlefield self' = battlefield self ++ [card]
    ∧ available_mana self' = available_mana self + dict_get0 (mana card) "colorless"
    ∧ turn self' = turn self ∧ deck self' = deck self
    ∧ lands_played self' = lands_played self.
Proof.
  unfold play_rocks_pass.
  destruct (extract_first _ (hand self)) as [[card hand']|] eqn:Hcard; [|discriminate].
  intros [= <-].
  pose proof (extract_first_is_first _ _ _ _ Hcard) as (l1 & l2 & Hsplit & -> & _).
  apply extract_first_Some in Hcard as (Hp & _). apply andb_true_iff in Hp as [Hrock Hpay].
  apply String.eqb_eq in Hrock. apply Z.geb_le in Hpay.
  exists l1, card, l2. split_and!; try done.
  unfold available_mana. cbn [battlefield]. rewrite map_app. cbn [map].
  by rewrite sum_list_snoc.
Qed.

Lemma play_rocks_deploys (fuel : nat) (self self' : Game) :
  play_rocks fuel self = Ok self' →
  ∃ deployed,
    battlefield self' = battlefield self ++ deployed
    ∧ hand self ≡ₚ deployed ++ hand self'
    ∧ sublist (hand self') (hand self)
    ∧ Forall (λ card, type card = "rock") deployed
    ∧ available_mana self'
      = available_mana self
        + Spec.total_of (λ card, dict_get0 (mana card) "colorless") deployed
    ∧ turn self' = turn self ∧ deck self' = deck self
    ∧ lands_played self' = lands_played self.
Proof.
  intros Hrun.
  apply (while_played_invariant play_rocks_pass
           (λ g, ∃ deployed,
                 battlefield g = battlefield self ++ deployed
                 ∧ hand self ≡ₚ deployed ++ hand g
                 ∧ sublist (hand g) (hand self)
                 ∧ Forall (λ card, type card = "rock") deployed
                 ∧ available_mana g
                   = available_mana self
                     + Spec.total_of (λ card, dict_get0 (mana card) "colorless") deployed
                 ∧ turn g = turn self ∧ deck g = deck self
                 ∧ lands_played g = lands_played self))
    with (fuel := fuel) (s := self); [|done|].
  - intros g g' (deployed & Hbf & Hhand & Hsub & Hall & Hmana & Ht & Hd & Hl) Hpass.
    apply play_rocks_pass_inv in Hpass
      as (l1 & card & l2 & Hsplit & Hh' & Hrock & _ & Hbf' & Hmana' & Ht' & Hd' & Hl').
    exists (deployed ++ [card]). split_and!; try congruence.
    + rewrite Hbf', Hbf, <- app_assoc. done.
    + rewrite Hhand, Hsplit, Hh'. solve_Permutation.
    + etrans; [|exact Hsub]. rewrite Hsplit, Hh'.
      apply sublist_app; [done|]. by apply sublist_cons.
    + apply Forall_app. split; [done|]. by apply Forall_singleton.
    + rewrite Hmana', Hmana, total_of_app. unfold Spec.total_of at 3. simpl. lia.
  - exists []. simpl. rewrite app_nil_r. split_and!; try done.
    unfold Spec.total_of. simpl. lia.
Qed.

Lemma take_turn_zones_V001 (fuel : nat) (self self' : Game) :
  take_turn fuel self = Ok self' →
  deck self' ++ hand self' ++ battlefield self'
  ≡ₚ deck self ++ hand self ++ battlefield self.
Proof.
  unfold take_turn. intros Hrun.
  apply play_rocks_deploys in Hrun as (deployed & Hbf & Hhand & _ & _ & _ & _ & Hd & _).
  destruct (play_land_zones_V001 (draw (begin_turn self))) as [Hz1 Hd1].
  destruct (draw_zones_V001 (begin_turn self)) as [Hz0 Hb0]. simpl in Hz0, Hb0.
  rewrite Hd, Hd1, Hbf.
  transitivity (deck (draw (begin_turn self))
                ++ hand (play_land (draw (begin_turn self))).2
                ++ battlefield (play_land (draw (begin_turn self))).2).
  - rewrite Hhand. solve_Permutation.
  - rewrite Hz1, Hb0, app_assoc, Hz0. solve_Permutation.
Qed.

Lemma play_until_commander_zones_V001 (commander_cost max_turns : Z) (fuel : nat) :
  ∀ self result self',
    play_until_commander fuel self commander_cost max_turns = Ok (result, self') →
    deck self' ++ hand self' ++ battlefield self'
    ≡ₚ deck self ++ hand self ++ battlefield self.
Proof.
  induction fuel as [|fuel IH]; intros self result self'; cbn [play_until_commander].
  - destruct (turn self <? max_turns); [discriminate|]. by intros [= _ <-].
  - destruct (turn self <? max_turns); [|by intros [= _ <-]].
    destruct (take_turn fuel self) as [self1|e|] eqn:Hturn;
      cbn [mbind Outcome_bind obind]; try discriminate.
    apply take_turn_zones_V001 in Hturn.
    destruct (available_mana self1 >=? commander_cost).
    + intros [= _ <-]. done.
    + intros Hrun. apply IH in Hrun. by rewrite Hrun.
Qed.
End V001_zones.

(** [play_rocks] (V001, V002) casts rocks and nothing else, and stops
    only when no rock left in hand costs at most the mana then
    available.  The cost of a rock is compared with [available_mana()]
    and never deducted, and the mana of a rock counts as soon as it is
    in play: when no rock produces a negative amount, every rock that
    was affordable when the loop began has been cast, whatever their
    number. *)
Theorem play_rocks_never_pays (fuel : nat) (self self' : V001.Game)
    (Hrun : V001.play_rocks fuel self = Ok self') :
  (∃ deployed,
      V001.battlefield self' = V001.battlefield self ++ deployed
      ∧ V001.hand self ≡ₚ deployed ++ V001.hand self'
      ∧ sublist (V001.hand self') (V001.hand self)
      ∧ Forall (λ card, V001.type card = "rock") deployed
      ∧ V001.available_mana self'
        = V001.available_mana self
          + Spec.total_of (λ card, dict_get0 (V001.mana card) "colorless") deployed
      ∧ (Forall (λ card, 0 ≤ dict_get0 (V001.mana card) "colorless") (V001.hand self) →
         ∀ card, V001.type card = "rock" →
                 V001.cost card ≤ V001.available_mana self →
                 card ∈ V001.hand self → card ∈ deployed ∧ card ∉ V001.hand self'))
  ∧ Forall (λ card, V001.type card = "rock" →
                    V001.available_mana self' < V001.cost card) (V001.hand self').
Proof.
  assert (Hleft : Forall (λ card, V001.type card = "rock" →
                                  V001.available_mana self' < V001.cost card)
                         (V001.hand self')).
  { apply while_played_fixpoint in Hrun. unfold V001.play_rocks_pass in Hrun.
    destruct (extract_first _ (V001.hand self')) as [[c h]|] eqn:Hnone; [discriminate|].
    apply extract_first_None in Hnone. eapply Forall_impl; [exact Hnone|].
    intros card Hcard Hrock. simpl in Hcard. apply String.eqb_eq in Hrock.
    rewrite Hrock in Hcard. simpl in Hcard.
    destruct (Z.geb_spec (V001.available_mana self') (V001.cost card)); [discriminate|lia]. }
  split; [|exact Hleft].
  destruct (play_rocks_deploys _ _ _ Hrun)
    as (deployed & Hbf & Hhand & Hsub & Hall & Hmana & _).
  exists deployed. split_and!; try done.
  intros Hnonneg card Hrock Hcost Hin.
  assert (Hnot : card ∉ V001.hand self').
  { intros Hin'. rewrite Forall_forall in Hleft. specialize (Hleft card Hin' Hrock).
    assert (0 ≤ Spec.total_of (λ card, dict_get0 (V001.mana card) "colorless") deployed).
    { apply total_of_nonneg. rewrite Forall_forall in Hnonneg. apply Forall_forall.
      intros c Hc. apply Hnonneg. rewrite Hhand. apply elem_of_app. by left. }
    lia. }
  split; [|done]. rewrite Hhand in Hin. apply elem_of_app in Hin as [?|?]; done.
Qed.

(** A trial of V001 and V002 keeps the cards of the deck it was built
    from: library, hand and battlefield of the game that
    [play_until_commander] ends in are a permutation of the template. *)
Theorem trial_conserves_the_cards_V001 {RNG : Type}
    (shuffle : RNG → list V001.Card → list V001.Card * RNG)
    (fuel : nat) (template : list V001.Card) (rng rng' : RNG)
    (game game' : V001.Game) (commander_cost max_turns : Z) (result : option Z)
    (Hperm : Spec.permutes shuffle)
    (Hinit : V001.Game_init shuffle template rng = Ok (game, rng'))
    (Hrun : V001.play_until_commander fuel game commander_cost max_turns
            = Ok (result, game')) :
  V001.deck game' ++ V001.hand game' ++ V001.battlefield game' ≡ₚ template
  ∧ (length (V001.deck game') + length (V001.hand game')
     + length (V001.battlefield game') = length template)%nat.
Proof.
  assert (Hzones : V001.deck game' ++ V001.hand game' ++ V001.battlefield game'
                   ≡ₚ template).
  { apply play_until_commander_zones_V001 in Hrun. rewrite Hrun.
    apply Game_init_Ok_V001 in Hinit as (_ & -> & _ & Hsplit).
    rewrite app_nil_r, <- (Hperm rng template), <- Hsplit.
    apply Permutation_app_head. symmetry. apply reverse_Permutation. }
  split; [exact Hzones|].
  apply Permutation_length in Hzones. rewrite !length_app in Hzones. lia.
Qed.

(** Two lands in play and two rocks in hand: both rocks are cast. *)
Lemma play_rocks_never_pays_witness :
  ∃ self',
    V001.play_rocks 10
      {| V001.turn := 2; V001.deck := [];
         V001.hand := [V001.rock_card; V001.filler_card; V001.rock_card];
         V001.battlefield := [V001.land_card; V001.land_card];
         V001.lands_played := 1 |} = Ok self'
    ∧ Forall (λ card, V001.type card = "rock" →
                      V001.available_mana self' < V001.cost card) (V001.hand self').
Proof.
  destruct (V001.play_rocks 10
              {| V001.turn := 2; V001.deck := [];
                 V001.hand := [V001.rock_card; V001.filler_card; V001.rock_card];
                 V001.battlefield := [V001.land_card; V001.land_card];
                 V001.lands_played := 1 |})
    as [self'|e|] eqn:Hrun; [|vm_compute in Hrun; discriminate..].
  exists self'. split; [reflexivity|].
  exact (proj2 (play_rocks_never_pays 10 _ self' Hrun)).
Defined.

(** A deck of five lands, three rocks and four fillers, reversed by the
    shuffle. *)
Lemma trial_conserves_the_cards_V001_witness :
  ∃ game rng' result game',
    V001.Game_init shuffle_rev (V001.build_deck 5 3 4) tt = Ok (game, rng')
    ∧ V001.play_until_commander 40 game 6 20 = Ok (result, game')
    ∧ V001.deck game' ++ V001.hand game' ++ V001.battlefield game'
      ≡ₚ V001.build_deck 5 3 4.
Proof.
  destruct (V001.Game_init shuffle_rev (V001.build_deck 5 3 4) tt)
    as [[game rng']|e|] eqn:Hinit; [|vm_compute in Hinit; discriminate..].
  destruct (play_until_commander_terminates_V001 40 game 6 20) as (result & game' & Hrun).
  { vm_compute in Hinit. injection Hinit as <- <-. vm_compute. lia. }
  exists game, rng', result, game'. split_and!; [reflexivity|exact Hrun|].
  exact (proj1 (trial_conserves_the_cards_V001 shuffle_rev 40 (V001.build_deck 5 3 4) tt rng'
                  game game' 6 20 result shuffle_rev_permutes Hinit Hrun)).
Defined.

(** ** [show_results] after [run_simulation] (V003) *)



